(** * dash-ai-chat: provider adapters, provider registry, conversation log

    A shallow embedding of [src/dash_ai_chat/providers.py], of the registry
    built by [DashAIChat.__init__] in [src/dash_ai_chat/dash_ai_chat.py] and
    of the text-to-speech applications of [examples/10_generate_speech.py]
    and [examples/11_generate_speech_advanced.py].

    Python values keep their dynamic shape: a subscript on the wrong kind of
    value raises, a missing key raises [KeyError], a name that is bound
    nowhere raises [NameError].  The providers' servers are an oracle of the
    world; every request sent to them is recorded in order. *)

From stdpp Require Import base option list strings gmap fin_maps pretty.

Set Warnings "-register-all".
Open Scope string_scope.
Open Scope Z_scope.

(** ** Exceptions and results *)

(** The exceptions the embedded code can meet.  All of them are instances of
    Python's [Exception]; [Raised cls msg] is an exception of class [cls]
    raised by a third-party client, with [msg] what [str] returns on it. *)
Inductive exn : Type :=
| KeyError (key : string)
| IndexError (msg : string)
| TypeError (msg : string)
| NameError (name : string)
| AttributeError (msg : string)
| Raised (cls msg : string).

Inductive result (A : Type) : Type :=
| Ok (a : A)
| Raise (e : exn).
Arguments Ok {A} a.
Arguments Raise {A} e.

#[global] Instance result_ret : MRet result := @Ok.
#[global] Instance result_bind : MBind result := fun A B f r =>
  match r with
  | Ok a => f a
  | Raise e => Raise e
  end.

#[global] Instance result_fmap : FMap result := fun A B f r =>
  match r with
  | Ok a => Ok (f a)
  | Raise e => Raise e
  end.

(** [str(e)]: the message of an exception.  A [KeyError] prints the [repr]
    of its key, which for the keys of this code (no quote, no escape) is the
    key between single quotes; a [NameError] has its standard message. *)
Definition str_exn (e : exn) : string :=
  match e with
  | KeyError k => "'" ++ k ++ "'"
  | IndexError m | TypeError m | AttributeError m => m
  | NameError n => "name '" ++ n ++ "' is not defined"
  | Raised _ m => m
  end.

(** ** Python containers *)

Definition newline : string := String (Ascii.ascii_of_nat 10) "".

(** [l[i]] on a list: negative indices count from the end. *)
Definition list_getitem {A} (l : list A) (i : Z) : result A :=
  let n := Z.of_nat (length l) in
  let j := if i <? 0 then i + n else i in
  if (j <? 0) || (n <=? j) then Raise (IndexError "list index out of range")
  else match l !! Z.to_nat j with
       | Some x => Ok x
       | None => Raise (IndexError "list index out of range")
       end.

(** [d[k]] on a dictionary with string keys. *)
Definition dict_getitem {V} (d : gmap string V) (k : string) : result V :=
  match d !! k with
  | Some v => Ok v
  | None => Raise (KeyError k)
  end.

(** A message of a conversation: a dictionary whose fields are text
    ([role], [content], and auxiliary fields such as [audio_file]). *)
Abbreviation message := (gmap string string).

Definition mk_message (role content : string) : message :=
  {[ "role" := role; "content" := content ]}.

(** Provider-native data: the JSON-like values a response is made of, and
    objects with attributes for what a client library returns.  A float is
    kept as the decimal [mantissa * 10 ^ exponent]; the code only passes
    floats on. *)
Inductive value : Type :=
| VNone
| VBool (b : bool)
| VInt (n : Z)
| VFloat (mantissa exponent : Z)
| VStr (s : string)
| VList (l : list value)
| VDict (d : list (string * value))
| VObj (cls : string) (attrs : list (string * value)).

Fixpoint assoc {V} (k : string) (d : list (string * V)) : option V :=
  match d with
  | [] => None
  | (k', v) :: d' => if String.eqb k k' then Some v else assoc k d'
  end.

(** A subscript: [v["key"]] or [v[i]]. *)
Inductive subscript : Type :=
| Key (k : string)
| Idx (i : Z).

(** The characters of a string held as UTF-8 bytes: a character starts at
    every byte that is not a continuation byte [10xxxxxx]. *)
Definition is_continuation (c : Ascii.ascii) : bool :=
  let n := Z.of_nat (Ascii.nat_of_ascii c) in (128 <=? n) && (n <? 192).

Fixpoint characters (s : string) : list string :=
  match s with
  | EmptyString => []
  | String c s' =>
      match characters s' with
      | [] => [String c ""]
      | ch :: rest =>
          match ch with
          | String c' _ =>
              if is_continuation c' then String c ch :: rest
              else String c "" :: ch :: rest
          | EmptyString => String c "" :: rest
          end
      end
  end.

(** [v[k]]: dictionaries take keys, lists and strings take integers. *)
Definition getitem (v : value) (k : subscript) : result value :=
  match v, k with
  | VDict d, Key s =>
      match assoc s d with
      | Some x => Ok x
      | None => Raise (KeyError s)
      end
  | VDict d, Idx i => Raise (KeyError (pretty i))
  | VList l, Idx i => list_getitem l i
  | VList l, Key _ =>
      Raise (TypeError "list indices must be integers or slices, not str")
  | VStr s, Idx i =>
      match list_getitem (characters s) i with
      | Ok c => Ok (VStr c)
      | Raise _ => Raise (IndexError "string index out of range")
      end
  | VStr s, Key _ => Raise (TypeError "string indices must be integers, not 'str'")
  | _, _ => Raise (TypeError "object is not subscriptable")
  end.

(** [v.name]: only objects have the attributes a response is read by. *)
Definition getattr (v : value) (name : string) : result value :=
  match v with
  | VObj cls attrs =>
      match assoc name attrs with
      | Some x => Ok x
      | None => Raise (AttributeError
                  ("'" ++ cls ++ "' object has no attribute '" ++ name ++ "'"))
      end
  | _ => Raise (AttributeError ("object has no attribute '" ++ name ++ "'"))
  end.

(** ** Clients, requests and the world *)

(** What [format_messages] hands to [call]: a list of messages, or one
    flattened prompt (also the text given to a speech adapter). *)
Inductive payload : Type :=
| Messages (history : list message)
| Prompt (text : string).

Abbreviation kwargs := (list (string * value)).

(** A client of a provider's library: the constructor that built it and the
    API key it holds. *)
Record client : Type := Client { sdk : string; api_key : string }.

(** The operations of the client libraries the adapters invoke, with the
    arguments they are given; [new_client] is the call of a client's
    constructor with an API key. *)
Inductive request : Type :=
| new_client (ctor : string) (api_key : string)
| chat_completions_create (c : client) (model : value) (messages : payload) (kw : kwargs)
| completions_create (c : client) (model : value) (prompt : payload) (kw : kwargs)
| chats_create (c : client) (model : value)
| chat_send_message (chat : value) (text : string)
| messages_create (c : client) (model : value) (messages : payload)
    (max_tokens : Z) (kw : kwargs)
| audio_speech_create (c : client) (model voice : value) (input : payload) (kw : kwargs)
| enter_stream (context : value)
| stream_to_file (response : value) (path : string).

(** The world the code runs in: the process environment, the providers'
    libraries and servers (an oracle that may answer by the requests seen
    so far), the requests sent, the conversation logs and the streamed
    files under their paths, the clock in milliseconds, and the text Python
    prints for the values whose printing the model does not spell out
    (floats, containers, objects). *)
Record world : Type := World {
  environ : gmap string string;
  remote : list request → request → result value;
  sent : list request;
  logs : gmap (list string) (list message);
  blobs : gmap (list string) value;
  clock : Z;
  text_of : value → string
}.

Definition set_sent (tr : list request) (w : world) : world :=
  World (environ w) (remote w) tr (logs w) (blobs w) (clock w) (text_of w).
Definition set_logs (l : gmap (list string) (list message)) (w : world) : world :=
  World (environ w) (remote w) (sent w) l (blobs w) (clock w) (text_of w).
Definition set_blobs (b : gmap (list string) value) (w : world) : world :=
  World (environ w) (remote w) (sent w) (logs w) b (clock w) (text_of w).

(** Computations: they thread the world and may raise. *)
Definition M (A : Type) : Type := world → world * result A.

#[global] Instance M_ret : MRet M := λ A a w, (w, Ok a).
#[global] Instance M_bind : MBind M := λ A B f m w,
  match m w with
  | (w', Ok a) => f a w'
  | (w', Raise e) => (w', Raise e)
  end.

Definition lift {A} (r : result A) : M A := λ w, (w, r).
Definition raise {A} (e : exn) : M A := λ w, (w, Raise e).

(** [try: body except Exception as e: handler e]. *)
Definition try_except {A} (body : M A) (handler : exn → M A) : M A := λ w,
  match body w with
  | (w', Ok a) => (w', Ok a)
  | (w', Raise e) => handler e w'
  end.

(** Submitting a request: it is recorded, and the servers answer. *)
Definition send (q : request) : M value := λ w,
  (set_sent (sent w ++ [q])%list w, remote w (sent w) q).

(** [os.environ[name]]. *)
Definition environ_getitem (name : string) : M string := λ w,
  (w, dict_getitem (environ w) name).

(** [ctor(api_key=key)]: the constructor is the library's, which may refuse
    the key and raise; otherwise the client holds the key.  Nothing goes
    to the servers, so nothing is recorded. *)
Definition construct (ctor : string) (key : string) : M client := λ w,
  (w, match remote w (sent w) (new_client ctor key) with
      | Ok _ => Ok (Client ctor key)
      | Raise e => Raise e
      end).

(** ** Names and calls *)

(** The names bound at the top level of [providers.py]: its one import and
    the definitions of the module. *)
Definition module_globals : list (string * string) :=
  [ ("os", "os");
    ("OpenAIChatCompletions", "providers.OpenAIChatCompletions");
    ("OpenAIResponses", "providers.OpenAIResponses");
    ("GeminiChatCompletions", "providers.GeminiChatCompletions");
    ("AnthropicChatCompletions", "providers.AnthropicChatCompletions");
    ("build_default_registry", "providers.build_default_registry") ].

(** Loading a name inside a function of the module: the function's local
    bindings first, then the module's; none of the names looked up by the
    module is a builtin, so a name found in neither raises [NameError]. *)
Definition load_name (locals : list (string * string)) (name : string) : result string :=
  match assoc name locals with
  | Some b => Ok b
  | None =>
      match assoc name module_globals with
      | Some b => Ok b
      | None => Raise (NameError name)
      end
  end.

(** Binding the arguments of a call.  A failure is a [TypeError]; Python
    puts the name of the callee in front of its text (which name depends on
    the interpreter's version and, for a function of a library, on the
    library), and the texts below are what follows that name.

    A parameter that a caller may pass by position or by keyword: the value
    and the keywords left over. *)
Definition without (name : string) (kw : kwargs) : kwargs :=
  filter (λ p, p.1 ≠ name) kw.

Definition bind_param (name : string) (positional default : option value)
    (kw : kwargs) : result (value * kwargs) :=
  match positional, assoc name kw with
  | Some v, None => Ok (v, kw)
  | Some _, Some _ =>
      Raise (TypeError ("got multiple values for argument '" ++ name ++ "'"))
  | None, Some v => Ok (v, without name kw)
  | None, None =>
      match default with
      | Some v => Ok (v, kw)
      | None => Raise (TypeError
                  ("missing 1 required positional argument: '" ++ name ++ "'"))
      end
  end.

(** The parameters always passed by position may not come again by keyword;
    for a method called on an object, [self] is one of them. *)
Fixpoint positional_only (names : list string) (kw : kwargs) : result unit :=
  match names with
  | [] => Ok ()
  | n :: names' =>
      match assoc n kw with
      | Some _ => Raise (TypeError ("got multiple values for argument '" ++ n ++ "'"))
      | None => positional_only names' kw
      end
  end.

(** [f(a=..., b=..., **kw)]: a keyword written out may not be in [kw] too. *)
Fixpoint spread (explicit : list string) (kw : kwargs) : result kwargs :=
  match explicit with
  | [] => Ok kw
  | n :: explicit' =>
      match assoc n kw with
      | Some _ =>
          Raise (TypeError ("got multiple values for keyword argument '" ++ n ++ "'"))
      | None => spread explicit' kw
      end
  end.

(** [obj.method(a=..., b=..., **kw)] on an object of a client library: the
    keywords written out may not be in [kw], and [kw] may not name the
    [self] the method is bound to. *)
Definition method_keywords (explicit : list string) (kw : kwargs) : result kwargs :=
  kw ← spread explicit kw;
  _ ← positional_only ["self"] kw;
  mret kw.

(** A comprehension [f(m) for m in l]: elements are evaluated left to
    right and the first exception ends the evaluation. *)
Fixpoint comprehension {A B} (f : A → result B) (l : list A) : result (list B) :=
  match l with
  | [] => Ok []
  | x :: l' =>
      y ← f x;
      ys ← comprehension f l';
      mret (y :: ys)
  end.

(** [sep.join(lines)]. *)
Definition join (sep : string) (lines : list string) : string :=
  String.concat sep lines.

(** [messages[i]]: an element of a message list, or a character of a
    prompt. *)
Inductive element : Type :=
| AMessage (m : message)
| ACharacter (c : string).

Definition payload_getitem (p : payload) (i : Z) : result element :=
  match p with
  | Messages history => AMessage <$> list_getitem history i
  | Prompt text =>
      match list_getitem (characters text) i with
      | Ok c => Ok (ACharacter c)
      | Raise _ => Raise (IndexError "string index out of range")
      end
  end.

Definition element_getitem (x : element) (k : string) : result string :=
  match x with
  | AMessage m => dict_getitem m k
  | ACharacter _ => Raise (TypeError "string indices must be integers, not 'str'")
  end.

(** ** The provider adapters of [providers.py] *)

(** [{"role": m["role"], "content": m["content"]}]. *)
Definition role_content (m : message) : result message :=
  role ← dict_getitem m "role";
  content ← dict_getitem m "content";
  mret (mk_message role content).

Module OpenAIChatCompletions.

Definition client_factory : M client :=
  let locals := [("OpenAI", "openai.OpenAI")] in
  ctor ← lift (load_name locals "OpenAI");
  _ ← lift (load_name locals "os");
  key ← environ_getitem "OPENAI_API_KEY";
  construct ctor key.

Definition call (c : client) (messages : payload) (model : option value)
    (keywords : kwargs) : M value :=
  _ ← lift (positional_only ["self"; "client"; "messages"] keywords);
  '(model, kw) ← lift (bind_param "model" model None keywords);
  kw ← lift (method_keywords ["model"; "messages"] kw);
  send (chat_completions_create c model messages kw).

Definition extract (response : value) : result value :=
  choices ← getitem response (Key "choices");
  choice ← getitem choices (Idx 0);
  message ← getitem choice (Key "message");
  getitem message (Key "content").

Definition format_messages (history : list message) : result payload :=
  Messages <$> comprehension role_content history.

End OpenAIChatCompletions.

Module OpenAIResponses.

(** No import in this body: [OpenAI] is looked up with no local binding. *)
Definition client_factory : M client :=
  let locals := [] in
  ctor ← lift (load_name locals "OpenAI");
  _ ← lift (load_name locals "os");
  key ← environ_getitem "OPENAI_API_KEY";
  construct ctor key.

Definition call (c : client) (formatted_prompt : payload) (model : option value)
    (keywords : kwargs) : M value :=
  _ ← lift (positional_only ["self"; "client"; "formatted_prompt"] keywords);
  '(model, kw) ← lift (bind_param "model" model None keywords);
  kw ← lift (method_keywords ["model"; "prompt"] kw);
  send (completions_create c model formatted_prompt kw).

Definition extract (response : value) : result value :=
  choices ← getattr response "choices";
  choice ← getitem choices (Idx 0);
  getattr choice "text".

Definition line (m : message) : result string :=
  role ← dict_getitem m "role";
  content ← dict_getitem m "content";
  mret (role ++ ": " ++ content).

Definition format_messages (history : list message) : result payload :=
  lines ← comprehension line history;
  mret (Prompt (join newline lines)).

End OpenAIResponses.

Module GeminiChatCompletions.

Definition client_factory : M client :=
  let locals := [("genai", "google.genai")] in
  genai ← lift (load_name locals "genai");
  _ ← lift (load_name locals "os");
  key ← environ_getitem "GEMINI_API_KEY";
  construct (genai ++ ".Client") key.

Definition call (c : client) (messages : payload) (model : option value)
    (keywords : kwargs) : M value :=
  _ ← lift (positional_only ["self"; "client"; "messages"] keywords);
  '(model, _) ← lift (bind_param "model" model None keywords);
  chat ← send (chats_create c model);
  last ← lift (payload_getitem messages (-1));
  current_message ← lift (element_getitem last "content");
  send (chat_send_message chat current_message).

Definition extract (response : value) : result value :=
  candidates ← getitem response (Key "candidates");
  candidate ← getitem candidates (Idx 0);
  content ← getitem candidate (Key "content");
  parts ← getitem content (Key "parts");
  part ← getitem parts (Idx 0);
  getitem part (Key "text").

Definition format_messages (history : list message) : result payload :=
  Ok (Messages history).

End GeminiChatCompletions.

Module AnthropicChatCompletions.

Definition client_factory : M client :=
  let locals := [("Anthropic", "anthropic.Anthropic")] in
  ctor ← lift (load_name locals "Anthropic");
  _ ← lift (load_name locals "os");
  key ← environ_getitem "ANTHROPIC_API_KEY";
  construct ctor key.

Definition call (c : client) (messages : payload) (model : option value)
    (keywords : kwargs) : M value :=
  _ ← lift (positional_only ["self"; "client"; "messages"] keywords);
  '(model, kw) ← lift (bind_param "model" model None keywords);
  kw ← lift (method_keywords ["model"; "messages"; "max_tokens"] kw);
  response ← send (messages_create c model messages 1000 kw);
  mret response.

Definition extract (response : value) : result value :=
  content ← getitem response (Key "content");
  block ← getitem content (Idx 0);
  getitem block (Key "text").

Definition format_messages (history : list message) : result payload :=
  Messages <$> comprehension role_content history.

End AnthropicChatCompletions.

(** ** Registry entries *)

(** A callable held by a registry entry, by the shape of its signature.
    [Fcall_self] is a [call] that takes no client and reads the [client]
    attribute of the application it closes over when it runs ([None] when
    the attribute is not set). *)
Inductive method : Type :=
| Fclient_factory (f : M client)
| Fcall (f : client → payload → option value → kwargs → M value)
| Fcall_self (f : option client → payload → option value → kwargs → M value)
| Fextract (f : value → result value)
| Fformat_messages (f : list message → result payload).

(** A registry entry: an instance of a class with the methods the class
    defines, or a dictionary from names to callables. *)
Inductive entry : Type :=
| Object (cls : string) (methods : list (string * method))
| Dict (items : list (string * method)).

(** A registry key: a string, or a pair of strings. *)
Inductive key : Type :=
| KStr (s : string)
| KPair (vendor api : string).

#[global] Instance key_eq_dec : EqDecision key.
Proof. solve_decision. Defined.

#[global] Instance key_countable : Countable key :=
  inj_countable'
    (λ k, match k with KStr s => inl s | KPair v a => inr (v, a) end)
    (λ x, match x with inl s => KStr s | inr (v, a) => KPair v a end)
    (λ k, match k with KStr _ => eq_refl | KPair _ _ => eq_refl end).

Abbreviation registry := (gmap key entry).

(** The four capabilities of the adapter contract. *)
Definition capabilities : list string :=
  ["client_factory"; "call"; "extract"; "format_messages"].

(** The callable an entry answers a name with, if any: a method of the
    object, or an item of the dictionary. *)
Definition callable (e : entry) (name : string) : option method :=
  match e with
  | Object _ methods => assoc name methods
  | Dict items => assoc name items
  end.

Definition provides (e : entry) (name : string) : bool :=
  bool_decide (is_Some (callable e name)).

(** [e.name]: attribute access, as the applications dispatch. *)
Definition entry_getattr (e : entry) (name : string) : result method :=
  match e with
  | Object cls methods =>
      match assoc name methods with
      | Some f => Ok f
      | None => Raise (AttributeError
                  ("'" ++ cls ++ "' object has no attribute '" ++ name ++ "'"))
      end
  | Dict _ => Raise (AttributeError
                ("'dict' object has no attribute '" ++ name ++ "'"))
  end.

(** [reg[k]] on a registry. *)
Definition registry_getitem (reg : registry) (k : key) : result entry :=
  match reg !! k with
  | Some e => Ok e
  | None =>
      Raise (KeyError match k with
                      | KStr s => s
                      | KPair v a => "(" ++ v ++ ", " ++ a ++ ")"
                      end)
  end.

Definition OpenAIChatCompletions_methods : list (string * method) :=
  [ ("client_factory", Fclient_factory OpenAIChatCompletions.client_factory);
    ("call", Fcall OpenAIChatCompletions.call);
    ("extract", Fextract OpenAIChatCompletions.extract);
    ("format_messages", Fformat_messages OpenAIChatCompletions.format_messages) ].

Definition OpenAIResponses_methods : list (string * method) :=
  [ ("client_factory", Fclient_factory OpenAIResponses.client_factory);
    ("call", Fcall OpenAIResponses.call);
    ("extract", Fextract OpenAIResponses.extract);
    ("format_messages", Fformat_messages OpenAIResponses.format_messages) ].

Definition GeminiChatCompletions_methods : list (string * method) :=
  [ ("client_factory", Fclient_factory GeminiChatCompletions.client_factory);
    ("call", Fcall GeminiChatCompletions.call);
    ("extract", Fextract GeminiChatCompletions.extract);
    ("format_messages", Fformat_messages GeminiChatCompletions.format_messages) ].

Definition AnthropicChatCompletions_methods : list (string * method) :=
  [ ("client_factory", Fclient_factory AnthropicChatCompletions.client_factory);
    ("call", Fcall AnthropicChatCompletions.call);
    ("extract", Fextract AnthropicChatCompletions.extract);
    ("format_messages", Fformat_messages AnthropicChatCompletions.format_messages) ].

(** [build_default_registry()]: the entry for "openai:responses" is
    commented out in the source. *)
Definition build_default_registry : registry :=
  <[ KStr "openai:chat.completions" :=
       Object "OpenAIChatCompletions" OpenAIChatCompletions_methods ]>
  (<[ KStr "gemini:chat.completions" :=
       Object "GeminiChatCompletions" GeminiChatCompletions_methods ]>
  (<[ KStr "anthropic:chat.completions" :=
       Object "AnthropicChatCompletions" AnthropicChatCompletions_methods ]> ∅)).

(** ** The registry built by [DashAIChat.__init__] *)

Module DashAIChat.

(** [self.client], read when the lambda runs.  The lambdas have no [self]
    parameter: a keyword of that name goes on with the others to the
    method of the client, which refuses it. *)
Definition self_client (attr : option client) : result client :=
  match attr with
  | Some c => Ok c
  | None => Raise (AttributeError "'DashAIChat' object has no attribute 'client'")
  end.

Definition chat_completions_call (attr : option client) (messages : payload)
    (model : option value) (keywords : kwargs) : M value :=
  _ ← lift (positional_only ["messages"] keywords);
  '(model, kw) ← lift (bind_param "model" model None keywords);
  c ← lift (self_client attr);
  kw ← lift (method_keywords ["model"; "messages"] kw);
  send (chat_completions_create c model messages kw).

Definition chat_completions_extract (resp : value) : result value :=
  choices ← getitem resp (Key "choices");
  choice ← getitem choices (Idx 0);
  message ← getitem choice (Key "message");
  getitem message (Key "content").

Definition chat_completions_format_messages (history : list message)
    : result payload :=
  Messages <$> comprehension role_content history.

Definition completions_call (attr : option client) (prompt : payload)
    (model : option value) (keywords : kwargs) : M value :=
  _ ← lift (positional_only ["prompt"] keywords);
  '(model, kw) ← lift (bind_param "model" model None keywords);
  c ← lift (self_client attr);
  kw ← lift (method_keywords ["model"; "prompt"] kw);
  send (completions_create c model prompt kw).

Definition completions_extract (resp : value) : result value :=
  choices ← getitem resp (Key "choices");
  choice ← getitem choices (Idx 0);
  getitem choice (Key "text").

Definition completions_format_messages (history : list message)
    : result payload :=
  lines ← comprehension OpenAIResponses.line history;
  mret (Prompt (join newline lines)).

Definition chat_completions_entry : entry :=
  Dict [ ("call", Fcall_self chat_completions_call);
         ("extract", Fextract chat_completions_extract);
         ("format_messages", Fformat_messages chat_completions_format_messages) ].

Definition completions_entry : entry :=
  Dict [ ("call", Fcall_self completions_call);
         ("extract", Fextract completions_extract);
         ("format_messages", Fformat_messages completions_format_messages) ].

(** The value [__init__] assigns to [self.AI_REGISTRY]. *)
Definition AI_REGISTRY : registry :=
  <[ KPair "openai" "chat.completions" := chat_completions_entry ]>
  (<[ KPair "openai" "completions" := completions_entry ]> ∅).

End DashAIChat.

(** ** Dispatch on an entry *)

(** Calling what an attribute holds: a callable of another shape does not
    accept the arguments. *)
Definition invoke_client_factory (f : method) : M client :=
  match f with
  | Fclient_factory g => g
  | _ => raise (TypeError "missing required positional argument")
  end.

Definition invoke_call (f : method) (c : client) (x : payload)
    (model : option value) (keywords : kwargs) : M value :=
  match f with
  | Fcall g => g c x model keywords
  | _ => raise (TypeError "call does not take these arguments")
  end.

Definition invoke_extract (f : method) (response : value) : result value :=
  match f with
  | Fextract g => g response
  | _ => Raise (TypeError "extract does not take these arguments")
  end.

Definition invoke_format_messages (f : method) (history : list message)
    : result payload :=
  match f with
  | Fformat_messages g => g history
  | _ => Raise (TypeError "format_messages does not take these arguments")
  end.

(** The provider's part of a request: [provider.client_factory()], then
    [provider.call(client, x, ...)] on the client it returned. *)
Definition run_provider (provider : entry) (x : payload) (model : option value)
    (keywords : kwargs) : M value :=
  factory ← lift (entry_getattr provider "client_factory");
  client ← invoke_client_factory factory;
  call ← lift (entry_getattr provider "call");
  invoke_call call client x model keywords.

(** Dispatch on a key, as [generate_speech] does: the entry is looked up
    in the registry when the request is made, then run. *)
Definition dispatch (reg : registry) (k : key) (x : payload) (model : option value)
    (keywords : kwargs) : M value :=
  provider ← lift (registry_getitem reg k);
  run_provider provider x model keywords.

(** ** The text-to-speech adapter of the examples *)

Module OpenAITextToSpeech.

(** [openai.OpenAI()] with no argument: the library takes the key from
    OPENAI_API_KEY itself and raises its [OpenAIError] when it is unset,
    with a message of its own; a key that is set is taken to be one the
    library accepts. *)
Definition client_factory : M client := λ w,
  match environ w !! "OPENAI_API_KEY" with
  | Some k => (w, Ok (Client "openai.OpenAI" k))
  | None => (w, Raise (Raised "OpenAIError" (text_of w (VObj "OpenAIError" []))))
  end.

Definition call (c : client) (text : payload) (model : option value)
    (keywords : kwargs) : M value :=
  _ ← lift (positional_only ["self"; "client"; "text"] keywords);
  '(model, kw) ← lift (bind_param "model" model (Some (VStr "gpt-4o-mini-tts")) keywords);
  '(voice, kw) ← lift (bind_param "voice" None (Some (VStr "alloy")) kw);
  kw ← lift (spread ["model"; "voice"; "input"] kw);
  send (audio_speech_create c model voice text kw).

Definition extract (response : value) : result value := Ok response.

Definition format_messages (history : list message) : result payload :=
  Ok (Messages history).

End OpenAITextToSpeech.

Definition OpenAITextToSpeech_methods : list (string * method) :=
  [ ("client_factory", Fclient_factory OpenAITextToSpeech.client_factory);
    ("call", Fcall OpenAITextToSpeech.call);
    ("extract", Fextract OpenAITextToSpeech.extract);
    ("format_messages", Fformat_messages OpenAITextToSpeech.format_messages) ].

Definition tts_adapter : entry :=
  Object "OpenAITextToSpeech" OpenAITextToSpeech_methods.

(** ** The application object and its conversation store *)

(** The attributes of an application the examples read.  The two methods of
    the base class whose source is not part of the tree,
    [get_next_convo_id] and [append_raw_response], are carried by the
    object. *)
Record app : Type := App {
  BASE_DIR : list string;
  AI_REGISTRY : registry;
  self_provider_spec : string;
  self_provider_model : string;
  _current_tts_settings : option (gmap string value);
  get_next_convo_id : string → M string;
  append_raw_response : string → string → string → M unit
}.

Definition set_AI_REGISTRY (reg : registry) (self : app) : app :=
  App (BASE_DIR self) reg (self_provider_spec self) (self_provider_model self)
      (_current_tts_settings self) (get_next_convo_id self)
      (append_raw_response self).

Definition set_current_tts_settings (s : gmap string value) (self : app) : app :=
  App (BASE_DIR self) (AI_REGISTRY self) (self_provider_spec self)
      (self_provider_model self) (Some s) (get_next_convo_id self)
      (append_raw_response self).

(** Modelled from the spec: the path of a conversation, derived from the
    user and conversation identifiers under the base directory (the base
    class method [_ensure_convo_dir] is not part of the tree). *)
Definition _ensure_convo_dir (self : app) (user_id convo_id : string) : list string :=
  (BASE_DIR self ++ [user_id; convo_id])%list.

(** Modelled from the spec: reloading a conversation reads its whole log,
    in order; a conversation with no file yet has no message. *)
Definition load_messages (self : app) (user_id convo_id : string) (w : world)
    : list message :=
  default [] (logs w !! _ensure_convo_dir self user_id convo_id).

(** Modelled from the spec: [add_message] appends one message at the end of
    the conversation's log (the base class method is not part of the
    tree). *)
Definition add_message (self : app) (user_id convo_id : string) (m : message)
    : M unit := λ w,
  let path := _ensure_convo_dir self user_id convo_id in
  (set_logs (<[ path := (load_messages self user_id convo_id w ++ [m])%list ]> (logs w)) w,
   Ok ()).

(** Appending a list of messages, one [add_message] after the other. *)
Fixpoint add_messages (self : app) (user_id convo_id : string) (ms : list message)
    : M unit :=
  match ms with
  | [] => mret ()
  | m :: ms' =>
      _ ← add_message self user_id convo_id m;
      add_messages self user_id convo_id ms'
  end.

(** ** Helpers of the example applications *)

(** [str(path)] of a [pathlib] path held by its parts. *)
Definition str_path (parts : list string) : string :=
  match parts with
  | [] => "."
  | _ => join "/" parts
  end.

(** [x or y] on an optional string: [None] and the empty string are false. *)
Definition str_or (x : option string) (y : string) : string :=
  match x with
  | Some EmptyString | None => y
  | Some s => s
  end.

(** [convo_id or self.get_next_convo_id(user_id)]. *)
Definition convo_or_next (self : app) (convo_id : option string) (user_id : string)
    : M string :=
  match convo_id with
  | Some EmptyString | None => get_next_convo_id self user_id
  | Some c => mret c
  end.

(** Truth of a value in a condition. *)
Definition truthy (v : value) : bool :=
  match v with
  | VNone => false
  | VBool b => b
  | VInt n => negb (n =? 0)
  | VFloat m _ => negb (m =? 0)
  | VStr s => negb (String.eqb s "")
  | VList l => negb (bool_decide (length l = 0%nat))
  | VDict d => negb (bool_decide (length d = 0%nat))
  | VObj _ _ => true
  end.

(** [v == s] for a string literal [s]: only an equal string is equal. *)
Definition equals_str (v : value) (s : string) : bool :=
  match v with
  | VStr s' => String.eqb s' s
  | _ => false
  end.

(** The code point of a character held as UTF-8 bytes: the payload of the
    leading byte, then six bits of every continuation byte. *)
Fixpoint continuation_bits (acc : Z) (s : string) : Z :=
  match s with
  | EmptyString => acc
  | String b s' =>
      continuation_bits (acc * 64 + (Z.of_nat (Ascii.nat_of_ascii b) - 128)) s'
  end.

Definition code_point (ch : string) : Z :=
  match ch with
  | EmptyString => 0
  | String c rest =>
      let n := Z.of_nat (Ascii.nat_of_ascii c) in
      let lead := if n <? 128 then n
                  else if n <? 224 then n - 192
                  else if n <? 240 then n - 224
                  else n - 240 in
      continuation_bits lead rest
  end.

(** [ch.isspace()] on one character: the white space of Unicode, which is
    U+0009 to U+000D, U+001C to U+0020, U+0085, U+00A0, U+1680, U+2000 to
    U+200A, U+2028, U+2029, U+202F, U+205F and U+3000. *)
Definition is_space (ch : string) : bool :=
  let n := code_point ch in
  ((9 <=? n) && (n <=? 13)) || ((28 <=? n) && (n <=? 32))
  || (n =? 133) || (n =? 160) || (n =? 5760)
  || ((8192 <=? n) && (n <=? 8202))
  || (n =? 8232) || (n =? 8233) || (n =? 8239) || (n =? 8287) || (n =? 12288).

Fixpoint lstrip (chars : list string) : list string :=
  match chars with
  | ch :: chars' => if is_space ch then lstrip chars' else chars
  | [] => []
  end.

(** [s.strip()]: the white space is removed at both ends. *)
Definition strip (s : string) : string :=
  join "" (reverse (lstrip (reverse (lstrip (characters s))))).

Definition value_strip (v : value) : result value :=
  match v with
  | VStr s => Ok (VStr (strip s))
  | _ => Raise (AttributeError "object has no attribute 'strip'")
  end.

(** [str(v)], and a value inside an f-string. *)
Definition str_value (v : value) : M string := λ w,
  (w, Ok match v with
         | VStr s => s
         | VNone => "None"
         | VBool true => "True"
         | VBool false => "False"
         | VInt n => pretty n
         | _ => text_of w v
         end).

(** [{"role": "user", "content": user_message}]. *)
Definition user_message_of (user_message : string) : message :=
  mk_message "user" user_message.

(** [{"role": "assistant", "content": f"❌ Failed to generate speech: {str(e)}"}]. *)
Definition error_message_of (e : exn) : message :=
  mk_message "assistant" ("❌ Failed to generate speech: " ++ str_exn e).

(** [str(int(time.time() * 1000))]. *)
Definition timestamp_ms : M string := λ w, (w, Ok (pretty (clock w))).

Definition write_blob (path : list string) (audio : value) : M unit := λ w,
  (set_blobs (<[ path := audio ]> (blobs w)) w, Ok ()).

(** [with response_context as response: response.stream_to_file(path)]:
    the context is entered, the body is streamed into the file. *)
Definition stream_into (response_context : value) (path : list string) : M unit :=
  response ← send (enter_stream response_context);
  audio ← send (stream_to_file response (str_path path));
  write_blob path audio.

(** ** [examples/10_generate_speech.py] *)

Module SpeechGeneratorChat.

(** [__init__], given the object the base class has initialised. *)
Definition init (base : app) : app :=
  set_AI_REGISTRY
    (<[ KStr "openai:tts" := tts_adapter ]>
       (AI_REGISTRY base))
    base.

(** Directories are implicit in the store, so [mkdir] leaves no trace; the
    lookup of the provider, its [client_factory] and its [call] are the
    three statements [dispatch] stands for. *)
Definition generate_speech (self : app) (user_id conversation_id text : string)
    : M (list string) :=
  let audio_dir := (_ensure_convo_dir self user_id conversation_id ++ ["audio"])%list in
  timestamp ← timestamp_ms;
  let speech_file_path := (audio_dir ++ [("speech_" ++ timestamp ++ ".mp3")%string])%list in
  response_context ←
    dispatch (AI_REGISTRY self) (KStr "openai:tts") (Prompt text) None [];
  _ ← try_except
        (raw ← str_value response_context;
         append_raw_response self user_id conversation_id raw)
        (λ _, mret ());
  _ ← stream_into response_context speech_file_path;
  mret speech_file_path.

Definition update_convo (self : app) (user_id user_message : string)
    (convo_id provider_spec provider_model : option string) : M string :=
  let provider_spec := str_or provider_spec (self_provider_spec self) in
  let provider_model := str_or provider_model (self_provider_model self) in
  convo_id ← convo_or_next self convo_id user_id;
  let user_msg := user_message_of user_message in
  _ ← add_message self user_id convo_id user_msg;
  _ ← try_except
        (speech_file_path ← generate_speech self user_id convo_id user_message;
         let assistant_msg :=
           <[ "audio_file" := str_path speech_file_path ]> (mk_message "assistant" "") in
         add_message self user_id convo_id assistant_msg)
        (λ e,
         let error_msg := error_message_of e in
         add_message self user_id convo_id error_msg);
  mret convo_id.

End SpeechGeneratorChat.

(** ** [examples/11_generate_speech_advanced.py] *)

Module AdvancedSpeechGeneratorChat.

Definition default_settings : gmap string value :=
  {[ "model" := VStr "gpt-4o-mini-tts";
     "voice" := VStr "alloy";
     "speed" := VFloat 10 (-1);
     "response_format" := VStr "mp3";
     "instructions" := VNone ]}.

Definition init (base : app) : app :=
  set_current_tts_settings default_settings
    (set_AI_REGISTRY
       (<[ KStr "openai:tts" := tts_adapter ]>
          (AI_REGISTRY base))
       base).

(** [instructions and instructions.strip() and model == "gpt-4o-mini-tts"]. *)
Definition wants_instructions (instructions model : value) : result bool :=
  if truthy instructions then
    stripped ← value_strip instructions;
    if truthy stripped then Ok (equals_str model "gpt-4o-mini-tts") else Ok false
  else Ok false.

Definition build_call_kwargs (model voice speed response_format instructions : value)
    : result kwargs :=
  let call_kwargs :=
    [ ("model", model); ("voice", voice); ("speed", speed);
      ("response_format", response_format) ] in
  wanted ← wants_instructions instructions model;
  if (wanted : bool) then
    stripped ← value_strip instructions;
    mret (call_kwargs ++ [("instructions", stripped)])%list
  else mret call_kwargs.

Definition generate_speech (self : app) (user_id conversation_id text : string)
    (model voice speed response_format instructions : value) : M (list string) :=
  let audio_dir := (_ensure_convo_dir self user_id conversation_id ++ ["audio"])%list in
  timestamp ← timestamp_ms;
  extension ← str_value response_format;
  let speech_file_path :=
    (audio_dir ++ [("speech_" ++ timestamp ++ "." ++ extension)%string])%list in
  tts_provider ← lift (registry_getitem (AI_REGISTRY self) (KStr "openai:tts"));
  factory ← lift (entry_getattr tts_provider "client_factory");
  client ← invoke_client_factory factory;
  call_kwargs ← lift (build_call_kwargs model voice speed response_format instructions);
  call ← lift (entry_getattr tts_provider "call");
  response_context ← invoke_call call client (Prompt text) None call_kwargs;
  _ ← stream_into response_context speech_file_path;
  mret speech_file_path.

(** [settings.get(name, default)]. *)
Definition get (settings : gmap string value) (name : string) (d : value) : value :=
  default d (settings !! name).

Definition update_convo (self : app) (user_id user_message : string)
    (convo_id provider_spec provider_model : option string) : M string :=
  let provider_spec := str_or provider_spec (self_provider_spec self) in
  let provider_model := str_or provider_model (self_provider_model self) in
  convo_id ← convo_or_next self convo_id user_id;
  let user_msg := user_message_of user_message in
  _ ← add_message self user_id convo_id user_msg;
  _ ← try_except
        (let settings := default ∅ (_current_tts_settings self) in
         speech_file_path ←
           generate_speech self user_id convo_id user_message
             (get settings "model" (VStr "gpt-4o-mini-tts"))
             (get settings "voice" (VStr "alloy"))
             (get settings "speed" (VFloat 10 (-1)))
             (get settings "response_format" (VStr "mp3"))
             (get settings "instructions" VNone);
         let assistant_msg :=
           <[ "audio_file" := str_path speech_file_path ]> (mk_message "assistant" "") in
         add_message self user_id convo_id assistant_msg)
        (λ e,
         let error_msg := error_message_of e in
         add_message self user_id convo_id error_msg);
  mret convo_id.

End AdvancedSpeechGeneratorChat.

(** ** Statement vocabulary *)

(** A string of the form "<vendor>:<api>": a vendor and an API name, both
    non-empty, around a colon. *)
Definition vendor_api_form (s : string) : Prop :=
  ∃ vendor api, vendor ≠ "" ∧ api ≠ "" ∧ s = vendor ++ ":" ++ api.

Definition key_has_form (k : key) : Prop :=
  ∃ s, k = KStr s ∧ vendor_api_form s.

(** A well-formed message has a role and a content. *)
Definition is_message (m : message) : Prop :=
  is_Some (m !! "role") ∧ is_Some (m !! "content").

Definition field (m : message) (k : string) : string := default "" (m !! k).

(** The role/content record of a message, and its "role: content" line. *)
Definition record_of (m : message) : message :=
  mk_message (field m "role") (field m "content").

Definition line_of (m : message) : string :=
  field m "role" ++ ": " ++ field m "content".

(** The value at a path of keys and positions in JSON-like data, as in
    [choices[0].message.content]. *)
Fixpoint at_path (p : list subscript) (v : value) : option value :=
  match p with
  | [] => Some v
  | Key k :: p' =>
      match v with
      | VDict d => assoc k d ≫= at_path p'
      | _ => None
      end
  | Idx i :: p' =>
      match v with
      | VList l => (if 0 <=? i then l !! Z.to_nat i else None) ≫= at_path p'
      | _ => None
      end
  end.

(** Subscripting along a path, one subscript after the other. *)
Fixpoint getpath (p : list subscript) (v : value) : result value :=
  match p with
  | [] => Ok v
  | k :: p' => x ← getitem v k; getpath p' x
  end.

(** Where the text of a response lies, by provider, and the environment
    variable that holds the provider's API key. *)
Definition text_path (k : key) : list subscript :=
  if decide (k = KStr "openai:chat.completions") then
    [Key "choices"; Idx 0; Key "message"; Key "content"]
  else if decide (k = KStr "gemini:chat.completions") then
    [Key "candidates"; Idx 0; Key "content"; Key "parts"; Idx 0; Key "text"]
  else [Key "content"; Idx 0; Key "text"].

Definition key_variable (k : key) : string :=
  if decide (k = KStr "openai:chat.completions") then "OPENAI_API_KEY"
  else if decide (k = KStr "gemini:chat.completions") then "GEMINI_API_KEY"
  else "ANTHROPIC_API_KEY".

(** The libraries and the servers refuse nothing: they open a chat when
    asked to and answer every other request, the construction of a client
    included, with the response [r]. *)
Definition answers_with (w : world) (r : value) : Prop :=
  ∀ tr q, match q with
          | chats_create _ _ => ∃ chat, remote w tr q = Ok chat
          | _ => remote w tr q = Ok r
          end.

(** Modelled from the spec: "calling the four methods in sequence", the
    way an application answers a conversation with an adapter (the method
    of the base class that does it is not part of the tree): the client is
    made, the history is formatted, the call is made with the model, the
    response is extracted. *)
Definition respond (provider : entry) (history : list message) (model : value)
    : M value :=
  factory ← lift (entry_getattr provider "client_factory");
  client ← invoke_client_factory factory;
  format ← lift (entry_getattr provider "format_messages");
  formatted ← lift (invoke_format_messages format history);
  call ← lift (entry_getattr provider "call");
  response ← invoke_call call client formatted (Some model) [];
  extract ← lift (entry_getattr provider "extract");
  lift (invoke_extract extract response).

(** What [messages[-1]["content"]] evaluates to on a list of messages. *)
Definition last_content (history : list message) : result string :=
  last ← payload_getitem (Messages history) (-1);
  element_getitem last "content".

(** A world for examples: the servers answer every request with
    [answer]. *)
Definition quiet_world (env : gmap string string) (answer : result value) : world :=
  World env (λ _ _, answer) [] ∅ ∅ 0 (λ _, "").

(** The no-break space U+00A0, as UTF-8. *)
Definition no_break_space : string :=
  String (Ascii.ascii_of_nat 194) (String (Ascii.ascii_of_nat 160) "").

(** A world whose OPENAI_API_KEY is set to the empty string and whose
    libraries refuse an empty API key, as the OpenAI client does. *)
Definition refusing_world : world :=
  World {[ "OPENAI_API_KEY" := "" ]}
    (λ _ q, match q with
            | new_client _ "" =>
                Raise (Raised "OpenAIError"
                  "The api_key client option must be set either by passing api_key to the client or by setting the OPENAI_API_KEY environment variable")
            | _ => Ok VNone
            end)
    [] ∅ ∅ 0 (λ _, "").

(** An application as a base class leaves it, for examples. *)
Definition plain_app (reg : registry) : app :=
  App ["chat_data"] reg "openai:chat.completions" "gpt-4o" None
      (λ _, mret "001") (λ _ _ _, mret ()).

(** ** Vocabulary of the further properties *)

(** A path that ends in a key and whose positions are not negative, as the
    paths the adapters read a response by. *)
Fixpoint key_terminated (p : list subscript) : bool :=
  match p with
  | [] => false
  | Key _ :: p' => match p' with [] => true | _ => key_terminated p' end
  | Idx i :: p' => (0 <=? i) && key_terminated p'
  end.

(** The field whose lookup fails first on a message that lacks a role or a
    content: the role is read before the content. *)
Definition first_missing_field (m : message) : string :=
  if decide (is_Some (m !! "role")) then "content" else "role".

(** ** The layout of [DashAIChat] and its validation *)

(** The [children] property of a component: none (the property is [None]
    or the component has no such property), one child, or a list. *)
Inductive kids (A : Type) : Type :=
| NoChildren
| Child (c : A)
| Children (l : list A).
Arguments NoChildren {A}.
Arguments Child {A} c.
Arguments Children {A} l.

(** The [id] of a component: Dash takes a string, or a dictionary (the id
    of a pattern-matching callback). *)
Inductive ident : Type :=
| IdStr (s : string)
| IdDict (d : list (string * value)).

(** A node of a layout: a string, or a component with its [id] when it was
    given one, its other properties, and its children. *)
Inductive component : Type :=
| Text (s : string)
| Node (tag : string) (id : option ident) (props : list (string * value))
    (children : kids component).

(** What [_validate_layout] ends in when the ids are collected: nothing, or
    the [ValueError] that names the required ids the layout lacks.  An
    exception raised while the ids are collected is the other outcome. *)
Inductive validation : Type :=
| Valid
| Missing (ids : gset string).

Module Layout.

(** [if hasattr(component, "id") and component.id: ids.add(component.id)]:
    an id that was not given, or is empty, does not count; a string joins
    the set; a dictionary cannot be an element of a set. *)
Definition own_id (id : option ident) : result (gset string) :=
  match id with
  | Some (IdStr (String a s)) => Ok {[ String a s ]}
  | Some (IdDict (_ :: _)) => Raise (TypeError "unhashable type: 'dict'")
  | _ => Ok ∅
  end.

(** [collect_ids] of [_validate_layout]: the component's own id first, then
    its children from left to right. *)
Fixpoint collect_ids (c : component) : result (gset string) :=
  match c with
  | Text _ => Ok ∅
  | Node _ id _ children =>
      ids ← own_id id;
      match children with
      | NoChildren => Ok ids
      | Child child => more ← collect_ids child; mret (ids ∪ more)
      | Children l =>
          (fix each (ids : gset string) (l : list component) : result (gset string) :=
             match l with
             | [] => Ok ids
             | child :: l' => more ← collect_ids child; each (ids ∪ more) l'
             end) ids l
      end
  end.

Definition required_ids : gset string :=
  {[ "burger-menu"; "sidebar-offcanvas"; "conversation-list"; "url";
     "chat_area_div"; "user_input_textarea"; "new-chat-button" ]}.

Definition _validate_layout (layout : component) : result validation :=
  ids ← collect_ids layout;
  let missing := required_ids ∖ ids in
  if decide (missing = ∅) then Ok Valid else Ok (Missing missing).

(** [set_layout]: the layout the application holds afterwards, and how the
    validation ended. *)
Definition set_layout (layout : component) : component * result validation :=
  (layout, _validate_layout layout).

Definition sidebar : component :=
  Node "Offcanvas" (Some (IdStr "sidebar-offcanvas"))
    [ ("title", VStr "Conversations"); ("is_open", VBool false);
      ("placement", VStr "start") ]
    (Children
       [ Node "Div" (Some (IdStr "new-chat-button")) [("className", VStr "mb-3 w-100")]
           (Children
              [ Node "I" None [("className", VStr "bi bi-pencil-square icon-new-chat")]
                  NoChildren;
                Text " New chat" ]);
         Node "Div" (Some (IdStr "conversation-list"))
           [("className", VStr "conversation-list")] (Children []) ]).

Definition chat_area : component :=
  Node "Div" (Some (IdStr "chat_area_div")) [("className", VStr "chat-area-div")]
    (Children []).

Definition input_area : component :=
  Node "Div" None []
    (Children
       [ Node "Textarea" (Some (IdStr "user_input_textarea"))
           [ ("placeholder", VStr "Ask..."); ("rows", VInt 4);
             ("autoFocus", VBool true);
             ("className", VStr "form-control user-input-textarea") ]
           NoChildren ]).

(** [default_layout], over what [self.sidebar()], [self.chat_area()] and
    [self.input_area()] return (a subclass may override them). *)
Definition default_layout (sidebar chat_area input_area : component) : component :=
  Node "Div" None []
    (Children
       [ Node "Button" (Some (IdStr "burger-menu"))
           [("className", VStr "burger-menu btn btn-outline-secondary")]
           (Child (Text "☰"));
         sidebar;
         Node "Location" (Some (IdStr "url")) [("refresh", VBool false)] NoChildren;
         Node "Div" None [("className", VStr "container main-container")]
           (Children
              [ Node "Br" None [] NoChildren;
                Node "Div" None [("className", VStr "row")]
                  (Children
                     [ Node "Div" None [("className", VStr "col")]
                         (Children
                            [ Node "Loading" None [("type", VStr "circle")]
                                (Child chat_area) ]) ]);
                Node "Div" None [("className", VStr "row")]
                  (Children
                     [ Node "Div" None [("className", VStr "col")]
                         (Children [input_area]) ]) ]) ]).

(** The layout part of [__init__], lines 48 and 49: the default layout is
    built from the application's own factories and validated. *)
Definition init_layout : component * result validation :=
  set_layout (default_layout sidebar chat_area input_area).

End Layout.

(** A component of the layout carries the id [x]: it has this non-empty
    string as its id itself, or one of its children carries it. *)
Inductive carries (x : string) : component → Prop :=
| carries_here tag props children :
    x ≠ "" → carries x (Node tag (Some (IdStr x)) props children)
| carries_child tag id props child :
    carries x child → carries x (Node tag id props (Child child))
| carries_children tag id props l child :
    child ∈ l → carries x child → carries x (Node tag id props (Children l)).

(** A component of the layout has a dictionary id: its own id is a
    non-empty dictionary, or one of its children has one. *)
Inductive keyed : component → Prop :=
| keyed_here tag d props children :
    d ≠ [] → keyed (Node tag (Some (IdDict d)) props children)
| keyed_child tag id props child :
    keyed child → keyed (Node tag id props (Child child))
| keyed_children tag id props l child :
    child ∈ l → keyed child → keyed (Node tag id props (Children l)).

(** ** [examples/04_signature_chat.py] *)

(** [c.children.append(x)]: only a component whose children are a list
    takes one more child. *)
Definition children_append (c x : component) : result component :=
  match c with
  | Text _ => Raise (AttributeError "'str' object has no attribute 'children'")
  | Node _ _ _ NoChildren =>
      Raise (AttributeError "'NoneType' object has no attribute 'append'")
  | Node _ _ _ (Child _) => Raise (AttributeError "object has no attribute 'append'")
  | Node tag id props (Children l) => Ok (Node tag id props (Children (l ++ [x])%list))
  end.

Module SignatureChat.

Definition signature_div : component :=
  Node "Div" None []
    (Children
       [ Node "Div" None
           [("style",
             VDict [ ("text-align", VStr "right"); ("font-size", VStr "0.9em");
                     ("color", VStr "#666"); ("margin-top", VStr "15px");
                     ("padding-bottom", VStr "10px");
                     ("border-bottom", VStr "1px solid #eee") ])]
           (Children
              [ Node "Div" None [("style", VDict [("font-style", VStr "italic")])]
                  (Children
                     [ Text "Sincerely, ";
                       Node "A" None
                         [ ("href", VStr "https://pypi.org/project/dash-ai-chat/");
                           ("target", VStr "_blank") ]
                         (Child (Text "DashAIChat! 🤖")) ]);
                Node "Code" None
                  [("style",
                    VDict [ ("background-color", VStr "#f8f9fa");
                            ("padding", VStr "2px 4px"); ("border-radius", VStr "3px");
                            ("font-size", VStr "0.8em"); ("font-style", VStr "normal") ])]
                  (Child (Text "pip install dash-ai-chat")) ]);
         Node "Br" None [] NoChildren ]).

(** One turn of the loop, on the message at position [i]. *)
Definition sign_one (i : nat) (msg : message) (formatted : list component)
    : result (list component) :=
  role ← dict_getitem msg "role";
  if String.eqb role "assistant" then
    if bool_decide (i < length formatted)%nat then
      match formatted !! i with
      | Some c =>
          c' ← children_append c signature_div;
          mret (<[ i := c' ]> formatted)
      | None => Raise (IndexError "list index out of range")
      end
    else Ok formatted
  else Ok formatted.

(** [for i, msg in enumerate(messages)], from position [i] on. *)
Fixpoint sign_from (i : nat) (messages : list message) (formatted : list component)
    : result (list component) :=
  match messages with
  | [] => Ok formatted
  | msg :: rest =>
      formatted' ← sign_one i msg formatted;
      sign_from (S i) rest formatted'
  end.

(** [format_messages], over the [format_messages] of the base class (its
    source is not part of the tree); each formatted message is an object of
    its own. *)
Definition format_messages (super_format_messages : list message → result (list component))
    (messages : list message) : result (list component) :=
  formatted ← super_format_messages messages;
  sign_from 0 messages formatted.

End SignatureChat.

(** ** The settings callback of [examples/11_generate_speech_advanced.py] *)

(** [a or b] on values. *)
Definition value_or (a b : value) : value := if truthy a then a else b.

(** [store_tts_settings]: the application afterwards, and the value
    returned to the framework. *)
Definition store_tts_settings (self : app)
    (n_submit tts_model tts_voice tts_speed tts_format tts_instructions : value)
    : app * string :=
  (if truthy n_submit then
     set_current_tts_settings
       {[ "model" := value_or tts_model (VStr "gpt-4o-mini-tts");
          "voice" := value_or tts_voice (VStr "alloy");
          "speed" := value_or tts_speed (VFloat 10 (-1));
          "response_format" := value_or tts_format (VStr "mp3");
          "instructions" := tts_instructions ]}
       self
   else self,
   "tts_model_dropdown").

(** A computation that leaves the conversation logs as they are. *)
Definition keeps_logs {A} (m : M A) : Prop := ∀ w, logs (m w).1 = logs w.

(** The assistant message [update_convo] stores for a speech file. *)
Definition audio_message_of (speech_file_path : list string) : message :=
  <[ "audio_file" := str_path speech_file_path ]> (mk_message "assistant" "").


(** A component with the signature as its last child, and the messages
    that get one. *)
Definition with_signature (c : component) : component :=
  match c with
  | Node tag id props (Children l) =>
      Node tag id props (Children (l ++ [SignatureChat.signature_div])%list)
  | _ => c
  end.

Definition is_assistant (m : message) : bool :=
  bool_decide (m !! "role" = Some "assistant").

Definition has_child_list (c : component) : Prop :=
  ∃ tag id props l, c = Node tag id props (Children l).

(** ** The audio players of the speech examples *)

(** [c.style = style]: a string takes no attribute; a component gets the
    property, in place of the one it had. *)
Fixpoint set_prop (name : string) (v : value) (props : list (string * value))
    : list (string * value) :=
  match props with
  | [] => [(name, v)]
  | (k, x) :: props' =>
      if String.eqb k name then (k, v) :: props' else (k, x) :: set_prop name v props'
  end.

Definition set_style (c : component) (style : value) : result component :=
  match c with
  | Text _ => Raise (AttributeError "'str' object has no attribute 'style'")
  | Node tag id props children => Ok (Node tag id (set_prop "style" style props) children)
  end.

(** [format_messages] of [SpeechGeneratorChat] and of
    [AdvancedSpeechGeneratorChat] (the two bodies are the same), over the
    [format_messages] of the base class and over what [pathlib] answers:
    [exists s] for [Path(s).exists()], [path_str s] for [str(Path(s))]. *)
Module SpeechMessages.

Definition audio_element (audio_url : string) : component :=
  Node "Audio" None
    [ ("controls", VBool true); ("src", VStr audio_url);
      ("style", VDict [("width", VStr "100%"); ("margin-top", VStr "10px")]) ]
    NoChildren.

Definition hidden : value := VDict [("display", VStr "none")].

(** The three [append]s and the hiding of the second child, on the
    children of one formatted message. *)
Definition add_player (audio_url : string) (l : list component)
    : result (list component) :=
  let l := (l ++ [audio_element audio_url])%list in
  let l := (l ++ [Node "Br" None [] NoChildren])%list in
  let l := (l ++ [Node "Hr" None [] NoChildren])%list in
  if bool_decide (3 < length l)%nat then
    second ← list_getitem l 1;
    second' ← set_style second hidden;
    mret (<[ 1%nat := second' ]> l)
  else Ok l.

(** [msg["role"] == "assistant" and "audio_file" in msg and msg["audio_file"]]:
    the audio file to play, if any. *)
Definition audio_file_of (msg : message) : result (option string) :=
  role ← dict_getitem msg "role";
  if String.eqb role "assistant" then
    match msg !! "audio_file" with
    | Some (String a s) => Ok (Some (String a s))
    | _ => Ok None
    end
  else Ok None.

Definition play_one (exists_ : string → bool) (path_str : string → string)
    (i : nat) (msg : message) (formatted : list component)
    : result (list component) :=
  file ← audio_file_of msg;
  match file with
  | Some audio_file =>
      if exists_ audio_file then
        let audio_url := "/" ++ path_str audio_file in
        if bool_decide (i < length formatted)%nat then
          match formatted !! i with
          | Some (Node tag id props (Children l)) =>
              l' ← add_player audio_url l;
              mret (<[ i := Node tag id props (Children l') ]> formatted)
          | _ => Ok formatted
          end
        else Ok formatted
      else Ok formatted
  | None => Ok formatted
  end.

Fixpoint play_from (exists_ : string → bool) (path_str : string → string)
    (i : nat) (messages : list message) (formatted : list component)
    : result (list component) :=
  match messages with
  | [] => Ok formatted
  | msg :: rest =>
      formatted' ← play_one exists_ path_str i msg formatted;
      play_from exists_ path_str (S i) rest formatted'
  end.

Definition format_messages
    (super_format_messages : list message → result (list component))
    (exists_ : string → bool) (path_str : string → string)
    (messages : list message) : result (list component) :=
  formatted ← super_format_messages messages;
  play_from exists_ path_str 0 messages formatted.

End SpeechMessages.

(** A message whose audio file is played: an assistant message with a
    non-empty [audio_file] that exists. *)
Definition playable (exists_ : string → bool) (m : message) : Prop :=
  m !! "role" = Some "assistant"
  ∧ ∃ audio_file, m !! "audio_file" = Some audio_file ∧ audio_file ≠ ""
                  ∧ exists_ audio_file = true.

(** What the formatted message [c] of the message [m] has become in [o]:
    unchanged unless [m] is playable and [c] has a list of children, which
    then went through [add_player] with the URL of the file. *)
Definition played (exists_ : string → bool) (path_str : string → string)
    (m : message) (c : component) (o : option component) : Prop :=
  (¬ playable exists_ m → o = Some c)
  ∧ (∀ audio_file, playable exists_ m → m !! "audio_file" = Some audio_file →
       match c with
       | Node tag id props (Children l) =>
           ∃ l', o = Some (Node tag id props (Children l'))
                 ∧ SpeechMessages.add_player ("/" ++ path_str audio_file) l = Ok l'
       | _ => o = Some c
       end).

(** * Properties *)

(** Running a computation: the monad's operations are unfolded and the
    result is reduced. *)
Ltac run_M :=
  unfold mbind, mret, M_bind, M_ret, lift, raise, try_except; cbn.

Lemma bind_M_ok {A B} (m : M A) (k : A → M B) (w w' : world) (a : A) :
  m w = (w', Ok a) → (m ≫= k) w = k a w'.
Proof. intros H. unfold mbind, M_bind. by rewrite H. Qed.

Lemma bind_M_raise {A B} (m : M A) (k : A → M B) (w w' : world) (e : exn) :
  m w = (w', Raise e) → (m ≫= k) w = (w', Raise e).
Proof. intros H. unfold mbind, M_bind. by rewrite H. Qed.

(** ** The embedding on small inputs *)

Example list_getitem_last : list_getitem [1; 2; 3] (-1) = Ok 3.
Proof. reflexivity. Qed.

Example message_lookup : dict_getitem (mk_message "user" "hi") "content" = Ok "hi".
Proof. vm_compute. reflexivity. Qed.

Example characters_ascii : characters "ab" = ["a"; "b"].
Proof. reflexivity. Qed.

Example getitem_nested :
  getitem (VDict [("choices", VList [VStr "x"])]) (Key "choices")
    ≫= (λ v, getitem v (Idx 0)) = Ok (VStr "x").
Proof. reflexivity. Qed.

Example default_registry_lookup :
  (λ e, provides e "call") <$> (build_default_registry !! KStr "gemini:chat.completions")
  = Some true.
Proof. vm_compute. reflexivity. Qed.

Example openai_extract_sample :
  OpenAIChatCompletions.extract
    (VDict [("id", VStr "chatcmpl-1");
            ("choices",
             VList [VDict [("index", VInt 0);
                           ("message", VDict [("role", VStr "assistant");
                                              ("content", VStr "Hello!")])]])])
  = Ok (VStr "Hello!").
Proof. reflexivity. Qed.

Example openai_extract_no_choice :
  OpenAIChatCompletions.extract (VDict [("choices", VList [])])
  = Raise (IndexError "list index out of range").
Proof. reflexivity. Qed.

Example responses_format_sample :
  OpenAIResponses.format_messages
    [mk_message "user" "hi"; mk_message "assistant" "hello"]
  = Ok (Prompt ("user: hi" ++ newline ++ "assistant: hello")).
Proof. reflexivity. Qed.

Example chat_format_missing_role :
  OpenAIChatCompletions.format_messages [{[ "content" := "hi" ]}]
  = Raise (KeyError "role").
Proof. reflexivity. Qed.

Example strip_sample : strip "  be calm  " = "be calm".
Proof. reflexivity. Qed.

Example anthropic_max_tokens_twice :
  ∃ msg,
    AnthropicChatCompletions.call (Client "anthropic.Anthropic" "k") (Messages [])
      (Some (VStr "claude")) [("max_tokens", VInt 5)] (quiet_world ∅ (Ok VNone))
    = (quiet_world ∅ (Ok VNone), Raise (TypeError msg)).
Proof. by eexists. Qed.

Example call_with_self_keyword :
  ∃ msg,
    OpenAIChatCompletions.call (Client "openai.OpenAI" "k") (Messages [])
      (Some (VStr "gpt-4o")) [("self", VInt 1)] (quiet_world ∅ (Ok VNone))
    = (quiet_world ∅ (Ok VNone), Raise (TypeError msg)).
Proof. by eexists. Qed.

Example strip_no_break_space :
  strip no_break_space = ""
  ∧ strip (no_break_space ++ "be calm" ++ no_break_space) = "be calm".
Proof. split; reflexivity. Qed.

Example no_instructions_of_blanks :
  AdvancedSpeechGeneratorChat.build_call_kwargs
    (VStr "gpt-4o-mini-tts") (VStr "nova") (VFloat 15 (-1)) (VStr "wav")
    (VStr (no_break_space ++ " "))
  = Ok [ ("model", VStr "gpt-4o-mini-tts"); ("voice", VStr "nova");
         ("speed", VFloat 15 (-1)); ("response_format", VStr "wav") ].
Proof. reflexivity. Qed.

Example client_refused :
  OpenAIChatCompletions.client_factory refusing_world
  = (refusing_world,
     Raise (Raised "OpenAIError"
       "The api_key client option must be set either by passing api_key to the client or by setting the OPENAI_API_KEY environment variable")).
Proof. reflexivity. Qed.

Example update_convo_speech_made :
  let self := SpeechGeneratorChat.init (plain_app DashAIChat.AI_REGISTRY) in
  let w := quiet_world {[ "OPENAI_API_KEY" := "sk-test" ]} (Ok (VStr "mp3 bytes")) in
  let out := SpeechGeneratorChat.update_convo self "alice" "hello" None None None w in
  out.2 = Ok "001"
  ∧ load_messages self "alice" "001" out.1
    = [ mk_message "user" "hello";
        <[ "audio_file" := "chat_data/alice/001/audio/speech_0.mp3" ]>
          (mk_message "assistant" "") ]
  ∧ blobs out.1 !! ["chat_data"; "alice"; "001"; "audio"; "speech_0.mp3"]
    = Some (VStr "mp3 bytes").
Proof. repeat split; reflexivity. Qed.

Example advanced_call_kwargs_with_instructions :
  AdvancedSpeechGeneratorChat.build_call_kwargs
    (VStr "gpt-4o-mini-tts") (VStr "nova") (VFloat 15 (-1)) (VStr "wav")
    (VStr " calm ")
  = Ok [ ("model", VStr "gpt-4o-mini-tts"); ("voice", VStr "nova");
         ("speed", VFloat 15 (-1)); ("response_format", VStr "wav");
         ("instructions", VStr "calm") ].
Proof. reflexivity. Qed.

Example tts_client_without_key :
  (SpeechGeneratorChat.update_convo
     (SpeechGeneratorChat.init (plain_app DashAIChat.AI_REGISTRY))
     "alice" "hello" (Some "7") None None (quiet_world ∅ (Ok VNone))).2
  = Ok "7".
Proof. reflexivity. Qed.

(** ** The registries *)

Lemma default_registry_entries (P : key → entry → Prop) :
  P (KStr "openai:chat.completions")
    (Object "OpenAIChatCompletions" OpenAIChatCompletions_methods) →
  P (KStr "gemini:chat.completions")
    (Object "GeminiChatCompletions" GeminiChatCompletions_methods) →
  P (KStr "anthropic:chat.completions")
    (Object "AnthropicChatCompletions" AnthropicChatCompletions_methods) →
  ∀ k e, build_default_registry !! k = Some e → P k e.
Proof.
  intros H1 H2 H3 k e. unfold build_default_registry.
  rewrite !lookup_insert_Some, lookup_empty.
  intros [[<- <-]|[_ [[<- <-]|[_ [[<- <-]|[_ ?]]]]]]; done.
Qed.

Lemma legacy_registry_entries (P : key → entry → Prop) :
  P (KPair "openai" "chat.completions") DashAIChat.chat_completions_entry →
  P (KPair "openai" "completions") DashAIChat.completions_entry →
  ∀ k e, DashAIChat.AI_REGISTRY !! k = Some e → P k e.
Proof.
  intros H1 H2 k e. unfold DashAIChat.AI_REGISTRY.
  rewrite !lookup_insert_Some, lookup_empty.
  intros [[<- <-]|[_ [[<- <-]|[_ ?]]]]; done.
Qed.

(** C1, as stated, fails on the registry [DashAIChat.__init__] builds: not
    every entry of it provides the four operations (its entries have no
    [client_factory]). *)
Lemma legacy_registry_lacks_client_factory :
  ¬ (∀ k e, DashAIChat.AI_REGISTRY !! k = Some e →
            ∀ c, c ∈ capabilities → provides e c = true).
Proof.
  intros H.
  specialize (H (KPair "openai" "chat.completions") DashAIChat.chat_completions_entry
                (lookup_insert_eq _ _ _) "client_factory").
  assert (provides DashAIChat.chat_completions_entry "client_factory" = false)
    as Hf by reflexivity.
  rewrite H in Hf; [discriminate|]. set_solver.
Qed.

(** C1 (amended): every adapter of the registry returned by
    [build_default_registry] implements the four capabilities
    [client_factory], [call], [extract] and [format_messages]; every entry
    of the registry built by [DashAIChat.__init__] provides [call],
    [extract] and [format_messages], and no [client_factory]. *)
Theorem registered_capabilities :
  (∀ k e, build_default_registry !! k = Some e →
          ∀ c, c ∈ capabilities → provides e c = true)
  ∧ (∀ k e, DashAIChat.AI_REGISTRY !! k = Some e →
            provides e "call" = true ∧ provides e "extract" = true
            ∧ provides e "format_messages" = true
            ∧ provides e "client_factory" = false).
Proof.
  split.
  - apply (default_registry_entries
             (λ _ e, ∀ c, c ∈ capabilities → provides e c = true));
      intros c Hc; unfold capabilities in Hc;
      repeat (apply elem_of_cons in Hc as [->|Hc]; [reflexivity|]);
      by apply elem_of_nil in Hc.
  - apply (legacy_registry_entries
             (λ _ e, provides e "call" = true ∧ provides e "extract" = true
                     ∧ provides e "format_messages" = true
                     ∧ provides e "client_factory" = false));
      repeat split; reflexivity.
Qed.

Lemma registered_capabilities_witness :
  build_default_registry !! KStr "gemini:chat.completions"
    = Some (Object "GeminiChatCompletions" GeminiChatCompletions_methods)
  ∧ "extract" ∈ capabilities
  ∧ provides (Object "GeminiChatCompletions" GeminiChatCompletions_methods) "extract"
    = true
  ∧ DashAIChat.AI_REGISTRY !! KPair "openai" "completions"
    = Some DashAIChat.completions_entry
  ∧ provides DashAIChat.completions_entry "client_factory" = false.
Proof.
  assert (build_default_registry !! KStr "gemini:chat.completions"
    = Some (Object "GeminiChatCompletions" GeminiChatCompletions_methods)) as H1
    by reflexivity.
  assert ("extract" ∈ capabilities) as H2 by (unfold capabilities; set_solver).
  assert (DashAIChat.AI_REGISTRY !! KPair "openai" "completions"
    = Some DashAIChat.completions_entry) as H3 by reflexivity.
  split; [exact H1|]. split; [exact H2|].
  split; [exact (proj1 registered_capabilities _ _ H1 _ H2)|].
  split; [exact H3|].
  exact (proj2 (proj2 (proj2 (proj2 registered_capabilities _ _ H3)))).
Defined.

(** C2, as stated, fails on the registry [DashAIChat.__init__] builds: its
    keys are pairs such as [("openai", "chat.completions")], not strings. *)
Lemma legacy_registry_keys_are_not_strings :
  ¬ (∀ k e, DashAIChat.AI_REGISTRY !! k = Some e → key_has_form k).
Proof.
  intros H.
  destruct (H (KPair "openai" "chat.completions") DashAIChat.chat_completions_entry
              (lookup_insert_eq _ _ _)) as (s & Hs & _).
  discriminate Hs.
Qed.

(** C2 (amended): every key of the registry returned by
    [build_default_registry] is a string of the form "<vendor>:<api>";
    every key of the registry built by [DashAIChat.__init__] is a pair
    [(vendor, api)] of non-empty strings. *)
Theorem registry_key_forms :
  (∀ k e, build_default_registry !! k = Some e → key_has_form k)
  ∧ (∀ k e, DashAIChat.AI_REGISTRY !! k = Some e →
            ∃ vendor api, k = KPair vendor api ∧ vendor ≠ "" ∧ api ≠ "").
Proof.
  split.
  - apply (default_registry_entries (λ k _, key_has_form k)).
    + exists "openai:chat.completions". split; [done|].
      by exists "openai", "chat.completions".
    + exists "gemini:chat.completions". split; [done|].
      by exists "gemini", "chat.completions".
    + exists "anthropic:chat.completions". split; [done|].
      by exists "anthropic", "chat.completions".
  - apply (legacy_registry_entries
             (λ k _, ∃ vendor api, k = KPair vendor api ∧ vendor ≠ "" ∧ api ≠ "")).
    + by exists "openai", "chat.completions".
    + by exists "openai", "completions".
Qed.

Lemma registry_key_forms_witness :
  build_default_registry !! KStr "anthropic:chat.completions"
    = Some (Object "AnthropicChatCompletions" AnthropicChatCompletions_methods)
  ∧ key_has_form (KStr "anthropic:chat.completions").
Proof.
  assert (build_default_registry !! KStr "anthropic:chat.completions"
    = Some (Object "AnthropicChatCompletions" AnthropicChatCompletions_methods)) as H1
    by reflexivity.
  split; [exact H1|]. exact (proj1 registry_key_forms _ _ H1).
Defined.

(** ** Client construction *)

(** C10: [OpenAIResponses.client_factory] raises [NameError] for the name
    [OpenAI] on every invocation, whatever the environment holds, because
    the name is bound neither in the function nor in the module; and the
    key "openai:responses" is absent from the registry returned by
    [build_default_registry]. *)
Theorem responses_client_factory_name_error :
  (∀ w, OpenAIResponses.client_factory w = (w, Raise (NameError "OpenAI")))
  ∧ load_name [] "OpenAI" = Raise (NameError "OpenAI")
  ∧ build_default_registry !! KStr "openai:responses" = None.
Proof. split; [|split]; reflexivity. Qed.

Lemma openai_client_factory_eq w :
  OpenAIChatCompletions.client_factory w =
    (w, match environ w !! "OPENAI_API_KEY" with
        | Some key =>
            match remote w (sent w) (new_client "openai.OpenAI" key) with
            | Ok _ => Ok (Client "openai.OpenAI" key)
            | Raise e => Raise e
            end
        | None => Raise (KeyError "OPENAI_API_KEY")
        end).
Proof.
  unfold OpenAIChatCompletions.client_factory, environ_getitem, dict_getitem, construct.
  run_M. by destruct (environ w !! "OPENAI_API_KEY").
Qed.

Lemma gemini_client_factory_eq w :
  GeminiChatCompletions.client_factory w =
    (w, match environ w !! "GEMINI_API_KEY" with
        | Some key =>
            match remote w (sent w) (new_client "google.genai.Client" key) with
            | Ok _ => Ok (Client "google.genai.Client" key)
            | Raise e => Raise e
            end
        | None => Raise (KeyError "GEMINI_API_KEY")
        end).
Proof.
  unfold GeminiChatCompletions.client_factory, environ_getitem, dict_getitem, construct.
  run_M. by destruct (environ w !! "GEMINI_API_KEY").
Qed.

Lemma anthropic_client_factory_eq w :
  AnthropicChatCompletions.client_factory w =
    (w, match environ w !! "ANTHROPIC_API_KEY" with
        | Some key =>
            match remote w (sent w) (new_client "anthropic.Anthropic" key) with
            | Ok _ => Ok (Client "anthropic.Anthropic" key)
            | Raise e => Raise e
            end
        | None => Raise (KeyError "ANTHROPIC_API_KEY")
        end).
Proof.
  unfold AnthropicChatCompletions.client_factory, environ_getitem, dict_getitem, construct.
  run_M. by destruct (environ w !! "ANTHROPIC_API_KEY").
Qed.



(** ** Registry overwrite *)



(** ** Message formatting *)

Lemma comprehension_ok {A B} (f : A → result B) (g : A → B) (l : list A) :
  Forall (λ x, f x = Ok (g x)) l → comprehension f l = Ok (g <$> l).
Proof.
  induction 1 as [|x l Hx _ IH]; [reflexivity|].
  cbn. rewrite Hx. cbn. rewrite IH. reflexivity.
Qed.

Lemma role_content_ok (m : message) :
  is_message m → role_content m = Ok (record_of m).
Proof.
  intros [[r Hr] [c Hc]]. unfold role_content, record_of, field, dict_getitem.
  rewrite Hr, Hc. reflexivity.
Qed.

Lemma line_ok (m : message) :
  is_message m → OpenAIResponses.line m = Ok (line_of m).
Proof.
  intros [[r Hr] [c Hc]]. unfold OpenAIResponses.line, line_of, field, dict_getitem.
  rewrite Hr, Hc. reflexivity.
Qed.

Lemma record_of_fields (m : message) :
  is_message m →
  record_of m !! "role" = m !! "role" ∧ record_of m !! "content" = m !! "content"
  ∧ dom (record_of m) = {[ "role"; "content" ]}.
Proof.
  intros [[r Hr] [c Hc]]. unfold record_of, field, mk_message.
  rewrite Hr, Hc. cbn [default]. split; [|split].
  - by rewrite lookup_insert_eq.
  - by rewrite lookup_insert_ne, lookup_singleton_eq.
  - rewrite dom_insert_L, dom_singleton_L. reflexivity.
Qed.

(** C6: on a history of messages, the [format_messages] of
    [OpenAIChatCompletions] and of [AnthropicChatCompletions] return the
    list of role/content records of the messages, one per message and in
    the order of the input, each record holding exactly the role and the
    content of its message; the [format_messages] of [OpenAIResponses]
    returns the one prompt made of the "role: content" lines of the
    messages, in order, joined by newlines. *)
Theorem format_messages_shapes (history : list message) :
  Forall is_message history →
  OpenAIChatCompletions.format_messages history = Ok (Messages (record_of <$> history))
  ∧ AnthropicChatCompletions.format_messages history
    = Ok (Messages (record_of <$> history))
  ∧ OpenAIResponses.format_messages history
    = Ok (Prompt (join newline (line_of <$> history)))
  ∧ length (record_of <$> history) = length history
  ∧ (∀ i m, history !! i = Some m →
       ∃ r, (record_of <$> history) !! i = Some r
            ∧ r !! "role" = m !! "role" ∧ r !! "content" = m !! "content"
            ∧ dom r = {[ "role"; "content" ]}).
Proof.
  intros Hwf.
  assert (comprehension role_content history = Ok (record_of <$> history)) as Hrc.
  { apply comprehension_ok. eapply Forall_impl; [exact Hwf|]. apply role_content_ok. }
  assert (comprehension OpenAIResponses.line history = Ok (line_of <$> history)) as Hl.
  { apply comprehension_ok. eapply Forall_impl; [exact Hwf|]. apply line_ok. }
  repeat split.
  - unfold OpenAIChatCompletions.format_messages. by rewrite Hrc.
  - unfold AnthropicChatCompletions.format_messages. by rewrite Hrc.
  - unfold OpenAIResponses.format_messages. by rewrite Hl.
  - apply length_fmap.
  - intros i m Hi. exists (record_of m). rewrite list_lookup_fmap, Hi.
    split; [reflexivity|]. apply record_of_fields.
    by apply (Forall_lookup_1 _ _ _ _ Hwf Hi).
Qed.

Lemma format_messages_shapes_witness :
  let history :=
    [ mk_message "user" "hi";
      <[ "audio_file" := "a.mp3" ]> (mk_message "assistant" "ok") ] in
  Forall is_message history
  ∧ OpenAIResponses.format_messages history
    = Ok (Prompt ("user: hi" ++ newline ++ "assistant: ok")).
Proof.
  intros history.
  assert (Forall is_message history) as Hwf.
  { repeat constructor; eexists; reflexivity. }
  split; [exact Hwf|].
  exact (proj1 (proj2 (proj2 (format_messages_shapes history Hwf)))).
Defined.

(** ** The Gemini call *)

Lemma list_getitem_minus_one {A} (l : list A) :
  list_getitem l (-1)
  = match last l with
    | Some x => Ok x
    | None => Raise (IndexError "list index out of range")
    end.
Proof.
  unfold list_getitem. rewrite last_lookup.
  destruct l as [|a l]; [reflexivity|].
  cbn [length Nat.pred].
  replace (if -1 <? 0 then -1 + Z.of_nat (S (length l)) else -1)
    with (Z.of_nat (length l)) by (cbn; lia).
  replace ((Z.of_nat (length l) <? 0) || (Z.of_nat (S (length l)) <=? Z.of_nat (length l)))
    with false by (symmetry; apply orb_false_iff; split; [apply Z.ltb_ge|apply Z.leb_gt]; lia).
  rewrite Nat2Z.id.
  destruct (lookup_lt_is_Some_2 (a :: l) (length l)) as [x Hx]; [cbn; lia|].
  by rewrite Hx.
Qed.

Lemma last_content_spec (history : list message) :
  last_content history
  = match last history with
    | Some m => dict_getitem m "content"
    | None => Raise (IndexError "list index out of range")
    end.
Proof.
  unfold last_content, payload_getitem. rewrite list_getitem_minus_one.
  by destruct (last history).
Qed.

Lemma gemini_call_unfold c history model kw w :
  GeminiChatCompletions.call c (Messages history) model kw w
  = match positional_only ["self"; "client"; "messages"] kw with
    | Raise e => (w, Raise e)
    | Ok _ =>
        match bind_param "model" model None kw with
        | Raise e => (w, Raise e)
        | Ok (model, _) =>
            let w1 := set_sent (sent w ++ [chats_create c model])%list w in
            match remote w (sent w) (chats_create c model) with
            | Raise e => (w1, Raise e)
            | Ok chat =>
                match last_content history with
                | Raise e => (w1, Raise e)
                | Ok text => send (chat_send_message chat text) w1
                end
            end
        end
    end.
Proof.
  unfold GeminiChatCompletions.call, last_content, payload_getitem.
  unfold mbind, mret, fmap, M_bind, M_ret, result_bind, result_fmap, lift.
  destruct (positional_only _ kw); [|reflexivity].
  destruct (bind_param _ _ _ _) as [[m kw']|]; [|reflexivity]. cbn zeta.
  destruct (send (chats_create c m) w) as [w1 [chat|e]] eqn:Hs;
    unfold send in Hs; injection Hs as <- Hr; rewrite Hr; [|reflexivity].
  destruct (list_getitem history (-1)); [|reflexivity].
  destruct (element_getitem _ _); reflexivity.
Qed.

(** C9: [GeminiChatCompletions.call] depends on its message list only by
    the content of the last message: on two non-empty lists whose last
    messages have equal [content] fields it sends the same requests and
    ends the same way, whatever the earlier messages are; on the empty
    list it fails, and nothing is sent to the chat (with the chat opened,
    the failure is the [IndexError] of indexing the last element); on a
    non-empty list, once the chat is opened for the model, the one message
    sent is the content of the last message. *)
Theorem gemini_call_reads_last_content :
  (∀ c model kw w (ms1 ms2 : list message) (m1 m2 : message),
     last ms1 = Some m1 → last ms2 = Some m2 →
     m1 !! "content" = m2 !! "content" →
     GeminiChatCompletions.call c (Messages ms1) model kw w
     = GeminiChatCompletions.call c (Messages ms2) model kw w)
  ∧ (∀ c model kw w,
       ∃ w' e, GeminiChatCompletions.call c (Messages []) model kw w = (w', Raise e)
               ∧ (∀ chat text, chat_send_message chat text ∉ sent w →
                               chat_send_message chat text ∉ sent w')
               ∧ (∀ m chat, model = Some m → kw = [] →
                    remote w (sent w) (chats_create c m) = Ok chat →
                    e = IndexError "list index out of range"))
  ∧ (∀ c m w (ms : list message) (m_last : message) text chat,
       last ms = Some m_last → m_last !! "content" = Some text →
       remote w (sent w) (chats_create c m) = Ok chat →
       GeminiChatCompletions.call c (Messages ms) (Some m) [] w
       = send (chat_send_message chat text)
           (set_sent (sent w ++ [chats_create c m])%list w)).
Proof.
  split; [|split].
  - intros c model kw w ms1 ms2 m1 m2 H1 H2 Hc.
    rewrite !gemini_call_unfold, !last_content_spec, H1, H2.
    unfold dict_getitem. rewrite Hc. reflexivity.
  - intros c model kw w. rewrite gemini_call_unfold, last_content_spec. cbn [last].
    destruct (positional_only _ kw) eqn:Hp.
    2:{ eexists _, _. split; [reflexivity|]. split; [done|].
        intros m chat -> ->. discriminate Hp. }
    destruct (bind_param _ _ _ _) as [[m kw']|] eqn:Hb.
    2:{ eexists _, _. split; [reflexivity|]. split; [done|].
        intros m chat -> ->. discriminate Hb. }
    cbn zeta.
    assert (∀ chat text,
      chat_send_message chat text ∉ sent w →
      chat_send_message chat text
        ∉ sent (set_sent (sent w ++ [chats_create c m])%list w)) as Hsent.
    { intros chat text Hn. cbn. rewrite elem_of_app, list_elem_of_singleton.
      intros [?|?]; [done|discriminate]. }
    destruct (remote w (sent w) (chats_create c m)) eqn:Hr.
    + eexists _, _. split; [reflexivity|]. split; [exact Hsent|]. done.
    + eexists _, _. split; [reflexivity|]. split; [exact Hsent|].
      intros m' chat -> ->. cbn in Hb. injection Hb as <- <-.
      rewrite Hr. discriminate.
  - intros c m w ms m_last text chat Hlast Htext Hchat.
    rewrite gemini_call_unfold, last_content_spec, Hlast. cbn.
    rewrite Hchat. unfold dict_getitem. by rewrite Htext.
Qed.

Lemma gemini_call_reads_last_content_witness :
  let c := Client "google.genai.Client" "k" in
  let w := quiet_world ∅ (Ok (VStr "chat")) in
  let m1 := mk_message "user" "again" in
  let m2 := <[ "audio_file" := "a.mp3" ]> (mk_message "assistant" "again") in
  let ms1 := [mk_message "user" "first"; mk_message "assistant" "reply"; m1] in
  let ms2 := [m2] in
  last ms1 = Some m1 ∧ last ms2 = Some m2 ∧ m1 !! "content" = m2 !! "content"
  ∧ GeminiChatCompletions.call c (Messages ms1) (Some (VStr "gemini-pro")) [] w
    = GeminiChatCompletions.call c (Messages ms2) (Some (VStr "gemini-pro")) [] w.
Proof.
  intros c w m1 m2 ms1 ms2.
  assert (last ms1 = Some m1) as H1 by reflexivity.
  assert (last ms2 = Some m2) as H2 by reflexivity.
  assert (m1 !! "content" = m2 !! "content") as H3 by reflexivity.
  split; [exact H1|]. split; [exact H2|]. split; [exact H3|].
  exact (proj1 gemini_call_reads_last_content c (Some (VStr "gemini-pro")) [] w
           ms1 ms2 m1 m2 H1 H2 H3).
Defined.

(** ** The conversation store *)

Lemma load_add_message self user_id convo_id m w :
  load_messages self user_id convo_id (add_message self user_id convo_id m w).1
  = (load_messages self user_id convo_id w ++ [m])%list.
Proof. unfold add_message, load_messages. cbn. by rewrite lookup_insert_eq. Qed.

Lemma add_messages_ok self user_id convo_id ms w :
  (add_messages self user_id convo_id ms w).2 = Ok ().
Proof.
  revert w. induction ms as [|m ms IH]; intros w; [reflexivity|].
  cbn [add_messages]. unfold mbind, M_bind.
  destruct (add_message self user_id convo_id m w) as [w1 r] eqn:Ha.
  unfold add_message in Ha. injection Ha as <- <-. apply IH.
Qed.

Lemma add_messages_step self user_id convo_id m ms w :
  add_messages self user_id convo_id (m :: ms) w
  = add_messages self user_id convo_id ms (add_message self user_id convo_id m w).1.
Proof. reflexivity. Qed.

Lemma load_add_messages self user_id convo_id ms w :
  load_messages self user_id convo_id (add_messages self user_id convo_id ms w).1
  = (load_messages self user_id convo_id w ++ ms)%list.
Proof.
  revert w. induction ms as [|m ms IH]; intros w.
  - cbn. by rewrite app_nil_r.
  - rewrite add_messages_step, IH, load_add_message, <- app_assoc. reflexivity.
Qed.

(** C3: for every user identifier, conversation identifier and list of
    messages, appending the messages in order to a conversation succeeds
    and reloading the conversation yields the messages it held followed by
    the appended ones, in order; on a conversation with no message yet the
    reload is exactly the appended list, of the same length. *)
Theorem append_reload_round_trip self (user_id convo_id : string)
    (ms : list message) (w : world) :
  let w' := (add_messages self user_id convo_id ms w).1 in
  (add_messages self user_id convo_id ms w).2 = Ok ()
  ∧ load_messages self user_id convo_id w'
    = (load_messages self user_id convo_id w ++ ms)%list
  ∧ (load_messages self user_id convo_id w = [] →
     load_messages self user_id convo_id w' = ms
     ∧ length (load_messages self user_id convo_id w') = length ms).
Proof.
  intros w'. split; [apply add_messages_ok|].
  split; [apply load_add_messages|].
  intros Hnew. subst w'. rewrite load_add_messages, Hnew. done.
Qed.

Lemma append_reload_round_trip_witness :
  let self := plain_app build_default_registry in
  let w := quiet_world ∅ (Ok VNone) in
  let ms := [mk_message "user" "hi"; mk_message "assistant" "hello";
             mk_message "user" "bye"] in
  load_messages self "alice" "001" w = []
  ∧ load_messages self "alice" "001" (add_messages self "alice" "001" ms w).1 = ms.
Proof.
  intros self w ms.
  assert (load_messages self "alice" "001" w = []) as H by reflexivity.
  split; [exact H|].
  exact (proj1 (proj2 (proj2 (append_reload_round_trip self "alice" "001" ms w)) H)).
Defined.

(** ** From the response to the text *)

Lemma list_getitem_nonneg {A} (l : list A) (i : Z) (x : A) :
  0 ≤ i → l !! Z.to_nat i = Some x → list_getitem l i = Ok x.
Proof.
  intros Hi Hx. unfold list_getitem.
  pose proof (lookup_lt_Some _ _ _ Hx) as Hlt.
  replace (i <? 0) with false by (symmetry; apply Z.ltb_ge; lia).
  replace ((i <? 0) || (Z.of_nat (length l) <=? i)) with false.
  - by rewrite Hx.
  - symmetry. apply orb_false_iff. split; [apply Z.ltb_ge|apply Z.leb_gt]; lia.
Qed.

Lemma at_path_getpath (p : list subscript) (v x : value) :
  at_path p v = Some x → getpath p v = Ok x.
Proof.
  revert v. induction p as [|[k|i] p IH]; intros v H.
  - cbn in H. by injection H as ->.
  - cbn in H. destruct v; try discriminate.
    destruct (assoc k d) as [y|] eqn:Hy; [|discriminate]. cbn in H.
    cbn. rewrite Hy. cbn. by apply IH.
  - cbn in H. destruct v; try discriminate.
    destruct (0 <=? i) eqn:Hi; [|discriminate].
    destruct (l !! Z.to_nat i) as [y|] eqn:Hy; [|discriminate]. cbn in H.
    cbn. rewrite (list_getitem_nonneg l i y); [|by apply Z.leb_le|done].
    cbn. by apply IH.
Qed.

Lemma openai_extract_getpath r :
  OpenAIChatCompletions.extract r
  = getpath [Key "choices"; Idx 0; Key "message"; Key "content"] r.
Proof.
  unfold OpenAIChatCompletions.extract. cbn [getpath].
  destruct (getitem r (Key "choices")) as [a|]; [|reflexivity]. cbn.
  destruct (getitem a (Idx 0)) as [b|]; [|reflexivity]. cbn.
  destruct (getitem b (Key "message")) as [c|]; [|reflexivity]. cbn.
  by destruct (getitem c (Key "content")).
Qed.

Lemma gemini_extract_getpath r :
  GeminiChatCompletions.extract r
  = getpath [Key "candidates"; Idx 0; Key "content"; Key "parts"; Idx 0; Key "text"] r.
Proof.
  unfold GeminiChatCompletions.extract. cbn [getpath].
  destruct (getitem r (Key "candidates")) as [a|]; [|reflexivity]. cbn.
  destruct (getitem a (Idx 0)) as [b|]; [|reflexivity]. cbn.
  destruct (getitem b (Key "content")) as [c|]; [|reflexivity]. cbn.
  destruct (getitem c (Key "parts")) as [d|]; [|reflexivity]. cbn.
  destruct (getitem d (Idx 0)) as [f|]; [|reflexivity]. cbn.
  by destruct (getitem f (Key "text")).
Qed.

Lemma anthropic_extract_getpath r :
  AnthropicChatCompletions.extract r = getpath [Key "content"; Idx 0; Key "text"] r.
Proof.
  unfold AnthropicChatCompletions.extract. cbn [getpath].
  destruct (getitem r (Key "content")) as [a|]; [|reflexivity]. cbn.
  destruct (getitem a (Idx 0)) as [b|]; [|reflexivity]. cbn.
  by destruct (getitem b (Key "text")).
Qed.

Lemma send_answer w q r :
  remote w (sent w) q = Ok r → send q w = (set_sent (sent w ++ [q])%list w, Ok r).
Proof. intros H. unfold send. by rewrite H. Qed.

Lemma respond_openai history model w r s key :
  environ w !! "OPENAI_API_KEY" = Some key →
  Forall is_message history →
  answers_with w r →
  at_path [Key "choices"; Idx 0; Key "message"; Key "content"] r = Some (VStr s) →
  (respond (Object "OpenAIChatCompletions" OpenAIChatCompletions_methods)
     history model w).2 = Ok (VStr s).
Proof.
  intros Henv Hwf Hr Hs. unfold respond.
  erewrite bind_M_ok; [|reflexivity].
  erewrite bind_M_ok.
  2:{ cbn. rewrite openai_client_factory_eq, Henv.
      by rewrite (Hr (sent w) (new_client _ _)). }
  erewrite bind_M_ok; [|reflexivity].
  erewrite bind_M_ok.
  2:{ cbn. unfold OpenAIChatCompletions.format_messages.
      rewrite (comprehension_ok _ record_of); [reflexivity|].
      eapply Forall_impl; [exact Hwf|]. apply role_content_ok. }
  erewrite bind_M_ok; [|reflexivity].
  erewrite bind_M_ok.
  2:{ change (invoke_call (Fcall OpenAIChatCompletions.call) ?c ?x (Some model) [] w)
        with (send (chat_completions_create c model x []) w).
      apply send_answer, (Hr _ (chat_completions_create _ _ _ _)). }
  erewrite bind_M_ok; [|reflexivity].
  cbn. rewrite openai_extract_getpath. by apply at_path_getpath.
Qed.

Lemma anthropic_call_plain c x model w :
  AnthropicChatCompletions.call c x (Some model) [] w
  = send (messages_create c model x 1000 []) w.
Proof.
  unfold AnthropicChatCompletions.call, send. run_M.
  by destruct (remote w (sent w) _).
Qed.

Lemma respond_anthropic history model w r s key :
  environ w !! "ANTHROPIC_API_KEY" = Some key →
  Forall is_message history →
  answers_with w r →
  at_path [Key "content"; Idx 0; Key "text"] r = Some (VStr s) →
  (respond (Object "AnthropicChatCompletions" AnthropicChatCompletions_methods)
     history model w).2 = Ok (VStr s).
Proof.
  intros Henv Hwf Hr Hs. unfold respond.
  erewrite bind_M_ok; [|reflexivity].
  erewrite bind_M_ok.
  2:{ cbn. rewrite anthropic_client_factory_eq, Henv.
      by rewrite (Hr (sent w) (new_client _ _)). }
  erewrite bind_M_ok; [|reflexivity].
  erewrite bind_M_ok.
  2:{ cbn. unfold AnthropicChatCompletions.format_messages.
      rewrite (comprehension_ok _ record_of); [reflexivity|].
      eapply Forall_impl; [exact Hwf|]. apply role_content_ok. }
  erewrite bind_M_ok; [|reflexivity].
  erewrite bind_M_ok.
  2:{ cbn [invoke_call]. rewrite anthropic_call_plain.
      apply send_answer, (Hr _ (messages_create _ _ _ _ _)). }
  erewrite bind_M_ok; [|reflexivity].
  cbn. rewrite anthropic_extract_getpath. by apply at_path_getpath.
Qed.

Lemma respond_gemini history model w r s key :
  environ w !! "GEMINI_API_KEY" = Some key →
  history ≠ [] →
  Forall is_message history →
  answers_with w r →
  at_path [Key "candidates"; Idx 0; Key "content"; Key "parts"; Idx 0; Key "text"] r
    = Some (VStr s) →
  (respond (Object "GeminiChatCompletions" GeminiChatCompletions_methods)
     history model w).2 = Ok (VStr s).
Proof.
  intros Henv Hne Hwf Hr Hs. unfold respond.
  erewrite bind_M_ok; [|reflexivity].
  erewrite bind_M_ok.
  2:{ cbn. rewrite gemini_client_factory_eq, Henv.
      by rewrite (Hr (sent w) (new_client _ _)). }
  erewrite bind_M_ok; [|reflexivity].
  erewrite bind_M_ok; [|reflexivity].
  erewrite bind_M_ok; [|reflexivity].
  destruct (last history) as [m|] eqn:Hlast; [|by apply last_None in Hlast].
  assert (is_message m) as [_ [text Htext]].
  { apply last_Some_elem_of in Hlast. by apply (proj1 (Forall_forall _ _) Hwf). }
  destruct (Hr (sent w) (chats_create (Client "google.genai.Client" key) model))
    as [chat Hchat].
  erewrite bind_M_ok.
  2:{ cbn [invoke_call]. rewrite gemini_call_unfold, last_content_spec, Hlast.
      cbn. rewrite Hchat. unfold dict_getitem. rewrite Htext.
      apply send_answer, (Hr _ (chat_send_message _ _)). }
  erewrite bind_M_ok; [|reflexivity].
  cbn. rewrite gemini_extract_getpath. by apply at_path_getpath.
Qed.

(** C5, as stated, fails on the text-to-speech adapter the speech examples
    register under "openai:tts": with the client made, a well-formed
    history and the provider's streamed response, the four methods in
    sequence return the response object itself, not a string. *)
Lemma tts_adapter_returns_no_text :
  let self := SpeechGeneratorChat.init (plain_app DashAIChat.AI_REGISTRY) in
  let r := VObj "StreamedBinaryAPIResponse" [] in
  let w := quiet_world {[ "OPENAI_API_KEY" := "sk" ]} (Ok r) in
  let history := [mk_message "user" "read this aloud"] in
  ∃ e, AI_REGISTRY self !! KStr "openai:tts" = Some e
       ∧ Forall is_message history ∧ answers_with w r
       ∧ (respond e history (VStr "gpt-4o-mini-tts") w).2 = Ok r
       ∧ ¬ ∃ s, (respond e history (VStr "gpt-4o-mini-tts") w).2 = Ok (VStr s).
Proof.
  intros self r w history.
  exists (Object "OpenAITextToSpeech" OpenAITextToSpeech_methods).
  assert ((respond (Object "OpenAITextToSpeech" OpenAITextToSpeech_methods)
             history (VStr "gpt-4o-mini-tts") w).2 = Ok r) as Hr by reflexivity.
  split; [apply lookup_insert_eq|].
  split; [repeat constructor; eexists; reflexivity|].
  split; [intros tr [] ; try reflexivity; by eexists|].
  split; [exact Hr|].
  intros [s Hs]. rewrite Hr in Hs. discriminate Hs.
Qed.

(** C5 (amended): for every adapter of the registry returned by
    [build_default_registry], with the provider's API key in the
    environment, a non-empty history of well-formed messages and servers
    that answer with a response holding a string at the place the provider
    puts its text, calling [client_factory], [format_messages], [call] and
    [extract] in sequence returns that string; in particular
    [OpenAIChatCompletions.extract] returns what the response holds at
    [choices[0].message.content] and [AnthropicChatCompletions.extract]
    what it holds at [content[0].text]; the [extract] of the
    text-to-speech adapter returns the response unchanged. *)
Theorem default_adapters_return_text :
  (∀ k e history model w r s key,
     build_default_registry !! k = Some e →
     environ w !! key_variable k = Some key →
     history ≠ [] → Forall is_message history →
     answers_with w r →
     at_path (text_path k) r = Some (VStr s) →
     (respond e history model w).2 = Ok (VStr s))
  ∧ (∀ r v, at_path [Key "choices"; Idx 0; Key "message"; Key "content"] r = Some v →
            OpenAIChatCompletions.extract r = Ok v)
  ∧ (∀ r v, at_path [Key "content"; Idx 0; Key "text"] r = Some v →
            AnthropicChatCompletions.extract r = Ok v)
  ∧ (∀ r, OpenAITextToSpeech.extract r = Ok r).
Proof.
  split; [|split; [|split]].
  - intros k e history model w r s key Hk. revert history model w r s key.
    revert k e Hk.
    apply (default_registry_entries (λ k e, ∀ history model w r s key,
      environ w !! key_variable k = Some key →
      history ≠ [] → Forall is_message history →
      answers_with w r →
      at_path (text_path k) r = Some (VStr s) →
      (respond e history model w).2 = Ok (VStr s)));
      intros history model w r s key Henv Hne Hwf Hr Hs.
    + exact (respond_openai history model w r s key Henv Hwf Hr Hs).
    + exact (respond_gemini history model w r s key Henv Hne Hwf Hr Hs).
    + exact (respond_anthropic history model w r s key Henv Hwf Hr Hs).
  - intros r v Hv. rewrite openai_extract_getpath. by apply at_path_getpath.
  - intros r v Hv. rewrite anthropic_extract_getpath. by apply at_path_getpath.
  - reflexivity.
Qed.

Lemma default_adapters_return_text_witness :
  let k := KStr "gemini:chat.completions" in
  let e := Object "GeminiChatCompletions" GeminiChatCompletions_methods in
  let r := VDict [("candidates",
             VList [VDict [("content",
               VDict [("role", VStr "model");
                      ("parts", VList [VDict [("text", VStr "Bonjour")]])])]])] in
  let w := quiet_world {[ "GEMINI_API_KEY" := "g-key" ]} (Ok r) in
  let history := [mk_message "user" "Say hello in French"] in
  build_default_registry !! k = Some e
  ∧ environ w !! key_variable k = Some "g-key"
  ∧ history ≠ [] ∧ Forall is_message history ∧ answers_with w r
  ∧ at_path (text_path k) r = Some (VStr "Bonjour")
  ∧ (respond e history (VStr "gemini-2.0-flash") w).2 = Ok (VStr "Bonjour").
Proof.
  intros k e r w history.
  assert (build_default_registry !! k = Some e) as H1 by reflexivity.
  assert (environ w !! key_variable k = Some "g-key") as H2 by reflexivity.
  assert (history ≠ []) as H3 by discriminate.
  assert (Forall is_message history) as H4
    by (repeat constructor; eexists; reflexivity).
  assert (answers_with w r) as H5
    by (intros tr []; try reflexivity; by eexists).
  assert (at_path (text_path k) r = Some (VStr "Bonjour")) as H6 by reflexivity.
  repeat (split; [assumption|]).
  exact (proj1 default_adapters_return_text k e history (VStr "gemini-2.0-flash")
           w r "Bonjour" "g-key" H1 H2 H3 H4 H5 H6).
Defined.

(** ** A failing provider call in [update_convo] *)

Lemma try_except_raise {A} (body : M A) (handler : exn → M A) w w' e :
  body w = (w', Raise e) → try_except body handler w = handler e w'.
Proof. intros H. unfold try_except. by rewrite H. Qed.

Lemma load_messages_logs self user_id convo_id w w' :
  logs w' = logs w →
  load_messages self user_id convo_id w' = load_messages self user_id convo_id w.
Proof. intros H. unfold load_messages. by rewrite H. Qed.

Lemma tts_call_logs c x model kw w :
  logs (OpenAITextToSpeech.call c x model kw w).1 = logs w.
Proof.
  unfold OpenAITextToSpeech.call, send.
  unfold mbind, mret, M_bind, M_ret, lift.
  repeat case_match; simplify_eq; reflexivity.
Qed.

Lemma tts_client_factory_ok w key :
  environ w !! "OPENAI_API_KEY" = Some key →
  OpenAITextToSpeech.client_factory w = (w, Ok (Client "openai.OpenAI" key)).
Proof. intros H. unfold OpenAITextToSpeech.client_factory. by rewrite H. Qed.

(** The outcome of [update_convo] once [generate_speech] has raised. *)
Lemma update_convo_after_failure self user_id user_message cid
    (speak : M (list string)) (w0 w2 : world) e :
  let w1 := (add_message self user_id cid (user_message_of user_message) w0).1 in
  speak w1 = (w2, Raise e) →
  logs w2 = logs w1 →
  ∃ w',
    (_ ← add_message self user_id cid (user_message_of user_message);
     _ ← try_except
           (speech_file_path ← speak;
            add_message self user_id cid
              (<[ "audio_file" := str_path speech_file_path ]>
                 (mk_message "assistant" "")))
           (λ e, add_message self user_id cid (error_message_of e));
     mret cid) w0 = (w', Ok cid)
    ∧ load_messages self user_id cid w'
      = (load_messages self user_id cid w0
           ++ [user_message_of user_message; error_message_of e])%list.
Proof.
  intros w1 Hspeak Hlogs.
  exists (add_message self user_id cid (error_message_of e) w2).1.
  split.
  - erewrite bind_M_ok; [|reflexivity].
    erewrite bind_M_ok; [reflexivity|].
    erewrite try_except_raise; [reflexivity|].
    erewrite bind_M_raise; [reflexivity|exact Hspeak].
  - rewrite load_add_message, (load_messages_logs _ _ _ w1 w2 Hlogs).
    subst w1. rewrite load_add_message, <- app_assoc. reflexivity.
Qed.

Lemma generate_speech_call_raises self user_id convo_id text w1 w2 key e :
  AI_REGISTRY self !! KStr "openai:tts" = Some tts_adapter →
  environ w1 !! "OPENAI_API_KEY" = Some key →
  OpenAITextToSpeech.call (Client "openai.OpenAI" key) (Prompt text) None [] w1
    = (w2, Raise e) →
  SpeechGeneratorChat.generate_speech self user_id convo_id text w1 = (w2, Raise e).
Proof.
  intros Hreg Henv Hcall. unfold SpeechGeneratorChat.generate_speech.
  erewrite bind_M_ok; [|reflexivity].
  erewrite bind_M_raise; [reflexivity|].
  unfold dispatch, registry_getitem. rewrite Hreg.
  erewrite bind_M_ok; [|reflexivity].
  unfold run_provider.
  erewrite bind_M_ok; [|reflexivity].
  erewrite bind_M_ok; [|by apply tts_client_factory_ok].
  erewrite bind_M_ok; [|reflexivity].
  exact Hcall.
Qed.

Lemma advanced_generate_speech_call_raises self user_id convo_id text
    model voice speed response_format instructions kw w1 w2 key e :
  AI_REGISTRY self !! KStr "openai:tts" = Some tts_adapter →
  environ w1 !! "OPENAI_API_KEY" = Some key →
  AdvancedSpeechGeneratorChat.build_call_kwargs
    model voice speed response_format instructions = Ok kw →
  OpenAITextToSpeech.call (Client "openai.OpenAI" key) (Prompt text) None kw w1
    = (w2, Raise e) →
  AdvancedSpeechGeneratorChat.generate_speech self user_id convo_id text
    model voice speed response_format instructions w1 = (w2, Raise e).
Proof.
  intros Hreg Henv Hkw Hcall. unfold AdvancedSpeechGeneratorChat.generate_speech.
  erewrite bind_M_ok; [|reflexivity].
  erewrite bind_M_ok; [|reflexivity].
  unfold registry_getitem. rewrite Hreg.
  erewrite bind_M_ok; [|reflexivity].
  erewrite bind_M_ok; [|reflexivity].
  erewrite bind_M_ok; [|by apply tts_client_factory_ok].
  rewrite Hkw.
  erewrite bind_M_ok; [|reflexivity].
  erewrite bind_M_ok; [|reflexivity].
  erewrite bind_M_raise; [reflexivity|exact Hcall].
Qed.

(** C7: when the provider call inside [update_convo] raises an exception,
    in the speech application and in the advanced one, the exception is
    caught there: [update_convo] still returns the conversation identifier,
    and the conversation then holds what it held, the user message appended
    before the call, and one assistant-role message whose content is the
    failure notice followed by the text of the exception. *)
Theorem update_convo_provider_error :
  (∀ self user_id user_message convo_id spec model w w0 cid key w2 e,
     AI_REGISTRY self !! KStr "openai:tts" = Some tts_adapter →
     convo_or_next self convo_id user_id w = (w0, Ok cid) →
     environ w0 !! "OPENAI_API_KEY" = Some key →
     OpenAITextToSpeech.call (Client "openai.OpenAI" key) (Prompt user_message) None []
       (add_message self user_id cid (user_message_of user_message) w0).1
       = (w2, Raise e) →
     ∃ w',
       SpeechGeneratorChat.update_convo self user_id user_message convo_id spec model w
         = (w', Ok cid)
       ∧ load_messages self user_id cid w'
         = (load_messages self user_id cid w0
              ++ [user_message_of user_message;
                  mk_message "assistant"
                    ("❌ Failed to generate speech: " ++ str_exn e)])%list)
  ∧ (∀ self user_id user_message convo_id spec model w w0 cid key kw w2 e,
       AI_REGISTRY self !! KStr "openai:tts" = Some tts_adapter →
       convo_or_next self convo_id user_id w = (w0, Ok cid) →
       environ w0 !! "OPENAI_API_KEY" = Some key →
       (let settings := default ∅ (_current_tts_settings self) in
        AdvancedSpeechGeneratorChat.build_call_kwargs
          (AdvancedSpeechGeneratorChat.get settings "model" (VStr "gpt-4o-mini-tts"))
          (AdvancedSpeechGeneratorChat.get settings "voice" (VStr "alloy"))
          (AdvancedSpeechGeneratorChat.get settings "speed" (VFloat 10 (-1)))
          (AdvancedSpeechGeneratorChat.get settings "response_format" (VStr "mp3"))
          (AdvancedSpeechGeneratorChat.get settings "instructions" VNone) = Ok kw) →
       OpenAITextToSpeech.call (Client "openai.OpenAI" key) (Prompt user_message) None kw
         (add_message self user_id cid (user_message_of user_message) w0).1
         = (w2, Raise e) →
       ∃ w',
         AdvancedSpeechGeneratorChat.update_convo self user_id user_message
           convo_id spec model w = (w', Ok cid)
         ∧ load_messages self user_id cid w'
           = (load_messages self user_id cid w0
                ++ [user_message_of user_message;
                    mk_message "assistant"
                      ("❌ Failed to generate speech: " ++ str_exn e)])%list).
Proof.
  split.
  - intros self user_id user_message convo_id spec model w w0 cid key w2 e
      Hreg Hcid Henv Hcall.
    destruct (update_convo_after_failure self user_id user_message cid
      (SpeechGeneratorChat.generate_speech self user_id cid user_message) w0 w2 e)
      as (w' & Hrun & Hload).
    + by apply (generate_speech_call_raises _ _ _ _ _ _ key).
    + pose proof (tts_call_logs (Client "openai.OpenAI" key) (Prompt user_message)
                    None []
                    (add_message self user_id cid (user_message_of user_message) w0).1)
        as Hlogs.
      rewrite Hcall in Hlogs. exact Hlogs.
    + exists w'. split; [|exact Hload].
      unfold SpeechGeneratorChat.update_convo. cbn zeta.
      erewrite bind_M_ok; [|exact Hcid]. exact Hrun.
  - intros self user_id user_message convo_id spec model w w0 cid key kw w2 e
      Hreg Hcid Henv Hkw Hcall.
    destruct (update_convo_after_failure self user_id user_message cid
      (let settings := default ∅ (_current_tts_settings self) in
       AdvancedSpeechGeneratorChat.generate_speech self user_id cid user_message
         (AdvancedSpeechGeneratorChat.get settings "model" (VStr "gpt-4o-mini-tts"))
         (AdvancedSpeechGeneratorChat.get settings "voice" (VStr "alloy"))
         (AdvancedSpeechGeneratorChat.get settings "speed" (VFloat 10 (-1)))
         (AdvancedSpeechGeneratorChat.get settings "response_format" (VStr "mp3"))
         (AdvancedSpeechGeneratorChat.get settings "instructions" VNone)) w0 w2 e)
      as (w' & Hrun & Hload).
    + by apply (advanced_generate_speech_call_raises _ _ _ _ _ _ _ _ _ kw _ _ key).
    + pose proof (tts_call_logs (Client "openai.OpenAI" key) (Prompt user_message)
                    None kw
                    (add_message self user_id cid (user_message_of user_message) w0).1)
        as Hlogs.
      rewrite Hcall in Hlogs. exact Hlogs.
    + exists w'. split; [|exact Hload].
      unfold AdvancedSpeechGeneratorChat.update_convo. cbn zeta.
      erewrite bind_M_ok; [|exact Hcid]. exact Hrun.
Qed.

Lemma update_convo_provider_error_witness :
  let self := SpeechGeneratorChat.init (plain_app DashAIChat.AI_REGISTRY) in
  let e := Raised "APIConnectionError" "Connection error." in
  let w := quiet_world {[ "OPENAI_API_KEY" := "sk-test" ]} (Raise e) in
  let c := Client "openai.OpenAI" "sk-test" in
  let w1 := (add_message self "alice" "001" (user_message_of "hello") w).1 in
  let w2 := (OpenAITextToSpeech.call c (Prompt "hello") None [] w1).1 in
  AI_REGISTRY self !! KStr "openai:tts" = Some tts_adapter
  ∧ convo_or_next self (Some "001") "alice" w = (w, Ok "001")
  ∧ environ w !! "OPENAI_API_KEY" = Some "sk-test"
  ∧ OpenAITextToSpeech.call c (Prompt "hello") None [] w1 = (w2, Raise e)
  ∧ ∃ w',
      SpeechGeneratorChat.update_convo self "alice" "hello" (Some "001") None None w
        = (w', Ok "001")
      ∧ load_messages self "alice" "001" w'
        = [ mk_message "user" "hello";
            mk_message "assistant" "❌ Failed to generate speech: Connection error." ].
Proof.
  intros self e w c w1 w2.
  assert (AI_REGISTRY self !! KStr "openai:tts" = Some tts_adapter) as H1
    by reflexivity.
  assert (convo_or_next self (Some "001") "alice" w = (w, Ok "001")) as H2
    by reflexivity.
  assert (environ w !! "OPENAI_API_KEY" = Some "sk-test") as H3 by reflexivity.
  assert (OpenAITextToSpeech.call c (Prompt "hello") None [] w1 = (w2, Raise e)) as H4
    by reflexivity.
  repeat (split; [assumption|]).
  exact (proj1 update_convo_provider_error self "alice" "hello" (Some "001") None None
           w w "001" "sk-test" w2 e H1 H2 H3 H4).
Defined.

(** * Further properties *)

Set Warnings "-clear-no-such-hyp".

(** ** Reading a response *)

Lemma list_getitem_nonneg_inv {A} (l : list A) (i : Z) (x : A) :
  0 ≤ i → list_getitem l i = Ok x → l !! Z.to_nat i = Some x.
Proof.
  intros Hi. unfold list_getitem.
  replace (i <? 0) with false by (symmetry; apply Z.ltb_ge; lia).
  destruct ((i <? 0) || (Z.of_nat (length l) <=? i)); [discriminate|].
  destruct (l !! Z.to_nat i); [|discriminate]. by intros [= ->].
Qed.

Lemma at_path_scalar (p : list subscript) (s : string) (x : value) :
  p ≠ [] → at_path p (VStr s) ≠ Some x.
Proof. by destruct p as [|[k|i] p]. Qed.

Lemma getpath_at_path (p : list subscript) (v x : value) :
  key_terminated p = true → getpath p v = Ok x → at_path p v = Some x.
Proof.
  revert v. induction p as [|[k|i] p IH]; intros v Hp H; [discriminate| |].
  - cbn [getpath] in H. destruct v; try discriminate H. cbn [getitem] in H.
    cbn [at_path].
    destruct (assoc k d) as [y|]; [|discriminate H]. cbn in H |- *.
    destruct p as [|a p]; [by injection H as ->|].
    apply IH; [exact Hp|exact H].
  - cbn [key_terminated] in Hp. apply andb_true_iff in Hp as [Hi Hp].
    apply Z.leb_le in Hi.
    cbn [getpath] in H. destruct v; try discriminate H; cbn [getitem] in H.
    + destruct (list_getitem (characters s) i) as [c|]; [|discriminate H].
      cbn in H. apply IH in H; [|exact Hp].
      exfalso. revert H. apply at_path_scalar. by destruct p.
    + destruct (list_getitem l i) as [y|] eqn:Hy; [|discriminate H].
      apply list_getitem_nonneg_inv in Hy; [|exact Hi].
      cbn [at_path]. replace (0 <=? i) with true by (symmetry; by apply Z.leb_le).
      rewrite Hy. cbn in H |- *. by apply IH.
Qed.

(** X1: the [extract] of the three chat adapters and of the two entries of
    the registry of [DashAIChat.__init__] succeeds exactly when the response
    is made of dictionaries and lists along the adapter's path, and then
    returns the value at the end of the path; any other response raises. *)
Theorem extract_reads_exactly_its_path (r v : value) :
  (OpenAIChatCompletions.extract r = Ok v
   ↔ at_path [Key "choices"; Idx 0; Key "message"; Key "content"] r = Some v)
  ∧ (GeminiChatCompletions.extract r = Ok v
     ↔ at_path [Key "candidates"; Idx 0; Key "content"; Key "parts"; Idx 0; Key "text"] r
       = Some v)
  ∧ (AnthropicChatCompletions.extract r = Ok v
     ↔ at_path [Key "content"; Idx 0; Key "text"] r = Some v)
  ∧ (DashAIChat.chat_completions_extract r = Ok v
     ↔ at_path [Key "choices"; Idx 0; Key "message"; Key "content"] r = Some v)
  ∧ (DashAIChat.completions_extract r = Ok v
     ↔ at_path [Key "choices"; Idx 0; Key "text"] r = Some v).
Proof.
  assert (∀ r, DashAIChat.completions_extract r
               = getpath [Key "choices"; Idx 0; Key "text"] r) as Hlegacy.
  { intros r'. unfold DashAIChat.completions_extract. cbn [getpath].
    destruct (getitem r' (Key "choices")) as [a|]; [|reflexivity]. cbn.
    destruct (getitem a (Idx 0)) as [b|]; [|reflexivity]. cbn.
    by destruct (getitem b (Key "text")). }
  repeat split.
  - rewrite openai_extract_getpath. by apply getpath_at_path.
  - rewrite openai_extract_getpath. apply at_path_getpath.
  - rewrite gemini_extract_getpath. by apply getpath_at_path.
  - rewrite gemini_extract_getpath. apply at_path_getpath.
  - rewrite anthropic_extract_getpath. by apply getpath_at_path.
  - rewrite anthropic_extract_getpath. apply at_path_getpath.
  - change (DashAIChat.chat_completions_extract r)
      with (OpenAIChatCompletions.extract r).
    rewrite openai_extract_getpath. by apply getpath_at_path.
  - change (DashAIChat.chat_completions_extract r)
      with (OpenAIChatCompletions.extract r).
    rewrite openai_extract_getpath. apply at_path_getpath.
  - rewrite Hlegacy. by apply getpath_at_path.
  - rewrite Hlegacy. apply at_path_getpath.
Qed.

(** X2: [OpenAIResponses.extract] reads attributes, not keys: it succeeds
    exactly on an object whose [choices] attribute is a list that starts
    with an object having a [text] attribute, and returns that attribute;
    so it raises on every response [OpenAIChatCompletions.extract] accepts,
    and the other way round. *)
Theorem responses_extract_reads_attributes (r v : value) :
  (OpenAIResponses.extract r = Ok v
   ↔ ∃ cls attrs l cls' attrs',
       r = VObj cls attrs ∧ assoc "choices" attrs = Some (VList l)
       ∧ l !! 0%nat = Some (VObj cls' attrs') ∧ assoc "text" attrs' = Some v)
  ∧ ¬ (∃ v1 v2, OpenAIResponses.extract r = Ok v1
                ∧ OpenAIChatCompletions.extract r = Ok v2).
Proof.
  assert (OpenAIResponses.extract r = Ok v
   ↔ ∃ cls attrs l cls' attrs',
       r = VObj cls attrs ∧ assoc "choices" attrs = Some (VList l)
       ∧ l !! 0%nat = Some (VObj cls' attrs') ∧ assoc "text" attrs' = Some v) as Hiff.
  { unfold OpenAIResponses.extract. split.
    - intros H. destruct r; try discriminate H. cbn in H.
      destruct (assoc "choices" attrs) as [ch|] eqn:Hch; [|discriminate H].
      cbn in H. destruct ch; try discriminate H.
      + cbn in H. destruct (list_getitem (characters s) 0); discriminate H.
      + cbn [getitem] in H.
        destruct (list_getitem l 0) as [c|] eqn:Hc; [|discriminate H]. cbn in H.
        apply list_getitem_nonneg_inv in Hc; [|done].
        destruct c; try discriminate H. cbn in H.
        destruct (assoc "text" attrs0) as [t|] eqn:Ht; [|discriminate H].
        injection H as ->. by eexists _, _, _, _, _.
    - intros (cls & attrs & l & cls' & attrs' & -> & Hch & Hl & Ht).
      cbn. rewrite Hch. cbn. rewrite (list_getitem_nonneg l 0 _ ltac:(done) Hl).
      cbn. by rewrite Ht. }
  split; [exact Hiff|].
  intros (v1 & v2 & H1 & H2).
  destruct r; try discriminate H1. discriminate H2.
Qed.

(** ** Formatting a history *)

Lemma comprehension_app_raise {A B} (f : A → result B) (g : A → B)
    (good rest : list A) (x : A) (e : exn) :
  Forall (λ a, f a = Ok (g a)) good → f x = Raise e →
  comprehension f (good ++ x :: rest) = Raise e.
Proof.
  intros Hgood Hx. induction Hgood as [|a l Ha _ IH]; cbn.
  - by rewrite Hx.
  - rewrite Ha. cbn. by rewrite IH.
Qed.

Lemma role_content_raise (m : message) :
  ¬ is_message m → role_content m = Raise (KeyError (first_missing_field m)).
Proof.
  intros Hm. unfold role_content, first_missing_field, dict_getitem.
  destruct (decide (is_Some (m !! "role"))) as [[r Hr]|Hr].
  - rewrite Hr. cbn. destruct (m !! "content") as [c|] eqn:Hc; [|reflexivity].
    destruct Hm. split; by eexists.
  - destruct (m !! "role") as [r|]; [|reflexivity]. destruct Hr. by eexists.
Qed.

Lemma line_raise (m : message) :
  ¬ is_message m → OpenAIResponses.line m = Raise (KeyError (first_missing_field m)).
Proof.
  intros Hm. unfold OpenAIResponses.line, first_missing_field, dict_getitem.
  destruct (decide (is_Some (m !! "role"))) as [[r Hr]|Hr].
  - rewrite Hr. cbn. destruct (m !! "content") as [c|] eqn:Hc; [|reflexivity].
    destruct Hm. split; by eexists.
  - destruct (m !! "role") as [r|]; [|reflexivity]. destruct Hr. by eexists.
Qed.

(** X3: when a history holds a message without a role or without a
    content, the [format_messages] of [OpenAIChatCompletions], of
    [AnthropicChatCompletions] and of [OpenAIResponses] return nothing of
    the well-formed messages: they raise the [KeyError] of the first
    malformed message, for "role" when the role is missing and else for
    "content"; the messages after it are not looked at. *)
Theorem format_messages_first_malformed (good rest : list message) (m : message) :
  Forall is_message good → ¬ is_message m →
  OpenAIChatCompletions.format_messages (good ++ m :: rest)
    = Raise (KeyError (first_missing_field m))
  ∧ AnthropicChatCompletions.format_messages (good ++ m :: rest)
    = Raise (KeyError (first_missing_field m))
  ∧ OpenAIResponses.format_messages (good ++ m :: rest)
    = Raise (KeyError (first_missing_field m)).
Proof.
  intros Hgood Hm.
  assert (comprehension role_content (good ++ m :: rest)
          = Raise (KeyError (first_missing_field m))) as Hrc.
  { apply (comprehension_app_raise _ record_of); [|by apply role_content_raise].
    eapply Forall_impl; [exact Hgood|]. apply role_content_ok. }
  assert (comprehension OpenAIResponses.line (good ++ m :: rest)
          = Raise (KeyError (first_missing_field m))) as Hl.
  { apply (comprehension_app_raise _ line_of); [|by apply line_raise].
    eapply Forall_impl; [exact Hgood|]. apply line_ok. }
  repeat split.
  - unfold OpenAIChatCompletions.format_messages. by rewrite Hrc.
  - unfold AnthropicChatCompletions.format_messages. by rewrite Hrc.
  - unfold OpenAIResponses.format_messages. by rewrite Hl.
Qed.

Lemma format_messages_first_malformed_witness :
  let good := [mk_message "user" "hi"] in
  let m : message := {[ "role" := "assistant" ]} in
  let rest : list message := [∅] in
  Forall is_message good ∧ ¬ is_message m
  ∧ OpenAIChatCompletions.format_messages (good ++ m :: rest)
    = Raise (KeyError "content").
Proof.
  intros good m rest.
  assert (Forall is_message good) as H1
    by (repeat constructor; eexists; reflexivity).
  assert (¬ is_message m) as H2 by (intros [_ [c Hc]]; discriminate Hc).
  split; [exact H1|]. split; [exact H2|].
  exact (proj1 (format_messages_first_malformed good rest m H1 H2)).
Defined.

Lemma comprehension_inv {A B} (f : A → result B) (l : list A) (l' : list B) :
  comprehension f l = Ok l' → Forall2 (λ x y, f x = Ok y) l l'.
Proof.
  revert l'. induction l as [|x l IH]; intros l' H; cbn in H.
  - injection H as <-. constructor.
  - destruct (f x) as [y|] eqn:Hy; [|discriminate H]. cbn in H.
    destruct (comprehension f l) as [ys|]; [|discriminate H]. cbn in H.
    injection H as <-. constructor; [exact Hy|by apply IH].
Qed.

Lemma role_content_inv (m r : message) :
  role_content m = Ok r → is_message m ∧ r = record_of m.
Proof.
  unfold role_content, record_of, field, dict_getitem.
  destruct (m !! "role") as [ro|] eqn:Hr; [|discriminate]. cbn.
  destruct (m !! "content") as [co|] eqn:Hc; [|discriminate]. cbn.
  intros [= <-]. split; [split; by eexists|reflexivity].
Qed.

Lemma record_of_is_message (m : message) : is_message (record_of m).
Proof.
  unfold record_of, mk_message. split; eexists.
  - apply lookup_insert_eq.
  - rewrite lookup_insert_ne by done. apply lookup_singleton_eq.
Qed.

Lemma record_of_idempotent (m : message) : record_of (record_of m) = record_of m.
Proof.
  unfold record_of at 1. unfold field.
  destruct (record_of_is_message m) as [[r Hr] [c Hc]].
  assert (record_of m !! "role" = Some (field m "role")) as ->
    by (unfold record_of, mk_message; apply lookup_insert_eq).
  assert (record_of m !! "content" = Some (field m "content")) as ->.
  { unfold record_of, mk_message. rewrite lookup_insert_ne by done.
    apply lookup_singleton_eq. }
  reflexivity.
Qed.

(** X4: what the [format_messages] of a chat adapter returns is a fixed
    point of it: whenever [OpenAIChatCompletions.format_messages] succeeds
    on a history, formatting its result again, by it or by
    [AnthropicChatCompletions.format_messages], succeeds and returns the
    same records. *)
Theorem format_messages_idempotent (history : list message) (p : payload) :
  OpenAIChatCompletions.format_messages history = Ok p →
  ∃ records, p = Messages records
    ∧ OpenAIChatCompletions.format_messages records = Ok (Messages records)
    ∧ AnthropicChatCompletions.format_messages records = Ok (Messages records)
    ∧ AnthropicChatCompletions.format_messages history = Ok (Messages records).
Proof.
  unfold OpenAIChatCompletions.format_messages, AnthropicChatCompletions.format_messages.
  destruct (comprehension role_content history) as [records|] eqn:Hc; [|discriminate].
  cbn. intros [= <-]. exists records. split; [reflexivity|].
  apply comprehension_inv in Hc.
  assert (comprehension role_content records = Ok records) as Hfix.
  { rewrite (comprehension_ok _ id); [by rewrite list_fmap_id|].
    induction Hc as [|m r l l' Hm _ IH]; constructor; [|exact IH].
    apply role_content_inv in Hm as [_ ->].
    rewrite role_content_ok by apply record_of_is_message.
    by rewrite record_of_idempotent. }
  rewrite Hfix. done.
Qed.

Lemma format_messages_idempotent_witness :
  let history :=
    [ <[ "audio_file" := "a.mp3" ]> (mk_message "assistant" "ok") ] in
  OpenAIChatCompletions.format_messages history
    = Ok (Messages [mk_message "assistant" "ok"])
  ∧ ∃ records, Messages [mk_message "assistant" "ok"] = Messages records
      ∧ OpenAIChatCompletions.format_messages records = Ok (Messages records)
      ∧ AnthropicChatCompletions.format_messages records = Ok (Messages records)
      ∧ AnthropicChatCompletions.format_messages history = Ok (Messages records).
Proof.
  intros history.
  assert (OpenAIChatCompletions.format_messages history
    = Ok (Messages [mk_message "assistant" "ok"])) as H by reflexivity.
  split; [exact H|].
  exact (format_messages_idempotent history _ H).
Defined.

Lemma string_app_assoc (a b c : string) : (a ++ b) ++ c = a ++ (b ++ c).
Proof.
  induction a as [|x a IH]; [reflexivity|].
  change (String x ((a ++ b) ++ c) = String x (a ++ b ++ c)). by f_equal.
Qed.

Lemma join_app (sep : string) (l1 l2 : list string) :
  l1 ≠ [] → l2 ≠ [] →
  join sep (l1 ++ l2)%list = join sep l1 ++ sep ++ join sep l2.
Proof.
  intros H1 H2. induction l1 as [|x l1 IH]; [done|].
  destruct l1 as [|y l1].
  - destruct l2 as [|z l2]; [done|]. reflexivity.
  - change (join sep ((x :: y :: l1) ++ l2)%list)
      with (x ++ sep ++ join sep ((y :: l1) ++ l2)%list).
    rewrite IH by done.
    change (join sep (x :: y :: l1)) with (x ++ sep ++ join sep (y :: l1)).
    by rewrite !string_app_assoc.
Qed.

Lemma comprehension_app_ok {A B} (f : A → result B) (l1 l2 : list A) (r1 r2 : list B) :
  comprehension f l1 = Ok r1 → comprehension f l2 = Ok r2 →
  comprehension f (l1 ++ l2) = Ok (r1 ++ r2)%list.
Proof.
  revert r1. induction l1 as [|x l1 IH]; intros r1 H1 H2; cbn in H1 |- *.
  - by injection H1 as <-.
  - destruct (f x) as [y|]; [|discriminate H1]. cbn in H1 |- *.
    destruct (comprehension f l1) as [ys|]; [|discriminate H1]. cbn in H1.
    injection H1 as <-. by rewrite (IH ys eq_refl H2).
Qed.

Lemma comprehension_length {A B} (f : A → result B) (l : list A) (r : list B) :
  comprehension f l = Ok r → length r = length l.
Proof.
  intros H. apply comprehension_inv in H. symmetry. by eapply Forall2_length.
Qed.

(** X5: the prompt [OpenAIResponses.format_messages] makes of two histories
    put end to end is the prompt of the first, a newline, and the prompt of
    the second, when both histories are non-empty and format; the prompt of
    the empty history is the empty string. *)
Theorem responses_prompt_of_concatenation (h1 h2 : list message) (p1 p2 : string) :
  OpenAIResponses.format_messages h1 = Ok (Prompt p1) →
  OpenAIResponses.format_messages h2 = Ok (Prompt p2) →
  h1 ≠ [] → h2 ≠ [] →
  OpenAIResponses.format_messages (h1 ++ h2)
    = Ok (Prompt (p1 ++ newline ++ p2))
  ∧ OpenAIResponses.format_messages [] = Ok (Prompt "").
Proof.
  unfold OpenAIResponses.format_messages. intros H1 H2 Hn1 Hn2.
  destruct (comprehension OpenAIResponses.line h1) as [l1|] eqn:Hl1; [|discriminate H1].
  destruct (comprehension OpenAIResponses.line h2) as [l2|] eqn:Hl2; [|discriminate H2].
  cbn in H1, H2. injection H1 as <-. injection H2 as <-.
  split; [|reflexivity].
  rewrite (comprehension_app_ok _ _ _ _ _ Hl1 Hl2). cbn.
  rewrite join_app; [reflexivity| |].
  - apply comprehension_length in Hl1. destruct l1; [|done]. by destruct h1.
  - apply comprehension_length in Hl2. destruct l2; [|done]. by destruct h2.
Qed.

Lemma responses_prompt_of_concatenation_witness :
  let h1 := [mk_message "system" "Be brief."; mk_message "user" "hi"] in
  let h2 := [mk_message "assistant" "hello"] in
  OpenAIResponses.format_messages h1
    = Ok (Prompt ("system: Be brief." ++ newline ++ "user: hi"))
  ∧ OpenAIResponses.format_messages h2 = Ok (Prompt "assistant: hello")
  ∧ h1 ≠ [] ∧ h2 ≠ []
  ∧ OpenAIResponses.format_messages (h1 ++ h2)
    = Ok (Prompt (("system: Be brief." ++ newline ++ "user: hi")
                    ++ newline ++ "assistant: hello")).
Proof.
  intros h1 h2.
  assert (OpenAIResponses.format_messages h1
    = Ok (Prompt ("system: Be brief." ++ newline ++ "user: hi"))) as H1
    by reflexivity.
  assert (OpenAIResponses.format_messages h2 = Ok (Prompt "assistant: hello")) as H2
    by reflexivity.
  assert (h1 ≠ []) as H3 by discriminate.
  assert (h2 ≠ []) as H4 by discriminate.
  repeat (split; [assumption|]).
  exact (proj1 (responses_prompt_of_concatenation h1 h2 _ _ H1 H2 H3 H4)).
Defined.

(** ** Binding the arguments of a call *)

Lemma without_absent (n : string) (kw : kwargs) :
  assoc n kw = None → without n kw = kw.
Proof.
  induction kw as [|[k v] kw IH]; [reflexivity|]. cbn [assoc].
  destruct (String.eqb_spec n k) as [->|Hne]; [discriminate|]. intros H.
  unfold without in *. rewrite filter_cons_True by (cbn; congruence).
  by rewrite IH.
Qed.

Lemma assoc_without_ne (n n' : string) (kw : kwargs) :
  n ≠ n' → assoc n (without n' kw) = assoc n kw.
Proof.
  intros Hne. induction kw as [|[k v] kw IH]; [reflexivity|].
  unfold without in *. destruct (decide (k = n')) as [->|Hk].
  - rewrite filter_cons_False by (cbn; tauto). rewrite IH. cbn [assoc].
    by destruct (String.eqb_spec n n').
  - rewrite filter_cons_True by (cbn; congruence). cbn [assoc]. by rewrite IH.
Qed.

Lemma assoc_without_eq (n : string) (kw : kwargs) : assoc n (without n kw) = None.
Proof.
  induction kw as [|[k v] kw IH]; [reflexivity|].
  unfold without in *. destruct (decide (k = n)) as [->|Hk].
  - by rewrite filter_cons_False by (cbn; tauto).
  - rewrite filter_cons_True by (cbn; congruence). cbn [assoc].
    destruct (String.eqb_spec n k) as [->|_]; [done|exact IH].
Qed.

(** Steps of a computation. *)
Ltac step_M :=
  unfold mbind, mret, M_bind, M_ret, lift; cbn beta iota zeta.

Lemma positional_only_ok (names : list string) (kw : kwargs) :
  Forall (λ n, assoc n kw = None) names → positional_only names kw = Ok ().
Proof.
  induction 1 as [|n names Hn _ IH]; [reflexivity|]. cbn [positional_only].
  by rewrite Hn.
Qed.

Lemma positional_only_raise (names : list string) (kw : kwargs) (n : string) :
  n ∈ names → is_Some (assoc n kw) →
  ∃ msg, positional_only names kw = Raise (TypeError msg).
Proof.
  intros Hin Hn. induction names as [|a names IH]; [by apply elem_of_nil in Hin|].
  cbn [positional_only]. destruct (assoc a kw) eqn:Ha; [by eexists|].
  apply IH. apply elem_of_cons in Hin as [->|Hin]; [|exact Hin].
  rewrite Ha in Hn. by destruct Hn.
Qed.

Lemma positional_only_type_error (names : list string) (kw : kwargs) (e : exn) :
  positional_only names kw = Raise e → ∃ msg, e = TypeError msg.
Proof.
  induction names as [|a names IH]; [discriminate|]. cbn [positional_only].
  destruct (assoc a kw); [|exact IH]. intros [= <-]. by eexists.
Qed.

Lemma spread_ok (explicit : list string) (kw : kwargs) :
  Forall (λ n, assoc n kw = None) explicit → spread explicit kw = Ok kw.
Proof.
  induction 1 as [|n names Hn _ IH]; [reflexivity|]. cbn [spread].
  by rewrite Hn.
Qed.

Lemma spread_raise (explicit : list string) (kw : kwargs) (n : string) :
  n ∈ explicit → is_Some (assoc n kw) →
  ∃ msg, spread explicit kw = Raise (TypeError msg).
Proof.
  intros Hin Hn. induction explicit as [|a names IH]; [by apply elem_of_nil in Hin|].
  cbn [spread]. destruct (assoc a kw) eqn:Ha; [by eexists|].
  apply IH. apply elem_of_cons in Hin as [->|Hin]; [|exact Hin].
  rewrite Ha in Hn. by destruct Hn.
Qed.

Lemma spread_type_error (explicit : list string) (kw : kwargs) (e : exn) :
  spread explicit kw = Raise e → ∃ msg, e = TypeError msg.
Proof.
  induction explicit as [|a names IH]; [discriminate|]. cbn [spread].
  destruct (assoc a kw); [|exact IH]. intros [= <-]. by eexists.
Qed.

Lemma spread_keeps (explicit : list string) (kw kw' : kwargs) :
  spread explicit kw = Ok kw' → kw' = kw.
Proof.
  induction explicit as [|a names IH]; [by intros [= <-]|]. cbn [spread].
  destruct (assoc a kw); [discriminate|exact IH].
Qed.

Lemma method_keywords_ok (explicit : list string) (kw : kwargs) :
  assoc "self" kw = None → Forall (λ n, assoc n kw = None) explicit →
  method_keywords explicit kw = Ok kw.
Proof.
  intros Hself Hall. unfold method_keywords. rewrite spread_ok by exact Hall.
  cbn. by rewrite Hself.
Qed.

Lemma method_keywords_raise (explicit : list string) (kw : kwargs) (n : string) :
  n ∈ "self" :: explicit → is_Some (assoc n kw) →
  ∃ msg, method_keywords explicit kw = Raise (TypeError msg).
Proof.
  intros Hin Hn. unfold method_keywords.
  destruct (spread explicit kw) as [kw'|e] eqn:Hs.
  - pose proof (spread_keeps _ _ _ Hs) as ->. cbn.
    apply elem_of_cons in Hin as [->|Hin].
    + destruct Hn as [v ->]. by eexists.
    + destruct (spread_raise explicit kw n Hin Hn) as [msg Hmsg].
      rewrite Hmsg in Hs. discriminate Hs.
  - destruct (spread_type_error _ _ _ Hs) as [msg ->]. by eexists.
Qed.

Lemma method_keywords_type_error (explicit : list string) (kw : kwargs) (e : exn) :
  method_keywords explicit kw = Raise e → ∃ msg, e = TypeError msg.
Proof.
  unfold method_keywords. destruct (spread explicit kw) as [kw'|e'] eqn:Hs.
  - cbn. destruct (assoc "self" kw'); [|discriminate]. intros [= <-]. by eexists.
  - cbn. intros [= <-]. by apply spread_type_error in Hs.
Qed.

Lemma bind_param_type_error name b d (kw : kwargs) (e : exn) :
  bind_param name b d kw = Raise e → ∃ msg, e = TypeError msg.
Proof.
  unfold bind_param. destruct b, (assoc name kw), d; try discriminate;
    intros [= <-]; by eexists.
Qed.

Lemma bind_param_keywords name b d (kw kw' : kwargs) (v : value) (n : string) :
  bind_param name b d kw = Ok (v, kw') → n ≠ name → assoc n kw' = assoc n kw.
Proof.
  unfold bind_param. intros H Hne.
  destruct b, (assoc name kw), d; simplify_eq; try reflexivity;
    by apply assoc_without_ne.
Qed.

Lemma bind_param_positional name d (kw : kwargs) (v : value) :
  assoc name kw = None → bind_param name (Some v) d kw = Ok (v, kw).
Proof. intros H. unfold bind_param. by rewrite H. Qed.

Lemma bind_param_keyword name d (kw : kwargs) (v : value) :
  assoc name kw = None → bind_param name None d ((name, v) :: kw) = Ok (v, kw).
Proof.
  intros H. unfold bind_param. cbn [assoc]. rewrite String.eqb_refl.
  pose proof (without_absent name kw H) as Hw. unfold without in *.
  rewrite filter_cons_False by (cbn; tauto). by rewrite Hw.
Qed.

Lemma chat_call_unfold c x b kw w :
  OpenAIChatCompletions.call c x b kw w
  = match positional_only ["self"; "client"; "messages"] kw with
    | Raise e => (w, Raise e)
    | Ok _ =>
        match bind_param "model" b None kw with
        | Raise e => (w, Raise e)
        | Ok (m, kw') =>
            match method_keywords ["model"; "messages"] kw' with
            | Raise e => (w, Raise e)
            | Ok kw'' => send (chat_completions_create c m x kw'') w
            end
        end
    end.
Proof.
  unfold OpenAIChatCompletions.call. step_M.
  destruct (positional_only _ kw); [|reflexivity].
  destruct (bind_param _ _ _ _) as [[m kw']|]; [|reflexivity].
  by destruct (method_keywords _ kw').
Qed.

Lemma responses_call_unfold c x b kw w :
  OpenAIResponses.call c x b kw w
  = match positional_only ["self"; "client"; "formatted_prompt"] kw with
    | Raise e => (w, Raise e)
    | Ok _ =>
        match bind_param "model" b None kw with
        | Raise e => (w, Raise e)
        | Ok (m, kw') =>
            match method_keywords ["model"; "prompt"] kw' with
            | Raise e => (w, Raise e)
            | Ok kw'' => send (completions_create c m x kw'') w
            end
        end
    end.
Proof.
  unfold OpenAIResponses.call. step_M.
  destruct (positional_only _ kw); [|reflexivity].
  destruct (bind_param _ _ _ _) as [[m kw']|]; [|reflexivity].
  by destruct (method_keywords _ kw').
Qed.

Lemma anthropic_call_unfold c x b kw w :
  AnthropicChatCompletions.call c x b kw w
  = match positional_only ["self"; "client"; "messages"] kw with
    | Raise e => (w, Raise e)
    | Ok _ =>
        match bind_param "model" b None kw with
        | Raise e => (w, Raise e)
        | Ok (m, kw') =>
            match method_keywords ["model"; "messages"; "max_tokens"] kw' with
            | Raise e => (w, Raise e)
            | Ok kw'' => send (messages_create c m x 1000 kw'') w
            end
        end
    end.
Proof.
  unfold AnthropicChatCompletions.call. step_M.
  destruct (positional_only _ kw); [|reflexivity].
  destruct (bind_param _ _ _ _) as [[m kw']|]; [|reflexivity].
  destruct (method_keywords _ kw'); [|reflexivity].
  unfold send. by destruct (remote w (sent w) _).
Qed.

Lemma legacy_chat_call_unfold attr x b kw w :
  DashAIChat.chat_completions_call attr x b kw w
  = match positional_only ["messages"] kw with
    | Raise e => (w, Raise e)
    | Ok _ =>
        match bind_param "model" b None kw with
        | Raise e => (w, Raise e)
        | Ok (m, kw') =>
            match DashAIChat.self_client attr with
            | Raise e => (w, Raise e)
            | Ok c =>
                match method_keywords ["model"; "messages"] kw' with
                | Raise e => (w, Raise e)
                | Ok kw'' => send (chat_completions_create c m x kw'') w
                end
            end
        end
    end.
Proof.
  unfold DashAIChat.chat_completions_call. step_M.
  destruct (positional_only _ kw); [|reflexivity].
  destruct (bind_param _ _ _ _) as [[m kw']|]; [|reflexivity].
  destruct (DashAIChat.self_client attr); [|reflexivity].
  by destruct (method_keywords _ kw').
Qed.

Lemma legacy_completions_call_unfold attr x b kw w :
  DashAIChat.completions_call attr x b kw w
  = match positional_only ["prompt"] kw with
    | Raise e => (w, Raise e)
    | Ok _ =>
        match bind_param "model" b None kw with
        | Raise e => (w, Raise e)
        | Ok (m, kw') =>
            match DashAIChat.self_client attr with
            | Raise e => (w, Raise e)
            | Ok c =>
                match method_keywords ["model"; "prompt"] kw' with
                | Raise e => (w, Raise e)
                | Ok kw'' => send (completions_create c m x kw'') w
                end
            end
        end
    end.
Proof.
  unfold DashAIChat.completions_call. step_M.
  destruct (positional_only _ kw); [|reflexivity].
  destruct (bind_param _ _ _ _) as [[m kw']|]; [|reflexivity].
  destruct (DashAIChat.self_client attr); [|reflexivity].
  by destruct (method_keywords _ kw').
Qed.

(** A call whose keywords and model are bound goes to the client; one that
    fails on a keyword naming [n] fails with a [TypeError], nothing sent. *)
Lemma bound_call_sends names explicit b (kw : kwargs) (m : value) (kw1 : kwargs)
    {A} (go : value → kwargs → A) (stop : exn → A) :
  Forall (λ n, assoc n kw1 = None) names →
  assoc "self" kw1 = None → Forall (λ n, assoc n kw1 = None) explicit →
  positional_only names kw = Ok () →
  bind_param "model" b None kw = Ok (m, kw1) →
  match positional_only names kw with
  | Raise e => stop e
  | Ok _ =>
      match bind_param "model" b None kw with
      | Raise e => stop e
      | Ok (m, kw') =>
          match method_keywords explicit kw' with
          | Raise e => stop e
          | Ok kw'' => go m kw''
          end
      end
  end = go m kw1.
Proof.
  intros _ Hself Hexp Hp Hb. rewrite Hp, Hb.
  by rewrite method_keywords_ok.
Qed.

Lemma bound_call_raises names explicit b (kw : kwargs) (n : string) (w : world)
    (go : value → kwargs → world * result value) :
  n ∈ names ∨ (n ∈ "self" :: explicit ∧ n ≠ "model") →
  is_Some (assoc n kw) →
  ∃ msg,
    match positional_only names kw with
    | Raise e => (w, Raise e)
    | Ok _ =>
        match bind_param "model" b None kw with
        | Raise e => (w, Raise e)
        | Ok (m, kw') =>
            match method_keywords explicit kw' with
            | Raise e => (w, Raise e)
            | Ok kw'' => go m kw''
            end
        end
    end = (w, Raise (TypeError msg)).
Proof.
  intros Hn Hsome.
  destruct (positional_only names kw) as [[]|e] eqn:Hp.
  2:{ destruct (positional_only_type_error _ _ _ Hp) as [msg ->]. by eexists. }
  destruct (bind_param "model" b None kw) as [[m kw']|e] eqn:Hb.
  2:{ destruct (bind_param_type_error _ _ _ _ _ Hb) as [msg ->]. by eexists. }
  destruct Hn as [Hn|[Hn Hne]].
  { destruct (positional_only_raise names kw n Hn Hsome) as [msg Hmsg].
    rewrite Hmsg in Hp. discriminate Hp. }
  destruct (method_keywords_raise explicit kw' n Hn) as [msg ->]; [|by eexists].
  by rewrite (bind_param_keywords _ _ _ _ _ _ n Hb Hne).
Qed.

(** X6: [OpenAIChatCompletions.call] and [OpenAIResponses.call] hand the
    caller's keyword arguments to the client unchanged, in one request with
    the client, the model and the formatted history, when no keyword names
    [self] or another parameter of the call or of the request; the model
    may come by position or by keyword, with the same request; without a
    model, or with the model given both ways, they raise [TypeError] and
    send nothing; and a keyword that names [self], [client] or the history
    ([messages]; [formatted_prompt] or [prompt]) makes them raise
    [TypeError] with nothing sent, whatever else is passed. *)
Theorem openai_calls_forward_keywords (c : client) (x : payload) (m : value)
    (kw : kwargs) (w : world) :
  (assoc "self" kw = None → assoc "client" kw = None → assoc "model" kw = None →
   assoc "messages" kw = None →
   OpenAIChatCompletions.call c x (Some m) kw w
     = send (chat_completions_create c m x kw) w
   ∧ OpenAIChatCompletions.call c x None (("model", m) :: kw) w
     = send (chat_completions_create c m x kw) w
   ∧ (∃ msg, OpenAIChatCompletions.call c x None kw w = (w, Raise (TypeError msg)))
   ∧ (∃ msg, OpenAIChatCompletions.call c x (Some m) (("model", m) :: kw) w
             = (w, Raise (TypeError msg))))
  ∧ (∀ n b, n ∈ ["self"; "client"; "messages"] → is_Some (assoc n kw) →
       ∃ msg, OpenAIChatCompletions.call c x b kw w = (w, Raise (TypeError msg)))
  ∧ (assoc "self" kw = None → assoc "client" kw = None → assoc "model" kw = None →
     assoc "formatted_prompt" kw = None → assoc "prompt" kw = None →
     OpenAIResponses.call c x (Some m) kw w
       = send (completions_create c m x kw) w
     ∧ OpenAIResponses.call c x None (("model", m) :: kw) w
       = send (completions_create c m x kw) w
     ∧ (∃ msg, OpenAIResponses.call c x None kw w = (w, Raise (TypeError msg)))
     ∧ (∃ msg, OpenAIResponses.call c x (Some m) (("model", m) :: kw) w
               = (w, Raise (TypeError msg))))
  ∧ (∀ n b, n ∈ ["self"; "client"; "formatted_prompt"; "prompt"] →
       is_Some (assoc n kw) →
       ∃ msg, OpenAIResponses.call c x b kw w = (w, Raise (TypeError msg))).
Proof.
  split; [|split; [|split]].
  - intros Hs Hc Hm Hx.
    assert (positional_only ["self"; "client"; "messages"] kw = Ok ()) as Hp
      by (apply positional_only_ok; by repeat constructor).
    assert (positional_only ["self"; "client"; "messages"] (("model", m) :: kw) = Ok ())
      as Hp' by exact Hp.
    repeat split.
    + rewrite chat_call_unfold.
      apply (bound_call_sends _ _ _ _ m kw
               (λ m kw, send (chat_completions_create c m x kw) w));
        [by repeat constructor|exact Hs|by repeat constructor|exact Hp|].
      by apply bind_param_positional.
    + rewrite chat_call_unfold.
      apply (bound_call_sends _ _ _ _ m kw
               (λ m kw, send (chat_completions_create c m x kw) w));
        [by repeat constructor|exact Hs|by repeat constructor|exact Hp'|].
      by apply bind_param_keyword.
    + rewrite chat_call_unfold, Hp. unfold bind_param. rewrite Hm. by eexists.
    + rewrite chat_call_unfold, Hp'. by eexists.
  - intros n b Hn Hsome. rewrite chat_call_unfold.
    apply (bound_call_raises _ _ _ _ n); [by left|exact Hsome].
  - intros Hs Hc Hm Hx Hpr.
    assert (positional_only ["self"; "client"; "formatted_prompt"] kw = Ok ()) as Hp
      by (apply positional_only_ok; by repeat constructor).
    assert (positional_only ["self"; "client"; "formatted_prompt"] (("model", m) :: kw)
            = Ok ()) as Hp' by exact Hp.
    repeat split.
    + rewrite responses_call_unfold.
      apply (bound_call_sends _ _ _ _ m kw
               (λ m kw, send (completions_create c m x kw) w));
        [by repeat constructor|exact Hs|by repeat constructor|exact Hp|].
      by apply bind_param_positional.
    + rewrite responses_call_unfold.
      apply (bound_call_sends _ _ _ _ m kw
               (λ m kw, send (completions_create c m x kw) w));
        [by repeat constructor|exact Hs|by repeat constructor|exact Hp'|].
      by apply bind_param_keyword.
    + rewrite responses_call_unfold, Hp. unfold bind_param. rewrite Hm. by eexists.
    + rewrite responses_call_unfold, Hp'. by eexists.
  - intros n b Hn Hsome. rewrite responses_call_unfold.
    apply (bound_call_raises _ _ _ _ n); [|exact Hsome].
    apply elem_of_cons in Hn as [->|Hn]; [left; set_solver|].
    apply elem_of_cons in Hn as [->|Hn]; [left; set_solver|].
    apply elem_of_cons in Hn as [->|Hn]; [left; set_solver|].
    apply list_elem_of_singleton in Hn as ->. right. split; [set_solver|done].
Qed.

Lemma openai_calls_forward_keywords_witness :
  let c := Client "openai.OpenAI" "sk" in
  let x := Messages [mk_message "user" "hi"] in
  let kw : kwargs := [("temperature", VFloat 7 (-1))] in
  let w := quiet_world ∅ (Ok VNone) in
  assoc "self" kw = None ∧ assoc "client" kw = None ∧ assoc "model" kw = None
  ∧ assoc "messages" kw = None
  ∧ OpenAIChatCompletions.call c x None (("model", VStr "gpt-4o") :: kw) w
    = send (chat_completions_create c (VStr "gpt-4o") x kw) w
  ∧ "self" ∈ ["self"; "client"; "messages"]
  ∧ is_Some (assoc "self" (("self", VInt 1) :: kw))
  ∧ ∃ msg, OpenAIChatCompletions.call c x (Some (VStr "gpt-4o"))
             (("self", VInt 1) :: kw) w
           = (w, Raise (TypeError msg)).
Proof.
  intros c x kw w.
  assert (assoc "self" kw = None) as H0 by reflexivity.
  assert (assoc "client" kw = None) as H1 by reflexivity.
  assert (assoc "model" kw = None) as H2 by reflexivity.
  assert (assoc "messages" kw = None) as H3 by reflexivity.
  assert ("self" ∈ ["self"; "client"; "messages"]) as H4 by apply list_elem_of_here.
  assert (is_Some (assoc "self" (("self", VInt 1) :: kw))) as H5 by (by eexists).
  repeat (split; [assumption|]).
  split.
  - exact (proj1 (proj2 (proj1
      (openai_calls_forward_keywords c x (VStr "gpt-4o") kw w) H0 H1 H2 H3))).
  - repeat (split; [assumption|]).
    exact (proj1 (proj2
      (openai_calls_forward_keywords c x (VStr "gpt-4o") (("self", VInt 1) :: kw) w))
      "self" (Some (VStr "gpt-4o")) H4 H5).
Defined.

(** X7: [AnthropicChatCompletions.call] always asks for 1000 tokens: with
    keyword arguments that name neither [max_tokens] nor [self] nor
    another parameter it sends one request with [max_tokens] 1000 and the
    keywords unchanged; a caller's [max_tokens], like a keyword naming
    [self], [client] or [messages], makes it raise [TypeError] before
    anything is sent, whatever else is passed. *)
Theorem anthropic_call_fixes_max_tokens (c : client) (x : payload) (m : value)
    (kw : kwargs) (w : world) :
  (assoc "self" kw = None → assoc "client" kw = None → assoc "messages" kw = None →
   assoc "model" kw = None → assoc "max_tokens" kw = None →
   AnthropicChatCompletions.call c x (Some m) kw w
     = send (messages_create c m x 1000 kw) w)
  ∧ (∀ n b, n ∈ ["max_tokens"; "self"; "client"; "messages"] →
       is_Some (assoc n kw) →
       ∃ msg, AnthropicChatCompletions.call c x b kw w = (w, Raise (TypeError msg))).
Proof.
  split.
  - intros Hs Hc Hx Hm Ht. rewrite anthropic_call_unfold.
    apply (bound_call_sends _ _ _ _ m kw
             (λ m kw, send (messages_create c m x 1000 kw) w));
      [by repeat constructor|exact Hs|by repeat constructor| |].
    + apply positional_only_ok. by repeat constructor.
    + by apply bind_param_positional.
  - intros n b Hn Hsome. rewrite anthropic_call_unfold.
    apply (bound_call_raises _ _ _ _ n); [|exact Hsome].
    apply elem_of_cons in Hn as [->|Hn]; [right; split; [set_solver|done]|].
    left. exact Hn.
Qed.

Lemma anthropic_call_fixes_max_tokens_witness :
  let c := Client "anthropic.Anthropic" "k" in
  let x := Messages [mk_message "user" "hi"] in
  let kw : kwargs := [("max_tokens", VInt 4096)] in
  let w := quiet_world ∅ (Ok VNone) in
  "max_tokens" ∈ ["max_tokens"; "self"; "client"; "messages"]
  ∧ is_Some (assoc "max_tokens" kw)
  ∧ (∃ msg, AnthropicChatCompletions.call c x (Some (VStr "claude-3-5-sonnet")) kw w
            = (w, Raise (TypeError msg)))
  ∧ assoc "self" ([] : kwargs) = None
  ∧ AnthropicChatCompletions.call c x (Some (VStr "claude-3-5-sonnet")) [] w
    = send (messages_create c (VStr "claude-3-5-sonnet") x 1000 []) w.
Proof.
  intros c x kw w.
  assert ("max_tokens" ∈ ["max_tokens"; "self"; "client"; "messages"]) as H1
    by apply list_elem_of_here.
  assert (is_Some (assoc "max_tokens" kw)) as H2 by (by eexists).
  split; [exact H1|]. split; [exact H2|]. split.
  - exact (proj2 (anthropic_call_fixes_max_tokens c x (VStr "claude-3-5-sonnet") kw w)
             "max_tokens" (Some (VStr "claude-3-5-sonnet")) H1 H2).
  - split; [reflexivity|].
    exact (proj1 (anthropic_call_fixes_max_tokens c x (VStr "claude-3-5-sonnet") [] w)
             eq_refl eq_refl eq_refl eq_refl eq_refl).
Defined.

(** X8: [GeminiChatCompletions.call] drops the caller's keyword arguments:
    whatever keywords come with the call (a temperature, a token limit),
    as long as they name neither [self] nor a parameter of [call], the
    requests sent and the outcome are those of the call without keywords;
    a keyword that names [self], [client] or [messages] makes the call
    raise [TypeError] with nothing sent. *)
Theorem gemini_call_drops_keywords (c : client) (x : payload) (m : value)
    (kw : kwargs) (w : world) :
  (assoc "self" kw = None → assoc "client" kw = None → assoc "messages" kw = None →
   assoc "model" kw = None →
   GeminiChatCompletions.call c x (Some m) kw w
   = GeminiChatCompletions.call c x (Some m) [] w
   ∧ GeminiChatCompletions.call c x None (("model", m) :: kw) w
     = GeminiChatCompletions.call c x (Some m) [] w)
  ∧ (∀ n b, n ∈ ["self"; "client"; "messages"] → is_Some (assoc n kw) →
       ∃ msg, GeminiChatCompletions.call c x b kw w = (w, Raise (TypeError msg))).
Proof.
  split.
  - intros Hs Hc Hx Hm.
    assert (positional_only ["self"; "client"; "messages"] kw = Ok ()) as Hp
      by (apply positional_only_ok; by repeat constructor).
    assert (positional_only ["self"; "client"; "messages"] (("model", m) :: kw) = Ok ())
      as Hp' by exact Hp.
    unfold GeminiChatCompletions.call. step_M. rewrite Hp, Hp'.
    rewrite (bind_param_positional "model" None kw m Hm).
    rewrite (bind_param_keyword "model" None kw m Hm). by split.
  - intros n b Hn Hsome. unfold GeminiChatCompletions.call. step_M.
    destruct (positional_only_raise _ kw n Hn Hsome) as [msg ->]. by eexists.
Qed.

Lemma gemini_call_drops_keywords_witness :
  let c := Client "google.genai.Client" "k" in
  let x := Messages [mk_message "user" "hi"] in
  let kw : kwargs := [("temperature", VInt 0); ("max_output_tokens", VInt 64)] in
  let w := quiet_world ∅ (Ok (VStr "chat")) in
  assoc "self" kw = None ∧ assoc "client" kw = None ∧ assoc "messages" kw = None
  ∧ assoc "model" kw = None
  ∧ GeminiChatCompletions.call c x (Some (VStr "gemini-2.0-flash")) kw w
    = GeminiChatCompletions.call c x (Some (VStr "gemini-2.0-flash")) [] w.
Proof.
  intros c x kw w.
  assert (assoc "self" kw = None) as H0 by reflexivity.
  assert (assoc "client" kw = None) as H1 by reflexivity.
  assert (assoc "messages" kw = None) as H2 by reflexivity.
  assert (assoc "model" kw = None) as H3 by reflexivity.
  repeat (split; [assumption|]).
  exact (proj1 (proj1 (gemini_call_drops_keywords c x (VStr "gemini-2.0-flash") kw w)
                  H0 H1 H2 H3)).
Defined.

(** X9: the chat entry of the registry of [DashAIChat.__init__] behaves as
    the [OpenAIChatCompletions] adapter once the application has a client:
    same [extract], same [format_messages], and its [call] ends as the
    adapter's [call] with that client, same request and same outcome, for
    keywords that name neither [self] nor [client]; a keyword [self] makes
    both raise [TypeError] with nothing sent (the adapter's method has the
    parameter, the lambda hands the keyword to the method of the client);
    while the application has no [client] attribute, the [call] of either
    entry raises [AttributeError] and sends nothing. *)
Theorem legacy_entry_matches_adapter :
  (∀ r, DashAIChat.chat_completions_extract r = OpenAIChatCompletions.extract r)
  ∧ (∀ h, DashAIChat.chat_completions_format_messages h
          = OpenAIChatCompletions.format_messages h)
  ∧ (∀ c x b kw w, assoc "self" kw = None → assoc "client" kw = None →
       DashAIChat.chat_completions_call (Some c) x b kw w
       = OpenAIChatCompletions.call c x b kw w)
  ∧ (∀ c x b kw w, is_Some (assoc "self" kw) →
       (∃ msg, DashAIChat.chat_completions_call (Some c) x b kw w
               = (w, Raise (TypeError msg)))
       ∧ (∃ msg, OpenAIChatCompletions.call c x b kw w = (w, Raise (TypeError msg))))
  ∧ (∀ x m kw w, assoc "messages" kw = None → assoc "model" kw = None →
       DashAIChat.chat_completions_call None x (Some m) kw w
       = (w, Raise (AttributeError "'DashAIChat' object has no attribute 'client'")))
  ∧ (∀ x m kw w, assoc "prompt" kw = None → assoc "model" kw = None →
       DashAIChat.completions_call None x (Some m) kw w
       = (w, Raise (AttributeError "'DashAIChat' object has no attribute 'client'"))).
Proof.
  split; [reflexivity|]. split; [reflexivity|]. split; [|split; [|split]].
  - intros c x b kw w Hs Hc.
    rewrite legacy_chat_call_unfold, chat_call_unfold.
    cbn [positional_only DashAIChat.self_client]. rewrite Hs, Hc. reflexivity.
  - intros c x b kw w Hsome. split.
    + rewrite legacy_chat_call_unfold. cbn [DashAIChat.self_client].
      apply (bound_call_raises _ _ _ _ "self"); [|exact Hsome].
      right. split; [apply list_elem_of_here|done].
    + rewrite chat_call_unfold.
      apply (bound_call_raises _ _ _ _ "self"); [|exact Hsome].
      left. apply list_elem_of_here.
  - intros x m kw w Hx Hm. rewrite legacy_chat_call_unfold.
    cbn [positional_only]. rewrite Hx. unfold bind_param. by rewrite Hm.
  - intros x m kw w Hx Hm. rewrite legacy_completions_call_unfold.
    cbn [positional_only]. rewrite Hx. unfold bind_param. by rewrite Hm.
Qed.

Lemma legacy_entry_matches_adapter_witness :
  let w := quiet_world ∅ (Ok VNone) in
  assoc "messages" ([] : kwargs) = None ∧ assoc "model" ([] : kwargs) = None
  ∧ DashAIChat.chat_completions_call None (Messages []) (Some (VStr "gpt-4o")) [] w
    = (w, Raise (AttributeError "'DashAIChat' object has no attribute 'client'")).
Proof.
  intros w.
  assert (assoc "messages" ([] : kwargs) = None) as H1 by reflexivity.
  assert (assoc "model" ([] : kwargs) = None) as H2 by reflexivity.
  repeat (split; [assumption|]).
  exact (proj1 (proj2 (proj2 (proj2 (proj2 legacy_entry_matches_adapter))))
           (Messages []) (VStr "gpt-4o") [] w H1 H2).
Defined.

Lemma tts_call_unfold c x b kw w :
  OpenAITextToSpeech.call c x b kw w
  = match positional_only ["self"; "client"; "text"] kw with
    | Raise e => (w, Raise e)
    | Ok _ =>
        match bind_param "model" b (Some (VStr "gpt-4o-mini-tts")) kw with
        | Raise e => (w, Raise e)
        | Ok (m, kw') =>
            match bind_param "voice" None (Some (VStr "alloy")) kw' with
            | Raise e => (w, Raise e)
            | Ok (v, kw'') =>
                match spread ["model"; "voice"; "input"] kw'' with
                | Raise e => (w, Raise e)
                | Ok kw3 => send (audio_speech_create c m v x kw3) w
                end
            end
        end
    end.
Proof.
  unfold OpenAITextToSpeech.call. step_M.
  destruct (positional_only _ kw); [|reflexivity].
  destruct (bind_param _ _ _ _) as [[m kw']|]; [|reflexivity].
  destruct (bind_param _ _ _ _) as [[v kw'']|]; [|reflexivity].
  by destruct (spread _ kw'').
Qed.

Lemma tts_call_binding (c : client) (x : payload) (kw : kwargs) (w : world) :
  assoc "self" kw = None → assoc "client" kw = None → assoc "text" kw = None →
  assoc "input" kw = None →
  OpenAITextToSpeech.call c x None kw w
  = send (audio_speech_create c
            (default (VStr "gpt-4o-mini-tts") (assoc "model" kw))
            (default (VStr "alloy") (assoc "voice" kw))
            x (without "voice" (without "model" kw))) w.
Proof.
  intros Hs Hc Hx Hi.
  assert (positional_only ["self"; "client"; "text"] kw = Ok ()) as Hp
    by (apply positional_only_ok; by repeat constructor).
  assert (bind_param "model" None (Some (VStr "gpt-4o-mini-tts")) kw
          = Ok (default (VStr "gpt-4o-mini-tts") (assoc "model" kw),
                without "model" kw)) as Hbm.
  { unfold bind_param. destruct (assoc "model" kw) eqn:Hm; [reflexivity|].
    by rewrite without_absent. }
  assert (bind_param "voice" None (Some (VStr "alloy")) (without "model" kw)
          = Ok (default (VStr "alloy") (assoc "voice" kw),
                without "voice" (without "model" kw))) as Hbv.
  { unfold bind_param. rewrite assoc_without_ne by done.
    destruct (assoc "voice" kw) eqn:Hv; [reflexivity|].
    rewrite (without_absent "voice"); [reflexivity|].
    by rewrite assoc_without_ne. }
  rewrite tts_call_unfold, Hp, Hbm, Hbv. cbn [spread].
  rewrite (assoc_without_ne "model" "voice") by done.
  rewrite assoc_without_eq, assoc_without_eq.
  rewrite !(assoc_without_ne "input") by done. by rewrite Hi.
Qed.

(** X10: [OpenAITextToSpeech.call] takes its model and its voice from the
    keywords when they are there and else uses "gpt-4o-mini-tts" and
    "alloy"; the text is the input, and the other keywords go to the
    client unchanged, in one request, when no keyword names [self],
    [client], [text] or [input]; a keyword that names one of these makes
    the call raise [TypeError] with nothing sent. *)
Theorem tts_call_defaults (c : client) (x : payload) (kw : kwargs) (w : world) :
  (assoc "self" kw = None → assoc "client" kw = None → assoc "text" kw = None →
   assoc "input" kw = None →
   OpenAITextToSpeech.call c x None kw w
   = send (audio_speech_create c
             (default (VStr "gpt-4o-mini-tts") (assoc "model" kw))
             (default (VStr "alloy") (assoc "voice" kw))
             x (without "voice" (without "model" kw))) w)
  ∧ (∀ n b, n ∈ ["self"; "client"; "text"; "input"] → is_Some (assoc n kw) →
       ∃ msg, OpenAITextToSpeech.call c x b kw w = (w, Raise (TypeError msg))).
Proof.
  split; [apply tts_call_binding|].
  intros n b Hn Hsome. rewrite tts_call_unfold.
  destruct (decide (n = "input")) as [->|Hne].
  - destruct (positional_only _ kw) as [[]|e] eqn:Hp.
    2:{ destruct (positional_only_type_error _ _ _ Hp) as [msg ->]. by eexists. }
    destruct (bind_param "model" _ _ _) as [[m kw']|e] eqn:Hbm.
    2:{ destruct (bind_param_type_error _ _ _ _ _ Hbm) as [msg ->]. by eexists. }
    destruct (bind_param "voice" _ _ _) as [[v kw'']|e] eqn:Hbv.
    2:{ destruct (bind_param_type_error _ _ _ _ _ Hbv) as [msg ->]. by eexists. }
    destruct (spread_raise ["model"; "voice"; "input"] kw'' "input") as [msg ->];
      [set_solver| |by eexists].
    rewrite (bind_param_keywords _ _ _ _ _ _ "input" Hbv) by done.
    by rewrite (bind_param_keywords _ _ _ _ _ _ "input" Hbm).
  - assert (n ∈ ["self"; "client"; "text"]) as Hn' by set_solver.
    destruct (positional_only_raise _ kw n Hn' Hsome) as [msg ->]. by eexists.
Qed.

Lemma tts_call_defaults_witness :
  let c := Client "openai.OpenAI" "sk" in
  let kw : kwargs := [("voice", VStr "nova"); ("speed", VFloat 15 (-1))] in
  let w := quiet_world ∅ (Ok VNone) in
  assoc "self" kw = None ∧ assoc "client" kw = None ∧ assoc "text" kw = None
  ∧ assoc "input" kw = None
  ∧ OpenAITextToSpeech.call c (Prompt "hello") None kw w
    = send (audio_speech_create c (VStr "gpt-4o-mini-tts") (VStr "nova")
              (Prompt "hello") [("speed", VFloat 15 (-1))]) w.
Proof.
  intros c kw w.
  assert (assoc "self" kw = None) as H0 by reflexivity.
  assert (assoc "client" kw = None) as H1 by reflexivity.
  assert (assoc "text" kw = None) as H2 by reflexivity.
  assert (assoc "input" kw = None) as H3 by reflexivity.
  repeat (split; [assumption|]).
  exact (proj1 (tts_call_defaults c (Prompt "hello") kw w) H0 H1 H2 H3).
Defined.

(** ** Validating a layout *)

Lemma own_id_spec (id : option ident) :
  match Layout.own_id id with
  | Ok ids =>
      (∀ x, x ∈ ids ↔ id = Some (IdStr x) ∧ x ≠ "")
      ∧ (∀ d, id = Some (IdDict d) → d = [])
  | Raise e => (∃ d, id = Some (IdDict d) ∧ d ≠ []) ∧ ∃ msg, e = TypeError msg
  end.
Proof.
  destruct id as [[[|a s]|[|p d]]|]; cbn.
  - split; [|discriminate]. intros x. rewrite elem_of_empty.
    split; [done|]. by intros [[= <-] ?].
  - split; [|discriminate]. intros x. rewrite elem_of_singleton.
    split; [by intros ->|]. by intros [[= ->] _].
  - split; [|by intros d [= <-]]. intros x. rewrite elem_of_empty.
    split; [done|]. by intros [? _].
  - split; [by eexists|by eexists].
  - split; [|discriminate]. intros x. rewrite elem_of_empty.
    split; [done|]. by intros [? _].
Qed.

Lemma carries_node (x : string) tag id props children :
  carries x (Node tag id props children)
  ↔ (id = Some (IdStr x) ∧ x ≠ "")
    ∨ match children with
      | NoChildren => False
      | Child child => carries x child
      | Children l => ∃ child, child ∈ l ∧ carries x child
      end.
Proof.
  split.
  - inversion 1; subst; [by left|by right|right; by eexists].
  - intros [[-> Hx]|Hc]; [by constructor|].
    destruct children as [|child|l]; [done|by constructor|].
    destruct Hc as (child & Hin & Hc). by eapply carries_children.
Qed.

Lemma keyed_node tag id props children :
  keyed (Node tag id props children)
  ↔ (∃ d, id = Some (IdDict d) ∧ d ≠ [])
    ∨ match children with
      | NoChildren => False
      | Child child => keyed child
      | Children l => ∃ child, child ∈ l ∧ keyed child
      end.
Proof.
  split.
  - inversion 1; subst; [left; by eexists|by right|right; by eexists].
  - intros [(d & -> & Hd)|Hc]; [by constructor|].
    destruct children as [|child|l]; [done|by constructor|].
    destruct Hc as (child & Hin & Hc). by eapply keyed_children.
Qed.

(** What [collect_ids] ends in: the ids the layout carries, or a
    [TypeError] when a component of the layout has a dictionary id. *)
Lemma collect_ids_spec (c : component) :
  match Layout.collect_ids c with
  | Ok ids => ¬ keyed c ∧ ∀ x, x ∈ ids ↔ carries x c
  | Raise e => keyed c ∧ ∃ msg, e = TypeError msg
  end.
Proof.
  revert c. fix IH 1. intros [s|tag id props children].
  - cbn. split; [inversion 1|]. intros x. rewrite elem_of_empty.
    split; [done|inversion 1].
  - cbn [Layout.collect_ids]. pose proof (own_id_spec id) as Hown.
    destruct (Layout.own_id id) as [ids0|e0]; cbn [mbind result_bind].
    2:{ destruct Hown as [Hd Hmsg]. split; [|exact Hmsg].
        apply keyed_node. by left. }
    destruct Hown as [Hids Hnodict].
    assert (¬ ∃ d, id = Some (IdDict d) ∧ d ≠ []) as Hno
      by (intros (d & Hd & Hne); by apply Hne, Hnodict).
    destruct children as [|child|l].
    + split.
      * rewrite keyed_node. tauto.
      * intros x. rewrite carries_node, Hids. tauto.
    + specialize (IH child).
      destruct (Layout.collect_ids child) as [more|e]; cbn.
      * destruct IH as [Hk Hc]. split.
        -- rewrite keyed_node. tauto.
        -- intros x. rewrite elem_of_union, carries_node, Hids, Hc. tauto.
      * destruct IH as [Hk Hmsg]. split; [|exact Hmsg].
        apply keyed_node. by right.
    + assert (∀ ids,
        match (fix each (ids : gset string) (l : list component)
                 : result (gset string) :=
                 match l with
                 | [] => Ok ids
                 | child :: l' =>
                     more ← Layout.collect_ids child; each (ids ∪ more) l'
                 end) ids l with
        | Ok out =>
            (¬ ∃ child, child ∈ l ∧ keyed child)
            ∧ ∀ x, x ∈ out ↔ x ∈ ids ∨ ∃ child, child ∈ l ∧ carries x child
        | Raise e => (∃ child, child ∈ l ∧ keyed child) ∧ ∃ msg, e = TypeError msg
        end) as Heach.
      { induction l as [|child l IHl]; intros ids.
        - split.
          + intros (child & Hin & _). by apply elem_of_nil in Hin.
          + intros x. split; [by left|]. intros [?|(child & Hin & _)]; [done|].
            by apply elem_of_nil in Hin.
        - specialize (IH child).
          destruct (Layout.collect_ids child) as [more|e]; cbn [mbind result_bind].
          + destruct IH as [Hk Hc]. specialize (IHl (ids ∪ more)).
            match goal with |- match ?r with Ok _ => _ | Raise _ => _ end =>
              destruct r as [out|e] end.
            * destruct IHl as [Hkl Hout]. split.
              -- intros (ch & Hin & Hch). apply elem_of_cons in Hin as [->|Hin];
                   [done|]. apply Hkl. by exists ch.
              -- intros x. rewrite Hout, elem_of_union, Hc. split.
                 ++ intros [[?|?]|(ch & Hin & Hch)]; [by left| |].
                    ** right. exists child. split; [apply list_elem_of_here|done].
                    ** right. exists ch. split; [by apply list_elem_of_further|done].
                 ++ intros [?|(ch & Hin & Hch)]; [left; by left|].
                    apply elem_of_cons in Hin as [->|Hin]; [left; by right|].
                    right. by exists ch.
            * destruct IHl as [(ch & Hin & Hch) Hmsg]. split; [|exact Hmsg].
              exists ch. split; [by apply list_elem_of_further|done].
          + destruct IH as [Hk Hmsg]. split; [|exact Hmsg].
            exists child. split; [apply list_elem_of_here|done]. }
      specialize (Heach ids0).
      match goal with |- match ?r with Ok _ => _ | Raise _ => _ end =>
        destruct r as [out|e] end.
      * destruct Heach as [Hk Hout]. split.
        -- rewrite keyed_node. tauto.
        -- intros x. rewrite Hout, carries_node, Hids. tauto.
      * destruct Heach as [Hk Hmsg]. split; [|exact Hmsg].
        apply keyed_node. by right.
Qed.

Lemma validate_layout_spec (layout : component) :
  match Layout._validate_layout layout with
  | Ok Valid => ¬ keyed layout ∧ ∀ x, x ∈ Layout.required_ids → carries x layout
  | Ok (Missing missing) =>
      ¬ keyed layout ∧ missing ≠ ∅
      ∧ ∀ x, x ∈ missing ↔ x ∈ Layout.required_ids ∧ ¬ carries x layout
  | Raise e => keyed layout ∧ ∃ msg, e = TypeError msg
  end.
Proof.
  unfold Layout._validate_layout. pose proof (collect_ids_spec layout) as Hc.
  destruct (Layout.collect_ids layout) as [ids|e]; cbn [mbind result_bind];
    [|exact Hc].
  destruct Hc as [Hk Hids]. cbn zeta.
  destruct (decide (Layout.required_ids ∖ ids = ∅)) as [He|Hne].
  - split; [exact Hk|]. intros x Hx. apply Hids.
    destruct (decide (x ∈ ids)) as [|Hn]; [done|].
    assert (x ∈ Layout.required_ids ∖ ids) as Hin by (by apply elem_of_difference).
    rewrite He in Hin. by apply elem_of_empty in Hin.
  - split; [exact Hk|]. split; [exact Hne|]. intros x.
    by rewrite elem_of_difference, Hids.
Qed.

(** X11: [_validate_layout] ends in one of three ways.  It raises
    [TypeError] exactly when a component of the layout has a (non-empty)
    dictionary as its id, since the ids are collected into a set.
    Otherwise it accepts the layout exactly when every required id is the
    id of some component of the tree (an empty or absent id never counts),
    and else its [ValueError] names exactly the required ids that no
    component carries, at least one.  [set_layout] has replaced the
    application's layout by then, however the validation ends. *)
Theorem validate_layout_criterion (layout : component) :
  ((∃ msg, Layout._validate_layout layout = Raise (TypeError msg)) ↔ keyed layout)
  ∧ (∀ e, Layout._validate_layout layout = Raise e → ∃ msg, e = TypeError msg)
  ∧ (Layout._validate_layout layout = Ok Valid
     ↔ ¬ keyed layout ∧ ∀ x, x ∈ Layout.required_ids → carries x layout)
  ∧ (∀ missing, Layout._validate_layout layout = Ok (Missing missing) →
       ¬ keyed layout ∧ missing ≠ ∅
       ∧ ∀ x, x ∈ missing ↔ x ∈ Layout.required_ids ∧ ¬ carries x layout)
  ∧ (¬ keyed layout → ∀ x, x ∈ Layout.required_ids → ¬ carries x layout →
       ∃ missing, Layout._validate_layout layout = Ok (Missing missing)
                  ∧ x ∈ missing)
  ∧ (Layout.set_layout layout).1 = layout
  ∧ (Layout.set_layout layout).2 = Layout._validate_layout layout.
Proof.
  pose proof (validate_layout_spec layout) as H.
  split; [|split; [|split; [|split; [|split; [|split; reflexivity]]]]].
  - split.
    + intros [msg Hmsg]. rewrite Hmsg in H. apply H.
    + intros Hk. destruct (Layout._validate_layout layout) as [[|missing]|e].
      * by destruct H.
      * by destruct H.
      * destruct H as [_ [msg ->]]. by eexists.
  - intros e He. rewrite He in H. apply H.
  - split.
    + intros Hv. by rewrite Hv in H.
    + intros [Hk Hall].
      destruct (Layout._validate_layout layout) as [[|missing]|e]; [done| |].
      * destruct H as (_ & Hne & Hmiss). destruct Hne. apply set_eq. intros x.
        rewrite Hmiss, elem_of_empty. split; [|done].
        intros [Hx Hn]. by apply Hn, Hall.
      * by destruct H.
  - intros missing Hm. by rewrite Hm in H.
  - intros Hk x Hx Hn.
    destruct (Layout._validate_layout layout) as [[|missing]|e].
    + destruct H as [_ Hall]. destruct Hn. by apply Hall.
    + exists missing. split; [done|]. by apply H.
    + by destruct H.
Qed.

Lemma validate_layout_criterion_witness :
  let keyed_layout :=
    Node "Div" None []
      (Children [ Layout.chat_area;
                  Node "Button" (Some (IdDict [("type", VStr "send"); ("index", VInt 0)]))
                    [] NoChildren ]) in
  Layout._validate_layout Layout.chat_area
    = Ok (Missing {[ "burger-menu"; "sidebar-offcanvas"; "conversation-list"; "url";
                     "user_input_textarea"; "new-chat-button" ]})
  ∧ ("url" ∈ ({[ "burger-menu"; "sidebar-offcanvas"; "conversation-list"; "url";
                 "user_input_textarea"; "new-chat-button" ]} : gset string)
     ↔ "url" ∈ Layout.required_ids ∧ ¬ carries "url" Layout.chat_area)
  ∧ keyed keyed_layout
  ∧ ∃ msg, Layout._validate_layout keyed_layout = Raise (TypeError msg).
Proof.
  intros keyed_layout.
  assert (Layout._validate_layout Layout.chat_area
    = Ok (Missing {[ "burger-menu"; "sidebar-offcanvas"; "conversation-list"; "url";
                     "user_input_textarea"; "new-chat-button" ]})) as H by reflexivity.
  assert (keyed keyed_layout) as Hk.
  { eapply keyed_children; [apply list_elem_of_further, list_elem_of_here|].
    by constructor. }
  split; [exact H|]. split.
  - exact (proj2 (proj2 (proj1 (proj2 (proj2 (proj2
             (validate_layout_criterion Layout.chat_area)))) _ H)) "url").
  - split; [exact Hk|].
    exact (proj2 (proj1 (validate_layout_criterion keyed_layout)) Hk).
Defined.

Lemma collect_ids_default_layout (sb ca ia : component) :
  Layout.collect_ids (Layout.default_layout sb ca ia)
  = (s ← Layout.collect_ids sb;
     c ← Layout.collect_ids ca;
     i ← Layout.collect_ids ia;
     mret (({[ "burger-menu" ]} ∪ s ∪ {[ "url" ]} ∪ c ∪ i) : gset string)).
Proof.
  cbn [Layout.collect_ids Layout.default_layout Layout.own_id mbind mret
       result_bind result_ret].
  destruct (Layout.collect_ids sb) as [s|]; cbn [mbind mret result_bind result_ret];
    [|reflexivity].
  destruct (Layout.collect_ids ca) as [c|]; cbn [mbind mret result_bind result_ret];
    [|reflexivity].
  destruct (Layout.collect_ids ia) as [i|]; cbn [mbind mret result_bind result_ret];
    [|reflexivity].
  f_equal. apply set_eq. intros x. set_solver.
Qed.

(** X12: the layout [default_layout] builds passes [_validate_layout]
    exactly when none of the sidebar, the chat area and the input area it
    is given has a dictionary id and they carry between them the five ids
    "sidebar-offcanvas", "conversation-list", "new-chat-button",
    "chat_area_div" and "user_input_textarea" (the burger menu and the
    location are its own); the validation raises [TypeError] exactly when
    one of the three has a dictionary id; with the application's own three
    factories the validation of [__init__] (line 49) passes. *)
Theorem default_layout_validation (sb ca ia : component) :
  (Layout._validate_layout (Layout.default_layout sb ca ia) = Ok Valid
   ↔ (¬ keyed sb ∧ ¬ keyed ca ∧ ¬ keyed ia)
     ∧ ∀ x, x ∈ ({[ "sidebar-offcanvas"; "conversation-list"; "new-chat-button";
                    "chat_area_div"; "user_input_textarea" ]} : gset string) →
            carries x sb ∨ carries x ca ∨ carries x ia)
  ∧ ((∃ msg, Layout._validate_layout (Layout.default_layout sb ca ia)
             = Raise (TypeError msg))
     ↔ keyed sb ∨ keyed ca ∨ keyed ia)
  ∧ Layout.init_layout.2 = Ok Valid.
Proof.
  split; [|split; [|vm_compute; reflexivity]].
  - unfold Layout._validate_layout. rewrite collect_ids_default_layout.
    pose proof (collect_ids_spec sb) as Hs. pose proof (collect_ids_spec ca) as Hc.
    pose proof (collect_ids_spec ia) as Hi.
    destruct (Layout.collect_ids sb) as [s|]; cbn [mbind result_bind];
      [|split; [discriminate|tauto]].
    destruct (Layout.collect_ids ca) as [c|]; cbn [mbind result_bind];
      [|split; [discriminate|tauto]].
    destruct (Layout.collect_ids ia) as [i|]; cbn [mbind result_bind mret result_ret];
      [|split; [discriminate|tauto]].
    destruct Hs as [Hks Hs], Hc as [Hkc Hc], Hi as [Hki Hi]. cbn zeta.
    unfold Layout.required_ids.
    destruct (decide (_ ∖ _ = ∅)) as [He|Hne].
    + split; [intros _|done]. split; [done|]. intros x Hx.
      rewrite <- Hs, <- Hc, <- Hi.
      destruct (decide (x ∈ ({[ "burger-menu" ]} ∪ s ∪ {[ "url" ]} ∪ c ∪ i
                               : gset string))) as [Hin|Hnin].
      * clear -Hx Hin. set_solver.
      * assert (x ∈ ({[ "burger-menu"; "sidebar-offcanvas"; "conversation-list";
                        "url"; "chat_area_div"; "user_input_textarea";
                        "new-chat-button" ]}
                     ∖ ({[ "burger-menu" ]} ∪ s ∪ {[ "url" ]} ∪ c ∪ i) : gset string))
          as Hn by (clear -Hx Hnin; set_solver).
        rewrite He in Hn. by apply elem_of_empty in Hn.
    + split; [done|]. intros [_ Hall]. destruct Hne. apply set_eq. intros x.
      rewrite elem_of_empty. split; [|done]. intros Hx.
      specialize (Hall x). rewrite <- Hs, <- Hc, <- Hi in Hall.
      clear -Hx Hall. set_solver.
  - unfold Layout._validate_layout. rewrite collect_ids_default_layout.
    pose proof (collect_ids_spec sb) as Hs. pose proof (collect_ids_spec ca) as Hc.
    pose proof (collect_ids_spec ia) as Hi.
    destruct (Layout.collect_ids sb) as [s|]; cbn [mbind result_bind].
    2:{ destruct Hs as [Hk [msg ->]]. split; [by left|by eexists]. }
    destruct (Layout.collect_ids ca) as [c|]; cbn [mbind result_bind].
    2:{ destruct Hc as [Hk [msg ->]]. split; [right; by left|by eexists]. }
    destruct (Layout.collect_ids ia) as [i|]; cbn [mbind result_bind mret result_ret].
    2:{ destruct Hi as [Hk [msg ->]]. split; [right; by right|by eexists]. }
    cbn zeta. split.
    + intros [msg Hmsg]. by destruct (decide (_ = ∅)).
    + tauto.
Qed.

(** ** The signature of [examples/04_signature_chat.py] *)

Lemma sign_one_spec (i : nat) (msg : message) (fmt out : list component) :
  SignatureChat.sign_one i msg fmt = Ok out →
  length out = length fmt
  ∧ ∀ j c, fmt !! j = Some c →
      out !! j = Some (if decide (j = i)
                       then (if is_assistant msg then with_signature c else c)
                       else c)
      ∧ (j = i → is_assistant msg = true → has_child_list c).
Proof.
  unfold SignatureChat.sign_one, dict_getitem, is_assistant.
  destruct (msg !! "role") as [role|] eqn:Hrole; [|discriminate]. cbn.
  destruct (String.eqb_spec role "assistant") as [->|Hne].
  - rewrite !(bool_decide_eq_true_2 (Some "assistant" = Some "assistant")) by done.
    destruct (bool_decide (i < length fmt)%nat) eqn:Hi.
    + apply bool_decide_eq_true in Hi.
      destruct (fmt !! i) as [ci|] eqn:Hci; [|discriminate].
      destruct ci as [s|tag id props [|child|l]]; try discriminate. cbn.
      intros [= <-]. split; [by rewrite length_insert|].
      intros j c Hj. destruct (decide (j = i)) as [->|Hji].
      * rewrite Hci in Hj. injection Hj as <-.
        rewrite list_lookup_insert_eq by done. split; [reflexivity|].
        intros _ _. by eexists _, _, _, _.
      * rewrite list_lookup_insert_ne by done. by split.
    + apply bool_decide_eq_false in Hi. intros [= <-]. split; [reflexivity|].
      intros j c Hj. pose proof (lookup_lt_Some _ _ _ Hj).
      destruct (decide (j = i)) as [->|Hn]; [lia|]. split; [done|]. by intros ?.
  - rewrite !(bool_decide_eq_false_2 (Some role = Some "assistant")) by congruence.
    intros [= <-]. split; [reflexivity|].
    intros j c Hj. split; [by destruct (decide (j = i))|]. discriminate.
Qed.

Lemma sign_from_spec (k : nat) (msgs : list message) (fmt out : list component) :
  SignatureChat.sign_from k msgs fmt = Ok out →
  length out = length fmt
  ∧ ∀ j c, fmt !! j = Some c →
      out !! j = Some (match (if decide (k ≤ j)%nat then msgs !! (j - k)%nat else None) with
                       | Some m => if is_assistant m then with_signature c else c
                       | None => c
                       end)
      ∧ (∀ m, (k ≤ j)%nat → msgs !! (j - k)%nat = Some m →
              is_assistant m = true → has_child_list c).
Proof.
  revert k fmt. induction msgs as [|msg rest IH]; intros k fmt H; cbn in H.
  - injection H as <-. split; [reflexivity|]. intros j c Hj.
    split; [by destruct (decide (k ≤ j)%nat)|]. intros m _ Hm. done.
  - destruct (SignatureChat.sign_one k msg fmt) as [fmt'|] eqn:Hone; [|discriminate].
    cbn in H. apply sign_one_spec in Hone as [Hlen1 Hone].
    apply IH in H as [Hlen2 Hrest]. split; [congruence|].
    intros j c Hj. destruct (Hone j c Hj) as [Hj' Hlist].
    destruct (Hrest j _ Hj') as [Hout Hlist'].
    destruct (decide (j = k)) as [->|Hjk].
    + rewrite decide_False in Hout by lia. rewrite decide_True by lia.
      replace (k - k)%nat with 0%nat by lia. cbn. split; [exact Hout|].
      intros m _ [= <-] Hm. by apply Hlist.
    + destruct (decide (k ≤ j)%nat) as [Hk|Hk].
      * rewrite decide_True in Hout by lia.
        replace (j - k)%nat with (S (j - S k)) by lia. cbn. split; [exact Hout|].
        intros m _ Hm Ha. apply (Hlist' m); [lia|exact Hm|exact Ha].
      * rewrite decide_False in Hout by lia. split; [exact Hout|]. intros; lia.
Qed.

(** X13: when [SignatureChat.format_messages] returns, it returns as many
    formatted messages as the base class made, in the same order: the one
    of every assistant message has the signature as one more, last child
    (and had a list of children), every other one is as the base class made
    it; a message of the history beyond the formatted ones changes
    nothing. *)
Theorem signature_on_assistant_messages
    (super_format_messages : list message → result (list component))
    (messages : list message) (formatted out : list component) :
  super_format_messages messages = Ok formatted →
  SignatureChat.format_messages super_format_messages messages = Ok out →
  length out = length formatted
  ∧ ∀ i c, formatted !! i = Some c →
      out !! i = Some (match messages !! i with
                       | Some m => if is_assistant m then with_signature c else c
                       | None => c
                       end)
      ∧ (∀ m, messages !! i = Some m → is_assistant m = true → has_child_list c).
Proof.
  intros Hsuper. unfold SignatureChat.format_messages. rewrite Hsuper. cbn.
  intros H. apply sign_from_spec in H as [Hlen H]. split; [exact Hlen|].
  intros i c Hi. destruct (H i c Hi) as [Hout Hlist].
  rewrite decide_True in Hout by lia. rewrite Nat.sub_0_r in Hout.
  split; [exact Hout|]. intros m Hm. apply Hlist; [lia|].
  by rewrite Nat.sub_0_r.
Qed.

Lemma signature_on_assistant_messages_witness :
  let bubble (s : string) := Node "Div" None [] (Children [Text s]) in
  let super_format_messages (ms : list message) : result (list component) :=
    Ok (map (λ m, bubble (field m "content")) ms) in
  let messages := [mk_message "user" "hi"; mk_message "assistant" "hello"] in
  super_format_messages messages = Ok [bubble "hi"; bubble "hello"]
  ∧ SignatureChat.format_messages super_format_messages messages
    = Ok [ bubble "hi";
           Node "Div" None [] (Children [Text "hello"; SignatureChat.signature_div]) ]
  ∧ length [ bubble "hi";
             Node "Div" None [] (Children [Text "hello"; SignatureChat.signature_div]) ]
    = length [bubble "hi"; bubble "hello"].
Proof.
  intros bubble super_format_messages messages.
  assert (super_format_messages messages = Ok [bubble "hi"; bubble "hello"]) as H1
    by reflexivity.
  assert (SignatureChat.format_messages super_format_messages messages
    = Ok [ bubble "hi";
           Node "Div" None [] (Children [Text "hello"; SignatureChat.signature_div]) ])
    as H2 by reflexivity.
  split; [exact H1|]. split; [exact H2|].
  exact (proj1 (signature_on_assistant_messages super_format_messages messages
                  _ _ H1 H2)).
Defined.

(** ** What [update_convo] leaves in the conversation *)

Lemma keeps_logs_ret {A} (a : A) : keeps_logs (mret a).
Proof. by intros w. Qed.

Lemma keeps_logs_lift {A} (r : result A) : keeps_logs (lift r).
Proof. by intros w. Qed.

Lemma keeps_logs_bind {A B} (m : M A) (k : A → M B) :
  keeps_logs m → (∀ a, keeps_logs (k a)) → keeps_logs (m ≫= k).
Proof.
  intros Hm Hk w. unfold mbind, M_bind. specialize (Hm w).
  destruct (m w) as [w' [a|e]]; cbn in *; [|exact Hm].
  by rewrite Hk.
Qed.

Lemma keeps_logs_bind_lift {A B} (r : result A) (k : A → M B) :
  (∀ a, r = Ok a → keeps_logs (k a)) → keeps_logs (lift r ≫= k).
Proof.
  intros Hk w. unfold mbind, M_bind, lift. destruct r as [a|e]; [|reflexivity].
  by apply Hk.
Qed.

Lemma keeps_logs_try_except {A} (body : M A) (handler : exn → M A) :
  keeps_logs body → (∀ e, keeps_logs (handler e)) → keeps_logs (try_except body handler).
Proof.
  intros Hb Hh w. unfold try_except. specialize (Hb w).
  destruct (body w) as [w' [a|e]]; cbn in *; [exact Hb|].
  by rewrite Hh.
Qed.

Lemma keeps_logs_send (q : request) : keeps_logs (send q).
Proof. by intros w. Qed.

Lemma keeps_logs_stream_into (ctx : value) (path : list string) :
  keeps_logs (stream_into ctx path).
Proof.
  unfold stream_into. apply keeps_logs_bind; [apply keeps_logs_send|]. intros r.
  apply keeps_logs_bind; [apply keeps_logs_send|]. by intros audio w.
Qed.

Lemma keeps_logs_tts_call c x model kw : keeps_logs (OpenAITextToSpeech.call c x model kw).
Proof. intros w. apply tts_call_logs. Qed.

Lemma keeps_logs_tts_client_factory : keeps_logs OpenAITextToSpeech.client_factory.
Proof.
  intros w. unfold OpenAITextToSpeech.client_factory.
  by destruct (environ w !! "OPENAI_API_KEY").
Qed.

Lemma keeps_logs_run_tts x model kw : keeps_logs (run_provider tts_adapter x model kw).
Proof.
  unfold run_provider. apply keeps_logs_bind_lift. intros f [= <-].
  apply keeps_logs_bind; [apply keeps_logs_tts_client_factory|]. intros c.
  apply keeps_logs_bind_lift. intros g [= <-]. apply keeps_logs_tts_call.
Qed.

(** The registry holds the speech adapter under "openai:tts", or nothing. *)
Lemma keeps_logs_generate_speech self user_id convo_id text :
  AI_REGISTRY self !! KStr "openai:tts" = None
  ∨ AI_REGISTRY self !! KStr "openai:tts" = Some tts_adapter →
  (∀ u c s, keeps_logs (append_raw_response self u c s)) →
  keeps_logs (SpeechGeneratorChat.generate_speech self user_id convo_id text).
Proof.
  intros Hreg Happend. unfold SpeechGeneratorChat.generate_speech.
  apply keeps_logs_bind; [by intros w|]. intros ts.
  apply keeps_logs_bind.
  { unfold dispatch. apply keeps_logs_bind_lift. intros p.
    unfold registry_getitem. destruct Hreg as [-> | ->]; [discriminate|].
    intros [= <-]. apply keeps_logs_run_tts. }
  intros ctx. apply keeps_logs_bind.
  { apply keeps_logs_try_except; [|intros; apply keeps_logs_ret].
    apply keeps_logs_bind; [by intros w|]. intros raw. apply Happend. }
  intros _. apply keeps_logs_bind; [apply keeps_logs_stream_into|].
  intros _. apply keeps_logs_ret.
Qed.

Lemma keeps_logs_advanced_generate_speech self user_id convo_id text
    model voice speed response_format instructions :
  AI_REGISTRY self !! KStr "openai:tts" = None
  ∨ AI_REGISTRY self !! KStr "openai:tts" = Some tts_adapter →
  keeps_logs (AdvancedSpeechGeneratorChat.generate_speech self user_id convo_id text
                model voice speed response_format instructions).
Proof.
  intros Hreg. unfold AdvancedSpeechGeneratorChat.generate_speech.
  apply keeps_logs_bind; [by intros w|]. intros ts.
  apply keeps_logs_bind; [by intros w|]. intros ext.
  apply keeps_logs_bind_lift. intros p.
  unfold registry_getitem. destruct Hreg as [-> | ->]; [discriminate|].
  intros [= <-].
  apply keeps_logs_bind_lift. intros f [= <-].
  apply keeps_logs_bind; [apply keeps_logs_tts_client_factory|]. intros c.
  apply keeps_logs_bind_lift. intros kw _.
  apply keeps_logs_bind_lift. intros g [= <-].
  apply keeps_logs_bind; [apply keeps_logs_tts_call|]. intros ctx.
  apply keeps_logs_bind; [apply keeps_logs_stream_into|].
  intros _. apply keeps_logs_ret.
Qed.

(** The two messages [update_convo] appends, whatever [generate_speech]
    ends in, when [generate_speech] leaves the logs alone. *)
Lemma update_convo_outcome self user_id user_message cid
    (speak : M (list string)) (w0 : world) :
  keeps_logs speak →
  let w1 := (add_message self user_id cid (user_message_of user_message) w0).1 in
  ∃ w',
    (_ ← add_message self user_id cid (user_message_of user_message);
     _ ← try_except
           (speech_file_path ← speak;
            add_message self user_id cid
              (<[ "audio_file" := str_path speech_file_path ]>
                 (mk_message "assistant" "")))
           (λ e, add_message self user_id cid (error_message_of e));
     mret cid) w0 = (w', Ok cid)
    ∧ load_messages self user_id cid w'
      = (load_messages self user_id cid w0
           ++ [ user_message_of user_message;
                match (speak w1).2 with
                | Ok path => audio_message_of path
                | Raise e => error_message_of e
                end ])%list.
Proof.
  intros Hkeep w1. specialize (Hkeep w1).
  destruct (speak w1) as [w2 [path|e]] eqn:Hspeak; cbn in Hkeep |- *.
  - exists (add_message self user_id cid (audio_message_of path) w2).1. split.
    + erewrite bind_M_ok; [|reflexivity].
      erewrite bind_M_ok; [reflexivity|].
      unfold try_except. erewrite bind_M_ok; [|exact Hspeak]. reflexivity.
    + rewrite load_add_message, (load_messages_logs _ _ _ w1 w2 Hkeep).
      subst w1. rewrite load_add_message, <- app_assoc. reflexivity.
  - destruct (update_convo_after_failure self user_id user_message cid speak w0 w2 e
                Hspeak Hkeep) as (w' & Hrun & Hload).
    by exists w'.
Qed.

(** X14: once the conversation identifier is known, the [update_convo] of
    both speech applications cannot fail and appends exactly two messages
    to the conversation, the user's and then one of the assistant: the
    message with an empty content and the path of the audio file when
    [generate_speech] returned that path, the failure notice followed by
    the text of the exception when it raised, at whatever step.  (The
    registry holds the speech adapter under "openai:tts" or nothing; for
    the first application the raw-response log of the base class is taken
    to leave the conversation logs alone.) *)
Theorem update_convo_always_answers :
  (∀ self user_id user_message convo_id spec model w w0 cid,
     (AI_REGISTRY self !! KStr "openai:tts" = None
      ∨ AI_REGISTRY self !! KStr "openai:tts" = Some tts_adapter) →
     (∀ u c s, keeps_logs (append_raw_response self u c s)) →
     convo_or_next self convo_id user_id w = (w0, Ok cid) →
     ∃ w',
       SpeechGeneratorChat.update_convo self user_id user_message convo_id spec model w
         = (w', Ok cid)
       ∧ load_messages self user_id cid w'
         = (load_messages self user_id cid w0
              ++ [ mk_message "user" user_message;
                   match (SpeechGeneratorChat.generate_speech self user_id cid
                            user_message
                            (add_message self user_id cid
                               (mk_message "user" user_message) w0).1).2 with
                   | Ok path =>
                       <[ "audio_file" := str_path path ]> (mk_message "assistant" "")
                   | Raise e =>
                       mk_message "assistant"
                         ("❌ Failed to generate speech: " ++ str_exn e)
                   end ])%list)
  ∧ (∀ self user_id user_message convo_id spec model w w0 cid,
       (AI_REGISTRY self !! KStr "openai:tts" = None
        ∨ AI_REGISTRY self !! KStr "openai:tts" = Some tts_adapter) →
       convo_or_next self convo_id user_id w = (w0, Ok cid) →
       ∃ w',
         AdvancedSpeechGeneratorChat.update_convo self user_id user_message
           convo_id spec model w = (w', Ok cid)
         ∧ load_messages self user_id cid w'
           = (load_messages self user_id cid w0
                ++ [ mk_message "user" user_message;
                     match (let settings := default ∅ (_current_tts_settings self) in
                            AdvancedSpeechGeneratorChat.generate_speech self user_id cid
                              user_message
                              (AdvancedSpeechGeneratorChat.get settings "model"
                                 (VStr "gpt-4o-mini-tts"))
                              (AdvancedSpeechGeneratorChat.get settings "voice"
                                 (VStr "alloy"))
                              (AdvancedSpeechGeneratorChat.get settings "speed"
                                 (VFloat 10 (-1)))
                              (AdvancedSpeechGeneratorChat.get settings "response_format"
                                 (VStr "mp3"))
                              (AdvancedSpeechGeneratorChat.get settings "instructions"
                                 VNone)
                              (add_message self user_id cid
                                 (mk_message "user" user_message) w0).1).2 with
                     | Ok path =>
                         <[ "audio_file" := str_path path ]> (mk_message "assistant" "")
                     | Raise e =>
                         mk_message "assistant"
                           ("❌ Failed to generate speech: " ++ str_exn e)
                     end ])%list).
Proof.
  split.
  - intros self user_id user_message convo_id spec model w w0 cid Hreg Happend Hcid.
    destruct (update_convo_outcome self user_id user_message cid
      (SpeechGeneratorChat.generate_speech self user_id cid user_message) w0)
      as (w' & Hrun & Hload).
    { by apply keeps_logs_generate_speech. }
    exists w'. split; [|exact Hload].
    unfold SpeechGeneratorChat.update_convo. cbn zeta.
    erewrite bind_M_ok; [|exact Hcid]. exact Hrun.
  - intros self user_id user_message convo_id spec model w w0 cid Hreg Hcid.
    destruct (update_convo_outcome self user_id user_message cid
      (let settings := default ∅ (_current_tts_settings self) in
       AdvancedSpeechGeneratorChat.generate_speech self user_id cid user_message
         (AdvancedSpeechGeneratorChat.get settings "model" (VStr "gpt-4o-mini-tts"))
         (AdvancedSpeechGeneratorChat.get settings "voice" (VStr "alloy"))
         (AdvancedSpeechGeneratorChat.get settings "speed" (VFloat 10 (-1)))
         (AdvancedSpeechGeneratorChat.get settings "response_format" (VStr "mp3"))
         (AdvancedSpeechGeneratorChat.get settings "instructions" VNone)) w0)
      as (w' & Hrun & Hload).
    { by apply keeps_logs_advanced_generate_speech. }
    exists w'. split; [|exact Hload].
    unfold AdvancedSpeechGeneratorChat.update_convo. cbn zeta.
    erewrite bind_M_ok; [|exact Hcid]. exact Hrun.
Qed.

Lemma update_convo_always_answers_witness :
  let self := AdvancedSpeechGeneratorChat.init (plain_app DashAIChat.AI_REGISTRY) in
  let w := quiet_world {[ "OPENAI_API_KEY" := "sk" ]} (Ok (VStr "audio")) in
  (AI_REGISTRY self !! KStr "openai:tts" = None
   ∨ AI_REGISTRY self !! KStr "openai:tts" = Some tts_adapter)
  ∧ convo_or_next self None "alice" w = (w, Ok "001")
  ∧ ∃ w',
      AdvancedSpeechGeneratorChat.update_convo self "alice" "hello" None None None w
        = (w', Ok "001")
      ∧ load_messages self "alice" "001" w'
        = [ mk_message "user" "hello";
            <[ "audio_file" := "chat_data/alice/001/audio/speech_0.mp3" ]>
              (mk_message "assistant" "") ].
Proof.
  intros self w.
  assert (AI_REGISTRY self !! KStr "openai:tts" = None
          ∨ AI_REGISTRY self !! KStr "openai:tts" = Some tts_adapter) as H1
    by (right; reflexivity).
  assert (convo_or_next self None "alice" w = (w, Ok "001")) as H2 by reflexivity.
  split; [exact H1|]. split; [exact H2|].
  exact (proj2 update_convo_always_answers self "alice" "hello" None None None
           w w "001" H1 H2).
Defined.

(** X15: when the registry holds nothing under "openai:tts", the
    [update_convo] of both speech applications reports the failed lookup in
    the conversation: it returns the conversation identifier, and the
    assistant message after the user's reads "Failed to generate speech"
    with the quoted key. *)
Theorem update_convo_without_speech_adapter :
  (∀ self user_id user_message convo_id spec model w w0 cid,
     AI_REGISTRY self !! KStr "openai:tts" = None →
     convo_or_next self convo_id user_id w = (w0, Ok cid) →
     ∃ w',
       SpeechGeneratorChat.update_convo self user_id user_message convo_id spec model w
         = (w', Ok cid)
       ∧ load_messages self user_id cid w'
         = (load_messages self user_id cid w0
              ++ [ mk_message "user" user_message;
                   mk_message "assistant"
                     "❌ Failed to generate speech: 'openai:tts'" ])%list)
  ∧ (∀ self user_id user_message convo_id spec model w w0 cid,
       AI_REGISTRY self !! KStr "openai:tts" = None →
       convo_or_next self convo_id user_id w = (w0, Ok cid) →
       ∃ w',
         AdvancedSpeechGeneratorChat.update_convo self user_id user_message
           convo_id spec model w = (w', Ok cid)
         ∧ load_messages self user_id cid w'
           = (load_messages self user_id cid w0
                ++ [ mk_message "user" user_message;
                     mk_message "assistant"
                       "❌ Failed to generate speech: 'openai:tts'" ])%list).
Proof.
  split.
  - intros self user_id user_message convo_id spec model w w0 cid Hreg Hcid.
    destruct (update_convo_after_failure self user_id user_message cid
      (SpeechGeneratorChat.generate_speech self user_id cid user_message) w0
      (add_message self user_id cid (user_message_of user_message) w0).1
      (KeyError "openai:tts")) as (w' & Hrun & Hload).
    + unfold SpeechGeneratorChat.generate_speech.
      erewrite bind_M_ok; [|reflexivity].
      erewrite bind_M_raise; [reflexivity|].
      unfold dispatch, registry_getitem. rewrite Hreg. reflexivity.
    + reflexivity.
    + exists w'. split; [|exact Hload].
      unfold SpeechGeneratorChat.update_convo. cbn zeta.
      erewrite bind_M_ok; [|exact Hcid]. exact Hrun.
  - intros self user_id user_message convo_id spec model w w0 cid Hreg Hcid.
    destruct (update_convo_after_failure self user_id user_message cid
      (let settings := default ∅ (_current_tts_settings self) in
       AdvancedSpeechGeneratorChat.generate_speech self user_id cid user_message
         (AdvancedSpeechGeneratorChat.get settings "model" (VStr "gpt-4o-mini-tts"))
         (AdvancedSpeechGeneratorChat.get settings "voice" (VStr "alloy"))
         (AdvancedSpeechGeneratorChat.get settings "speed" (VFloat 10 (-1)))
         (AdvancedSpeechGeneratorChat.get settings "response_format" (VStr "mp3"))
         (AdvancedSpeechGeneratorChat.get settings "instructions" VNone)) w0
      (add_message self user_id cid (user_message_of user_message) w0).1
      (KeyError "openai:tts")) as (w' & Hrun & Hload).
    + cbn zeta. unfold AdvancedSpeechGeneratorChat.generate_speech.
      erewrite bind_M_ok; [|reflexivity].
      erewrite bind_M_ok; [|reflexivity].
      unfold registry_getitem. rewrite Hreg. reflexivity.
    + reflexivity.
    + exists w'. split; [|exact Hload].
      unfold AdvancedSpeechGeneratorChat.update_convo. cbn zeta.
      erewrite bind_M_ok; [|exact Hcid]. exact Hrun.
Qed.

Lemma update_convo_without_speech_adapter_witness :
  let self := plain_app build_default_registry in
  let w := quiet_world {[ "OPENAI_API_KEY" := "sk" ]} (Ok VNone) in
  AI_REGISTRY self !! KStr "openai:tts" = None
  ∧ convo_or_next self (Some "7") "alice" w = (w, Ok "7")
  ∧ ∃ w',
      SpeechGeneratorChat.update_convo self "alice" "hello" (Some "7") None None w
        = (w', Ok "7")
      ∧ load_messages self "alice" "7" w'
        = [ mk_message "user" "hello";
            mk_message "assistant" "❌ Failed to generate speech: 'openai:tts'" ].
Proof.
  intros self w.
  assert (AI_REGISTRY self !! KStr "openai:tts" = None) as H1 by reflexivity.
  assert (convo_or_next self (Some "7") "alice" w = (w, Ok "7")) as H2 by reflexivity.
  split; [exact H1|]. split; [exact H2|].
  exact (proj1 update_convo_without_speech_adapter self "alice" "hello" (Some "7")
           None None w w "7" H1 H2).
Defined.

(** ** The advanced speech request *)






(** ** Storing the speech settings *)

Lemma truthy_value_or (a d : value) : truthy d = true → truthy (value_or a d) = true.
Proof. intros Hd. unfold value_or. by destruct (truthy a) eqn:Ha. Qed.

(** X17: [store_tts_settings] always returns "tts_model_dropdown"; without
    a submit it leaves the application as it is; after a submit, the
    settings [update_convo] reads hold for the model, the voice, the speed
    and the format the value of the page when it is true and else
    "gpt-4o-mini-tts", "alloy", 1.0 and "mp3", never a false value, and the
    instructions as given; the registry is untouched. *)
Theorem store_tts_settings_defaults (self : app)
    (n_submit tts_model tts_voice tts_speed tts_format tts_instructions : value) :
  let stored :=
    store_tts_settings self n_submit tts_model tts_voice tts_speed tts_format
      tts_instructions in
  stored.2 = "tts_model_dropdown"
  ∧ (truthy n_submit = false → stored.1 = self)
  ∧ (truthy n_submit = true →
     let settings := default ∅ (_current_tts_settings stored.1) in
     let get := AdvancedSpeechGeneratorChat.get settings in
     AI_REGISTRY stored.1 = AI_REGISTRY self
     ∧ get "model" (VStr "gpt-4o-mini-tts") = value_or tts_model (VStr "gpt-4o-mini-tts")
     ∧ get "voice" (VStr "alloy") = value_or tts_voice (VStr "alloy")
     ∧ get "speed" (VFloat 10 (-1)) = value_or tts_speed (VFloat 10 (-1))
     ∧ get "response_format" (VStr "mp3") = value_or tts_format (VStr "mp3")
     ∧ get "instructions" VNone = tts_instructions
     ∧ truthy (get "model" (VStr "gpt-4o-mini-tts")) = true
     ∧ truthy (get "voice" (VStr "alloy")) = true
     ∧ truthy (get "speed" (VFloat 10 (-1))) = true
     ∧ truthy (get "response_format" (VStr "mp3")) = true).
Proof.
  intros stored. subst stored. unfold store_tts_settings.
  split; [reflexivity|]. split.
  - by intros ->.
  - intros ->. cbn [fst]. cbv zeta.
    split; [reflexivity|].
    repeat (split; [reflexivity|]).
    repeat split.
    + exact (truthy_value_or tts_model (VStr "gpt-4o-mini-tts") eq_refl).
    + exact (truthy_value_or tts_voice (VStr "alloy") eq_refl).
    + exact (truthy_value_or tts_speed (VFloat 10 (-1)) eq_refl).
    + exact (truthy_value_or tts_format (VStr "mp3") eq_refl).
Qed.

Lemma store_tts_settings_defaults_witness :
  let self := AdvancedSpeechGeneratorChat.init (plain_app DashAIChat.AI_REGISTRY) in
  let stored :=
    store_tts_settings self (VInt 1) (VStr "tts-1") VNone (VInt 0) (VStr "")
      (VStr "slowly") in
  truthy (VInt 1) = true
  ∧ AdvancedSpeechGeneratorChat.get (default ∅ (_current_tts_settings stored.1))
      "speed" (VFloat 10 (-1)) = value_or (VInt 0) (VFloat 10 (-1)).
Proof.
  intros self stored.
  assert (truthy (VInt 1) = true) as H by reflexivity.
  split; [exact H|].
  exact (proj1 (proj2 (proj2 (proj2 (proj2 (proj2
    (store_tts_settings_defaults self (VInt 1) (VStr "tts-1") VNone (VInt 0)
       (VStr "") (VStr "slowly"))) H))))).
Defined.

(** ** The audio players of the speech examples *)

Lemma add_player_spec (audio_url : string) (l l' : list component) :
  SpeechMessages.add_player audio_url l = Ok l' →
  let appended :=
    (l ++ [ SpeechMessages.audio_element audio_url; Node "Br" None [] NoChildren;
            Node "Hr" None [] NoChildren ])%list in
  (l = [] ∧ l' = appended)
  ∨ (l ≠ [] ∧ ∃ tag id props children,
       appended !! 1%nat = Some (Node tag id props children)
       ∧ l' = <[ 1%nat := Node tag id
                            (set_prop "style" SpeechMessages.hidden props) children ]>
                appended).
Proof.
  unfold SpeechMessages.add_player. cbn zeta. rewrite <- !app_assoc. cbn [Datatypes.app].
  set (appended := (l ++ _)%list).
  assert (length appended = (length l + 3)%nat) as Hlen
    by (subst appended; rewrite length_app; reflexivity).
  destruct (bool_decide (3 < length appended)%nat) eqn:Hb.
  - apply bool_decide_eq_true in Hb.
    destruct (appended !! 1%nat) as [second|] eqn:Hsecond.
    2:{ apply lookup_ge_None in Hsecond. lia. }
    rewrite (list_getitem_nonneg appended 1 second) by done. cbn.
    destruct second as [s|tag id props children]; [discriminate|]. cbn.
    intros [= <-]. right. split; [destruct l; [cbn in *; lia|done]|].
    by eexists _, _, _, _.
  - apply bool_decide_eq_false in Hb. intros [= <-]. left.
    split; [|reflexivity]. destruct l; [done|cbn in *; lia].
Qed.

Lemma audio_file_of_spec (exists_ : string → bool) (m : message) (file : option string) :
  SpeechMessages.audio_file_of m = Ok file →
  match file with
  | Some audio_file =>
      m !! "role" = Some "assistant" ∧ m !! "audio_file" = Some audio_file
      ∧ audio_file ≠ ""
  | None => ¬ playable exists_ m
  end.
Proof.
  unfold SpeechMessages.audio_file_of, dict_getitem, playable.
  destruct (m !! "role") as [role|] eqn:Hrole; [|discriminate]. cbn.
  destruct (String.eqb_spec role "assistant") as [->|Hne].
  - destruct (m !! "audio_file") as [[|a s]|] eqn:Hf; intros [= <-].
    + intros (_ & af & [= <-] & Hne & _). done.
    + done.
    + intros (_ & af & [=] & _).
  - intros [= <-] [[= ->] _]. done.
Qed.

Lemma play_one_spec exists_ path_str (i : nat) (msg : message)
    (fmt out : list component) :
  SpeechMessages.play_one exists_ path_str i msg fmt = Ok out →
  length out = length fmt
  ∧ (∀ j, j ≠ i → out !! j = fmt !! j)
  ∧ ∀ c, fmt !! i = Some c →
      (¬ playable exists_ msg → out !! i = Some c)
      ∧ (∀ audio_file, playable exists_ msg → msg !! "audio_file" = Some audio_file →
           match c with
           | Node tag id props (Children l) =>
               ∃ l', out !! i = Some (Node tag id props (Children l'))
                     ∧ SpeechMessages.add_player ("/" ++ path_str audio_file) l = Ok l'
           | _ => out !! i = Some c
           end).
Proof.
  unfold SpeechMessages.play_one.
  destruct (SpeechMessages.audio_file_of msg) as [file|] eqn:Hfile; [|discriminate].
  apply (audio_file_of_spec exists_) in Hfile. cbn.
  assert (∀ c, fmt !! i = Some c → ¬ playable exists_ msg →
    (¬ playable exists_ msg → fmt !! i = Some c)
    ∧ (∀ audio_file, playable exists_ msg → msg !! "audio_file" = Some audio_file →
         match c with
         | Node tag id props (Children l) =>
             ∃ l', fmt !! i = Some (Node tag id props (Children l'))
                   ∧ SpeechMessages.add_player ("/" ++ path_str audio_file) l = Ok l'
         | _ => fmt !! i = Some c
         end)) as Hsame by (intros c Hc Hn; split; [done|]; by intros).
  destruct file as [audio_file|].
  2:{ intros [= <-]. split; [reflexivity|]. split; [done|].
      intros c Hc. by apply Hsame. }
  destruct Hfile as (Hrole & Hfile & Hne).
  destruct (exists_ audio_file) eqn:Hex.
  2:{ intros [= <-]. split; [reflexivity|]. split; [done|].
      intros c Hc. apply Hsame; [exact Hc|].
      intros (_ & af & Haf & _ & Hex'). congruence. }
  assert (playable exists_ msg) as Hplay.
  { split; [exact Hrole|]. by exists audio_file. }
  destruct (bool_decide (i < length fmt)%nat) eqn:Hi.
  2:{ apply bool_decide_eq_false in Hi. intros [= <-]. split; [reflexivity|].
      split; [done|]. intros c Hc. apply lookup_lt_Some in Hc. lia. }
  apply bool_decide_eq_true in Hi.
  destruct (fmt !! i) as [ci|] eqn:Hci.
  2:{ apply lookup_ge_None in Hci. lia. }
  destruct ci as [s|tag id props [|child|l]];
    try (intros [= <-]; split; [reflexivity|]; split; [done|];
         intros c [= <-]; split; [done|]; intros af _ _; exact Hci).
  destruct (SpeechMessages.add_player _ l) as [l'|] eqn:Hadd; [|discriminate]. cbn.
  intros [= <-]. split; [by rewrite length_insert|]. split.
  - intros j Hj. by rewrite list_lookup_insert_ne.
  - intros c [= <-]. split; [done|]. intros af _ Haf.
    rewrite Hfile in Haf. injection Haf as <-.
    exists l'. split; [by rewrite list_lookup_insert_eq|exact Hadd].
Qed.

Lemma play_from_spec exists_ path_str (k : nat) (msgs : list message)
    (fmt out : list component) :
  SpeechMessages.play_from exists_ path_str k msgs fmt = Ok out →
  length out = length fmt
  ∧ ∀ j c, fmt !! j = Some c →
      ((j < k)%nat ∨ (k + length msgs ≤ j)%nat → out !! j = Some c)
      ∧ (∀ m, (k ≤ j)%nat → msgs !! (j - k)%nat = Some m →
              played exists_ path_str m c (out !! j)).
Proof.
  revert k fmt. induction msgs as [|msg rest IH]; intros k fmt H; cbn in H.
  - injection H as <-. split; [reflexivity|]. intros j c Hj. split; [done|].
    intros m _ Hm. done.
  - destruct (SpeechMessages.play_one exists_ path_str k msg fmt) as [fmt'|] eqn:Hone;
      [|discriminate].
    cbn in H. apply play_one_spec in Hone as (Hlen1 & Hframe & Hat).
    apply IH in H as [Hlen2 Hrest]. split; [congruence|].
    intros j c Hj. destruct (decide (j = k)) as [->|Hjk].
    + split; [cbn; lia|]. intros m _ Hm.
      replace (k - k)%nat with 0%nat in Hm by lia. injection Hm as <-.
      destruct (fmt' !! k) as [c'|] eqn:Hc'.
      2:{ apply lookup_ge_None in Hc'. apply lookup_lt_Some in Hj. lia. }
      destruct (Hrest k c' Hc') as [Hkeep _].
      rewrite Hkeep by lia. exact (Hat c Hj).
    + assert (fmt' !! j = Some c) as Hj' by (by rewrite Hframe).
      destruct (Hrest j c Hj') as [Hout Hplayed]. split.
      * intros Hrange. apply Hout. cbn in Hrange. lia.
      * intros m Hk Hm. apply Hplayed; [lia|].
        replace (j - k)%nat with (S (j - S k)) in Hm by lia. exact Hm.
Qed.

(** X18: when the [format_messages] of the speech applications returns, it
    returns as many formatted messages as the base class made, in the same
    order.  The one of a message that is not playable (not of the
    assistant, or with no or an empty [audio_file], or a file that does not
    exist) is as the base class made it.  The one of a playable message
    keeps its tag, id and properties; a list of children [l] becomes [l]
    followed by the audio player for "/" and the file's path, a line break
    and a rule, where, when [l] is not empty, the child at position 1 has
    got the style that hides it; so with exactly one child before, it is
    the audio player itself that is hidden. *)
Theorem players_for_audio_messages
    (super_format_messages : list message → result (list component))
    (exists_ : string → bool) (path_str : string → string)
    (messages : list message) (formatted out : list component) :
  super_format_messages messages = Ok formatted →
  SpeechMessages.format_messages super_format_messages exists_ path_str messages
    = Ok out →
  length out = length formatted
  ∧ ∀ i c, formatted !! i = Some c →
      (messages !! i = None → out !! i = Some c)
      ∧ ∀ m, messages !! i = Some m →
          (¬ playable exists_ m → out !! i = Some c)
          ∧ ∀ audio_file, playable exists_ m → m !! "audio_file" = Some audio_file →
              match c with
              | Node tag id props (Children l) =>
                  let player :=
                    SpeechMessages.audio_element ("/" ++ path_str audio_file) in
                  let appended :=
                    (l ++ [ player; Node "Br" None [] NoChildren;
                            Node "Hr" None [] NoChildren ])%list in
                  ∃ l', out !! i = Some (Node tag id props (Children l'))
                    ∧ length l' = (length l + 3)%nat
                    ∧ (∀ j, j ≠ 1%nat → l' !! j = appended !! j)
                    ∧ (l = [] → l' = appended)
                    ∧ (l ≠ [] → ∃ tag' id' props' children',
                         appended !! 1%nat = Some (Node tag' id' props' children')
                         ∧ l' !! 1%nat
                           = Some (Node tag' id'
                                     (set_prop "style" SpeechMessages.hidden props')
                                     children'))
                    ∧ (length l = 1%nat →
                       l' !! 1%nat
                       = Some (Node "Audio" None
                                 [ ("controls", VBool true);
                                   ("src", VStr ("/" ++ path_str audio_file));
                                   ("style", SpeechMessages.hidden) ]
                                 NoChildren))
              | _ => out !! i = Some c
              end.
Proof.
  intros Hsuper. unfold SpeechMessages.format_messages. rewrite Hsuper. cbn.
  intros H. apply play_from_spec in H as [Hlen H]. split; [exact Hlen|].
  intros i c Hi. destruct (H i c Hi) as [Hout Hplayed]. split.
  - intros Hnone. apply Hout. right. apply lookup_ge_None in Hnone. lia.
  - intros m Hm. destruct (Hplayed m) as [Hno Hyes]; [lia|by rewrite Nat.sub_0_r|].
    split; [exact Hno|]. intros audio_file Hplay Hfile.
    specialize (Hyes audio_file Hplay Hfile).
    destruct c as [s|tag id props [|child|l]]; try exact Hyes.
    destruct Hyes as (l' & Hl' & Hadd). exists l'. split; [exact Hl'|].
    apply add_player_spec in Hadd. cbn zeta in Hadd.
    destruct Hadd as [[-> ->]|(Hne & tag' & id' & props' & children' & Hsecond & ->)].
    + split; [reflexivity|]. split; [done|]. split; [done|]. split; [done|].
      discriminate.
    + assert (1 < length (l ++ [ SpeechMessages.audio_element ("/" ++ path_str audio_file);
                                 Node "Br" None [] NoChildren;
                                 Node "Hr" None [] NoChildren ]))%nat as Hlong
        by (by apply lookup_lt_Some in Hsecond).
      split; [rewrite length_insert, length_app; reflexivity|].
      split; [intros j Hj; by rewrite list_lookup_insert_ne|].
      split; [done|]. split.
      * intros _. eexists _, _, _, _. split; [exact Hsecond|].
        by rewrite list_lookup_insert_eq.
      * intros Hone. destruct l as [|x [|y l]]; try discriminate Hone.
        cbn in Hsecond. injection Hsecond as <- <- <- <-. reflexivity.
Qed.

Lemma players_for_audio_messages_witness :
  let bubble (s : string) := Node "Div" None [] (Children [Text s; Node "I" None [] NoChildren]) in
  let super_format_messages (ms : list message) : result (list component) :=
    Ok (map (λ m, bubble (field m "content")) ms) in
  let exists_ (s : string) := String.eqb s "chat_data/a/1/audio/speech_0.mp3" in
  let messages :=
    [ mk_message "user" "hello";
      <[ "audio_file" := "chat_data/a/1/audio/speech_0.mp3" ]>
        (mk_message "assistant" "") ] in
  let player := SpeechMessages.audio_element "/chat_data/a/1/audio/speech_0.mp3" in
  let out :=
    [ bubble "hello";
      Node "Div" None []
        (Children [ Text "";
                    Node "I" None [("style", SpeechMessages.hidden)] NoChildren;
                    player; Node "Br" None [] NoChildren;
                    Node "Hr" None [] NoChildren ]) ] in
  super_format_messages messages = Ok [bubble "hello"; bubble ""]
  ∧ SpeechMessages.format_messages super_format_messages exists_ (λ s, s) messages
    = Ok out
  ∧ length out = length [bubble "hello"; bubble ""].
Proof.
  intros bubble super_format_messages exists_ messages player out.
  assert (super_format_messages messages = Ok [bubble "hello"; bubble ""]) as H1
    by reflexivity.
  assert (SpeechMessages.format_messages super_format_messages exists_ (λ s, s)
            messages = Ok out) as H2 by reflexivity.
  split; [exact H1|]. split; [exact H2|].
  exact (proj1 (players_for_audio_messages super_format_messages exists_ (λ s, s)
                  messages _ out H1 H2)).
Defined.

(** ** The raw-response log of the first speech application *)


